(** * cd-agent-sdk-ts: the WebSocket connection engine

    A shallow embedding of [WebSocketService] and of the four classes it
    composes ([ReconnectionManager], [MessageQueue], [HeartbeatManager],
    [ConnectionMetrics]), followed by the properties of the connection
    lifecycle that the specification states, and by further properties of
    the components, of the handlers of the service, of its executions and
    of its listeners.

    Conventions of the embedding.
    - JavaScript numbers that count things or measure milliseconds are [Z].
    - The backoff multiplier is configured as a rational ([Q]); the program
      holds the binary64 number nearest to it, and
      [Math.floor(currentDelay * multiplier)] is the floor of the binary64
      product, rounded to nearest with ties to even (module [Double], on
      the IEEE 754 operations of the standard library's [SpecFloat]).
    - The browser is explicit state: the pending timers of [window] and the
      [WebSocket] objects that were constructed, each with its [readyState].
    - A callback stored in a field is a value of a callback type; calling it
      is recorded in the list of calls a method returns, in call order.  The
      service interprets the calls of its own closures.
    - [emit] appends to the trace of emitted events.  Listeners are
      observers of that trace: a listener that calls back into the service
      is outside the model.
    - [Date.now()] is the argument [now] of every handler. *)

From Stdlib Require Import ZArith QArith Qround Qminmax Qpower Lia Bool String List.
From Stdlib Require Import SpecFloat.
From stdpp Require Import base option list gmap.

Local Open Scope Z_scope.

(** ** Outcomes of calls that may throw *)

Inductive Outcome (A : Type) : Type :=
| Returned (a : A)
| Threw (msg : string).
Arguments Returned {A} a.
Arguments Threw {A} msg.

(** ** The browser: timers *)

Module Window.

(** What a pending timer runs when it fires: the four arrow functions the
    sources hand to [window.setTimeout] and [window.setInterval]. *)
Inductive Handler : Type :=
| ConnectionTimeout      (* WebSocketService.createConnection *)
| HeartbeatInterval      (* HeartbeatManager.start *)
| HeartbeatTimeout       (* HeartbeatManager.sendHeartbeat *)
| ReconnectDelay.        (* ReconnectionManager.schedule *)

Record Timer : Type := mkTimer {
  handler : Handler;
  delay : Z;
  repeating : bool
}.

Record t : Type := mk {
  timers : gmap nat Timer;
  nextId : nat
}.

(** Timer handles are positive integers, so a handle is never falsy. *)
Definition empty : t := {| timers := ∅; nextId := 1 |}.

Definition arm (tk : Handler) (d : Z) (rep : bool) (w : t) : nat * t :=
  (nextId w,
   {| timers := <[nextId w := mkTimer tk d rep]> (timers w);
      nextId := S (nextId w) |}).

Definition setTimeout (tk : Handler) (d : Z) (w : t) : nat * t := arm tk d false w.
Definition setInterval (tk : Handler) (d : Z) (w : t) : nat * t := arm tk d true w.

(** [clearTimeout] and [clearInterval]: an unknown handle is ignored. *)
Definition clearTimeout (id : nat) (w : t) : t :=
  {| timers := delete id (timers w); nextId := nextId w |}.
Definition clearInterval (id : nat) (w : t) : t := clearTimeout id w.

Definition pending (id : nat) (w : t) : option Timer := timers w !! id.

(** A timer that fires: a one-shot timer leaves the pending set before its
    callback runs, a repeating one stays. *)
Definition fire (id : nat) (w : t) : option (Timer * t) :=
  match timers w !! id with
  | None => None
  | Some tm =>
      Some (tm, if repeating tm then w else clearTimeout id w)
  end.

End Window.

(** ** JavaScript numbers: binary64

    The one place where the sources multiply by a number that need not be
    an integer is the backoff of [ReconnectionManager.schedule].  Its
    product is the IEEE 754 binary64 product. *)

Module Double.

Definition prec : Z := 53.
Definition emax : Z := 1024.

(** The number an integer denotes: the nearest binary64 number, a tie
    going to the even significand; every integer of magnitude up to 2^53
    is kept exactly, and a magnitude of 2^1024 or more is an infinity. *)
Definition ofZ (z : Z) : spec_float := binary_normalize prec emax z 0 false.

(** The number a rational literal denotes: the quotient of numerator and
    denominator, rounded once to the nearest binary64 number. *)
Definition ofQ (q : Q) : spec_float :=
  match Qnum q with
  | Z0 => S754_zero false
  | Zpos p =>
      let '(m, e, l) :=
        SFdiv_core_binary prec emax (Zpos p) 0 (Zpos (Qden q)) 0 in
      binary_round_aux prec emax false m e l
  | Zneg p =>
      let '(m, e, l) :=
        SFdiv_core_binary prec emax (Zpos p) 0 (Zpos (Qden q)) 0 in
      binary_round_aux prec emax true m e l
  end.

(** [x * y]. *)
Definition mul (x y : spec_float) : spec_float := SFmul prec emax x y.

(** [Math.floor(x)] as an integer.  The floor of an infinity is that
    infinity: it is written as the integer 2^1024 with its sign, which
    [ofZ] reads back as the infinity.  [NaN] (the product of an infinity
    and a zero) has no integer and is written 0. *)
Definition floor (x : spec_float) : Z :=
  match x with
  | S754_zero _ => 0
  | S754_finite s m e =>
      let v := if s then Zneg m else Zpos m in
      if 0 <=? e then v * 2 ^ e else v / 2 ^ (- e)
  | S754_infinity s => if s then - 2 ^ emax else 2 ^ emax
  | S754_nan => 0
  end.

(** [Math.floor(d * m)] for an integer [d] and a configured number [m]. *)
Definition floorMul (d : Z) (m : Q) : Z := floor (mul (ofZ d) (ofQ m)).

(** [m * 2^e] is at least the integer [d]. *)
Definition scaledGe (d m e : Z) : Prop :=
  d * 2 ^ Z.max 0 (- e) <= m * 2 ^ Z.max 0 e.

(** The number [x] is positive and at least the integer [d]. *)
Definition atLeast (d : Z) (x : spec_float) : Prop :=
  match x with
  | S754_finite false m e => scaledGe d (Zpos m) e
  | S754_infinity false => True
  | _ => False
  end.

(** A finite number has a significand of at most 53 bits and an exponent
    of at most 971. *)
Definition bounded (x : spec_float) : Prop :=
  match x with
  | S754_finite _ m e => Zpos m < 2 ^ 53 /\ e <= 971
  | _ => True
  end.

(** The integer [d] is held exactly: it is a significand of at most 53
    bits times a power of two (or stands for the infinity). *)
Definition holds (d : Z) : Prop :=
  d <= 2 ^ 1024
  /\ exists m e, d = m * 2 ^ e /\ 0 <= m < 2 ^ 53 /\ 0 <= e.

End Double.

(** ** ReconnectionManager *)

Module ReconnectionManager.
Section WithCallbacks.

(** The type of the callbacks handed to [schedule]. *)
Context {CB : Type}.

(** [delayMultiplier] is the number as the configuration writes it;
    [schedule] multiplies by its binary64 value. *)
Record Config : Type := mkConfig {
  maxAttempts : Z;
  initialDelay : Z;
  maxDelay : Z;
  delayMultiplier : Q
}.

Record t : Type := mk {
  config : Config;
  attempts : Z;
  currentDelay : Z;
  timeoutId : option nat;
  isScheduled : bool;
  reconnectFn : option CB;
  onAttempt : option CB;
  onMaxAttemptsReached : option CB
}.

Inductive Call : Type :=
| CallReconnect (f : CB)
| CallOnAttempt (f : CB) (attempt maxAttempts delay : Z)
| CallOnMaxAttemptsReached (f : CB).

Definition new (c : Config) : t :=
  {| config := c; attempts := 0; currentDelay := initialDelay c;
     timeoutId := None; isScheduled := false;
     reconnectFn := None; onAttempt := None; onMaxAttemptsReached := None |}.

(** [a ?? b] on callbacks: the argument when given, else the stored one. *)
Definition orElse (a b : option CB) : option CB :=
  match a with Some _ => a | None => b end.

Definition schedule (reconnect : CB) (onAttempt' onMax : option CB)
    (r : t) (w : Window.t) : t * Window.t * list Call :=
  if attempts r >=? maxAttempts (config r) then
    (r, w,
     match onMax with
     | Some f => [CallOnMaxAttemptsReached f]
     | None =>
         match onMaxAttemptsReached r with
         | Some f => [CallOnMaxAttemptsReached f]
         | None => []
         end
     end)
  else
    let onA := orElse onAttempt' (onAttempt r) in
    let onM := orElse onMax (onMaxAttemptsReached r) in
    let n := attempts r + 1 in
    let d := Z.min (currentDelay r) (maxDelay (config r)) in
    let calls :=
      match onA with
      | Some f => [CallOnAttempt f n (maxAttempts (config r)) d]
      | None => []
      end in
    let '(id, w') := Window.setTimeout Window.ReconnectDelay d w in
    ({| config := config r; attempts := n;
        currentDelay :=
          Double.floorMul (currentDelay r) (delayMultiplier (config r));
        timeoutId := Some id; isScheduled := true;
        reconnectFn := Some reconnect; onAttempt := onA;
        onMaxAttemptsReached := onM |},
     w', calls).

Definition cancel (r : t) (w : Window.t) : t * Window.t :=
  ({| config := config r; attempts := attempts r;
      currentDelay := currentDelay r;
      timeoutId := None; isScheduled := false;
      reconnectFn := reconnectFn r; onAttempt := onAttempt r;
      onMaxAttemptsReached := onMaxAttemptsReached r |},
   match timeoutId r with
   | Some id => Window.clearTimeout id w
   | None => w
   end).

Definition reset (r : t) (w : Window.t) : t * Window.t :=
  let '(r1, w1) := cancel r w in
  ({| config := config r1; attempts := 0;
      currentDelay := initialDelay (config r1);
      timeoutId := timeoutId r1; isScheduled := isScheduled r1;
      reconnectFn := None; onAttempt := None;
      onMaxAttemptsReached := None |}, w1).

(** The body of the timer armed by [schedule]. *)
Definition executeReconnect (r : t) : t * list Call :=
  ({| config := config r; attempts := attempts r;
      currentDelay := currentDelay r;
      timeoutId := None; isScheduled := false;
      reconnectFn := reconnectFn r; onAttempt := onAttempt r;
      onMaxAttemptsReached := onMaxAttemptsReached r |},
   match reconnectFn r with
   | Some f => [CallReconnect f]
   | None => []
   end).

Definition isMaxAttemptsReached (r : t) : bool :=
  attempts r >=? maxAttempts (config r).
Definition attemptCount (r : t) : Z := attempts r.

(** The delay of the timer that [timeoutId] refers to, when it is pending. *)
Definition armedDelay (r : t) (w : Window.t) : option Z :=
  match timeoutId r with
  | Some id => Window.delay <$> Window.pending id w
  | None => None
  end.

(** [k] consecutive calls of [schedule] with the same callbacks. *)
Fixpoint scheduleN (k : nat) (f : CB) (a m : option CB)
    (r : t) (w : Window.t) : t * Window.t :=
  match k with
  | O => (r, w)
  | S k' =>
      let '(r1, w1) := scheduleN k' f a m r w in
      let '(r2, w2, _) := schedule f a m r1 w1 in
      (r2, w2)
  end.

(** The value stored in [currentDelay] after [i] schedulings that were
    not refused: the iteration of [Math.floor(currentDelay * multiplier)]. *)
Fixpoint storedDelay (c : Config) (i : nat) : Z :=
  match i with
  | O => initialDelay c
  | S i' => Double.floorMul (storedDelay c i') (delayMultiplier c)
  end.

(** The closed form the specification gives for the [n]-th delay:
    [min(initialDelay * multiplier^(n-1), maxDelay)], rounded down, in
    exact arithmetic. *)
Definition specDelay (c : Config) (n : nat) : Z :=
  Qfloor (Qmin (inject_Z (initialDelay c)
                * Qpower (delayMultiplier c) (Z.of_nat (Nat.pred n)))
               (inject_Z (maxDelay c))).

(** [getState()] and the getters [scheduled] and [delay]. *)
Record ReconnectionState : Type := mkState {
  stateAttempts : Z;
  stateMaxAttempts : Z;
  stateCurrentDelay : Z;
  stateIsScheduled : bool
}.

Definition getState (r : t) : ReconnectionState :=
  mkState (attempts r) (maxAttempts (config r)) (currentDelay r)
    (isScheduled r).

Definition scheduled (r : t) : bool := isScheduled r.
Definition delay (r : t) : Z := currentDelay r.

(** The argument of [updateConfig]: a field is [Some] when the object has
    the key, with a number as its value.  An object that has a key with
    the value [undefined] is outside the model. *)
Record ConfigUpdate : Type := mkUpdate {
  setMaxAttempts : option Z;
  setInitialDelay : option Z;
  setMaxDelay : option Z;
  setDelayMultiplier : option Q
}.

(** [{ ...this.config, ...config }] *)
Definition merge (c : Config) (u : ConfigUpdate) : Config :=
  {| maxAttempts := default (maxAttempts c) (setMaxAttempts u);
     initialDelay := default (initialDelay c) (setInitialDelay u);
     maxDelay := default (maxDelay c) (setMaxDelay u);
     delayMultiplier := default (delayMultiplier c) (setDelayMultiplier u) |}.

Definition updateConfig (u : ConfigUpdate) (r : t) : t :=
  {| config := merge (config r) u; attempts := attempts r;
     currentDelay :=
       match setInitialDelay u with
       | Some d => if attempts r =? 0 then d else currentDelay r
       | None => currentDelay r
       end;
     timeoutId := timeoutId r; isScheduled := isScheduled r;
     reconnectFn := reconnectFn r; onAttempt := onAttempt r;
     onMaxAttemptsReached := onMaxAttemptsReached r |}.

End WithCallbacks.
Arguments t : clear implicits.
Arguments Call : clear implicits.
End ReconnectionManager.

(** ** MessageQueue *)

Module MessageQueue.
Section WithCommands.

(** The commands that are queued and the type of their callbacks. *)
Context {Command CB : Type}.

Record QueuedMessage : Type := mkMessage {
  command : Command;
  timestamp : Z;
  attempts : Z;
  onSuccess : option CB;
  onError : option CB
}.

Record Config : Type := mkConfig { maxSize : Z }.

Record t : Type := mk {
  queue : list QueuedMessage;
  config : Config
}.

(** A callback of a queued message called with [new Error(message)]. *)
Inductive Call : Type :=
| CallOnError (f : CB) (message : string).

Definition overflowMessage : string := "Message dropped: queue overflow".
Definition clearedMessage : string := "Queue cleared".

Definition new (c : Config) : t := {| queue := []; config := c |}.

Definition size (q : t) : Z := Z.of_nat (length (queue q)).
Definition isEmpty (q : t) : bool := size q =? 0.
Definition isFull (q : t) : bool := size q >=? maxSize (config q).

(** [dropped?.onError(...)]: nothing is called when the entry or its
    callback is missing. *)
Definition notifyDropped (dropped : option QueuedMessage) : list Call :=
  match dropped with
  | Some m =>
      match onError m with
      | Some f => [CallOnError f overflowMessage]
      | None => []
      end
  | None => []
  end.

(** [Array.prototype.shift]: the first element when there is one, and
    the rest. *)
Definition shift (l : list QueuedMessage)
    : option QueuedMessage * list QueuedMessage :=
  match l with
  | [] => (None, [])
  | m :: rest => (Some m, rest)
  end.

Definition enqueue (now : Z) (c : Command) (onS onE : option CB) (q : t)
    : t * list Call * bool :=
  let '(kept, calls) :=
    if size q >=? maxSize (config q) then
      let '(dropped, rest) := shift (queue q) in
      (rest, notifyDropped dropped)
    else (queue q, []) in
  ({| queue := kept ++ [mkMessage c now 0 onS onE]; config := config q |},
   calls, true).

Definition flush (q : t) : t * list QueuedMessage :=
  ({| queue := []; config := config q |}, queue q).

Definition peek (q : t) : option QueuedMessage := head (queue q).

Definition dequeue (q : t) : t * option QueuedMessage :=
  let '(m, rest) := shift (queue q) in
  ({| queue := rest; config := config q |}, m).

Definition clear (notifyErrors : bool) (q : t) : t * list Call :=
  ({| queue := []; config := config q |},
   if notifyErrors then
     flat_map (fun m => match onError m with
                        | Some f => [CallOnError f clearedMessage]
                        | None => []
                        end) (queue q)
   else []).

End WithCommands.
Arguments QueuedMessage : clear implicits.
Arguments t : clear implicits.
Arguments Call : clear implicits.
End MessageQueue.

(** ** HeartbeatManager *)

Module HeartbeatManager.
Section WithCallbacks.

Context {CB : Type}.

Record Config : Type := mkConfig {
  interval : Z;
  timeout : Z
}.

Record t : Type := mk {
  config : Config;
  sendPing : option CB;
  onTimeout : option CB;
  onPong : option CB;
  intervalId : option nat;
  timeoutId : option nat;
  lastPingTime : Z;
  isRunning : bool
}.

Inductive Call : Type :=
| CallSendPing (f : CB)
| CallOnTimeout (f : CB)
| CallOnPong (f : CB) (latency : Z).

(** What the probe-send function does when it is called: it returns a
    truthy value, a falsy one, or throws. *)
Inductive PingResult : Type := PingSent | PingFailed | PingThrew.

Definition new (c : Config) : t :=
  {| config := c; sendPing := None; onTimeout := None; onPong := None;
     intervalId := None; timeoutId := None; lastPingTime := 0;
     isRunning := false |}.

Definition clearHandle (h : option nat) (w : Window.t) : Window.t :=
  match h with
  | Some id => Window.clearTimeout id w
  | None => w
  end.

Definition stop (h : t) (w : Window.t) : t * Window.t :=
  ({| config := config h; sendPing := None; onTimeout := None;
      onPong := None; intervalId := None; timeoutId := None;
      lastPingTime := lastPingTime h; isRunning := false |},
   clearHandle (timeoutId h) (clearHandle (intervalId h) w)).

Definition start (ping onT : CB) (onP : option CB) (h : t) (w : Window.t)
    : t * Window.t :=
  let '(h1, w1) := stop h w in
  if interval (config h1) <=? 0 then (h1, w1)
  else
    let '(id, w2) :=
      Window.setInterval Window.HeartbeatInterval (interval (config h1)) w1 in
    ({| config := config h1; sendPing := Some ping; onTimeout := Some onT;
        onPong := onP; intervalId := Some id; timeoutId := timeoutId h1;
        lastPingTime := lastPingTime h1; isRunning := true |}, w2).

Definition handlePong (now : Z) (h : t) (w : Window.t)
    : t * Window.t * list Call :=
  ({| config := config h; sendPing := sendPing h; onTimeout := onTimeout h;
      onPong := onPong h; intervalId := intervalId h; timeoutId := None;
      lastPingTime := lastPingTime h; isRunning := isRunning h |},
   clearHandle (timeoutId h) w,
   if lastPingTime h >? 0 then
     match onPong h with
     | Some f => [CallOnPong f (now - lastPingTime h)]
     | None => []
     end
   else []).

Definition enabled (h : t) : bool := interval (config h) >? 0.
Definition running (h : t) : bool := isRunning h.

Definition withPing (now : Z) (tid : option nat) (h : t) : t :=
  {| config := config h; sendPing := sendPing h; onTimeout := onTimeout h;
     onPong := onPong h; intervalId := intervalId h; timeoutId := tid;
     lastPingTime := now; isRunning := isRunning h |}.

(** One tick of the interval timer.  [res] is what the probe-send
    function does when this tick calls it. *)
Definition sendHeartbeat (now : Z) (res : PingResult) (h : t) (w : Window.t)
    : t * Window.t * list Call :=
  match sendPing h with
  | None => (h, w, [])
  | Some f =>
      match res with
      | PingSent =>
          let '(id, w') :=
            Window.setTimeout Window.HeartbeatTimeout (timeout (config h)) w in
          (withPing now (Some id) h, w', [CallSendPing f])
      | PingFailed | PingThrew =>
          (withPing now (timeoutId h) h, w, [CallSendPing f])
      end
  end.

(** The body of the timer armed by [sendHeartbeat]. *)
Definition handleHeartbeatTimeout (h : t) : t * list Call :=
  ({| config := config h; sendPing := sendPing h; onTimeout := onTimeout h;
      onPong := onPong h; intervalId := intervalId h; timeoutId := None;
      lastPingTime := lastPingTime h; isRunning := isRunning h |},
   match onTimeout h with
   | Some f => [CallOnTimeout f]
   | None => []
   end).

(** The argument of [updateConfig]: a field is [Some] when the object has
    the key, with a number as its value.  An object that has a key with
    the value [undefined] is outside the model. *)
Record ConfigUpdate : Type := mkUpdate {
  setInterval : option Z;
  setTimeout : option Z
}.

Definition updateConfig (u : ConfigUpdate) (h : t) : t :=
  {| config :=
       {| interval := default (interval (config h)) (setInterval u);
          timeout := default (timeout (config h)) (setTimeout u) |};
     sendPing := sendPing h; onTimeout := onTimeout h; onPong := onPong h;
     intervalId := intervalId h; timeoutId := timeoutId h;
     lastPingTime := lastPingTime h; isRunning := isRunning h |}.

End WithCallbacks.
Arguments t : clear implicits.
Arguments Call : clear implicits.
End HeartbeatManager.

(** ** ConnectionMetrics *)

Module ConnectionMetrics.

Record t : Type := mk {
  maxLatencyMeasurements : Z;
  connectedAt : option Z;
  disconnectedAt : option Z;
  messagesSent : Z;
  messagesReceived : Z;
  reconnectAttempts : Z;
  reconnectSuccesses : Z;
  errors : Z;
  latencyMeasurements : list Z;
  lastLatency : Z
}.

Definition new : t := mk 10 None None 0 0 0 0 0 [] 0.

Definition recordConnect (now : Z) (m : t) : t :=
  mk (maxLatencyMeasurements m) (Some now) (disconnectedAt m)
     (messagesSent m) (messagesReceived m) (reconnectAttempts m)
     (reconnectSuccesses m) (errors m) (latencyMeasurements m) (lastLatency m).

Definition recordDisconnect (now : Z) (m : t) : t :=
  mk (maxLatencyMeasurements m) (connectedAt m) (Some now)
     (messagesSent m) (messagesReceived m) (reconnectAttempts m)
     (reconnectSuccesses m) (errors m) (latencyMeasurements m) (lastLatency m).

Definition recordMessageSent (m : t) : t :=
  mk (maxLatencyMeasurements m) (connectedAt m) (disconnectedAt m)
     (messagesSent m + 1) (messagesReceived m) (reconnectAttempts m)
     (reconnectSuccesses m) (errors m) (latencyMeasurements m) (lastLatency m).

Definition recordMessageReceived (m : t) : t :=
  mk (maxLatencyMeasurements m) (connectedAt m) (disconnectedAt m)
     (messagesSent m) (messagesReceived m + 1) (reconnectAttempts m)
     (reconnectSuccesses m) (errors m) (latencyMeasurements m) (lastLatency m).

Definition recordReconnectAttempt (m : t) : t :=
  mk (maxLatencyMeasurements m) (connectedAt m) (disconnectedAt m)
     (messagesSent m) (messagesReceived m) (reconnectAttempts m + 1)
     (reconnectSuccesses m) (errors m) (latencyMeasurements m) (lastLatency m).

Definition recordReconnectSuccess (m : t) : t :=
  mk (maxLatencyMeasurements m) (connectedAt m) (disconnectedAt m)
     (messagesSent m) (messagesReceived m) (reconnectAttempts m)
     (reconnectSuccesses m + 1) (errors m) (latencyMeasurements m)
     (lastLatency m).

Definition recordError (m : t) : t :=
  mk (maxLatencyMeasurements m) (connectedAt m) (disconnectedAt m)
     (messagesSent m) (messagesReceived m) (reconnectAttempts m)
     (reconnectSuccesses m) (errors m + 1) (latencyMeasurements m)
     (lastLatency m).

Definition recordLatency (latency : Z) (m : t) : t :=
  let pushed := latencyMeasurements m ++ [latency] in
  mk (maxLatencyMeasurements m) (connectedAt m) (disconnectedAt m)
     (messagesSent m) (messagesReceived m) (reconnectAttempts m)
     (reconnectSuccesses m) (errors m)
     (if Z.of_nat (length pushed) >? maxLatencyMeasurements m
      then tail pushed else pushed)
     latency.

(** [Math.round(x)]: the nearest integer, a tie going up. *)
Definition round (x : Q) : Z := Qfloor (x + (1 # 2)).

(** The getter [averageLatency]. *)
Definition averageLatency (m : t) : Z :=
  match latencyMeasurements m with
  | [] => 0
  | l =>
      round (inject_Z (fold_left Z.add l 0)
             / inject_Z (Z.of_nat (length l)))
  end.

(** [getConnectionDuration()]: [!this.connectedAt] also holds for the
    timestamp 0, and [??] replaces [null] only. *)
Definition getConnectionDuration (now : Z) (m : t) : option Z :=
  match connectedAt m with
  | None => None
  | Some c =>
      if c =? 0 then None
      else Some (default now (disconnectedAt m) - c)
  end.

End ConnectionMetrics.

(** ** The browser: WebSocket objects *)

Module WebSocket.

Inductive ReadyState : Type := Connecting | Open | Closing | Closed.

#[global] Instance ReadyState_eq_dec : EqDecision ReadyState.
Proof. solve_decision. Defined.

(** [new WebSocket(url)]: the new object is the next entry of the list of
    all sockets constructed so far; a socket is named by its index. *)
Definition create (ss : list ReadyState) : nat * list ReadyState :=
  (length ss, ss ++ [Connecting]).

(** [socket.close(code, reason)]: starts the closing handshake of a socket
    that is connecting or open, and does nothing otherwise.  With the code
    1000 and a reason of a few bytes, as the service calls it, it does not
    throw. *)
Definition close (sid : nat) (ss : list ReadyState) : list ReadyState :=
  match ss !! sid with
  | Some Connecting | Some Open => <[sid := Closing]> ss
  | _ => ss
  end.

(** [socket.send(data)]: throws on a socket that is still connecting,
    transmits on an open one, and discards the data otherwise. *)
Inductive SendEffect : Type := SendThrows | Transmitted | Discarded.

Definition send (sid : nat) (ss : list ReadyState) : SendEffect :=
  match ss !! sid with
  | Some Connecting => SendThrows
  | Some Open => Transmitted
  | _ => Discarded
  end.

End WebSocket.

(** ** Types of the service (types.ts) *)

Inductive WebSocketState : Type :=
| CONNECTING | CONNECTED | CLOSING | CLOSED | RECONNECTING.

Inductive DisconnectReason : Type :=
| MANUAL | NETWORK_ERROR | SERVER_CLOSED | TIMEOUT | MAX_RETRIES_EXCEEDED
| UNKNOWN.

#[global] Instance WebSocketState_eq_dec : EqDecision WebSocketState.
Proof. solve_decision. Defined.

#[global] Instance DisconnectReason_eq_dec : EqDecision DisconnectReason.
Proof. solve_decision. Defined.

(** A command with the result of [JSON.stringify] on it: [None] when
    serialisation throws. *)
Record ClientToServerCommand : Type := mkCommand {
  action : string;
  stringified : option string
}.

Definition serializeClientCommand (c : ClientToServerCommand) : Outcome string :=
  match stringified c with
  | Some s => Returned s
  | None => Threw "Converting circular structure to JSON"
  end.

(** Callbacks of the caller ([onSuccess], [onError]) are named by numbers. *)
Definition UserCallback : Type := nat.

Record SendOptions : Type := mkOptions {
  queue : option bool;
  onSuccess : option UserCallback;
  onError : option UserCallback
}.

Record SendResult : Type := mkResult {
  success : bool;
  queued : bool;
  error : option string;
  timestamp : Z
}.

(** The value [JSON.parse] returns for an inbound frame, as far as
    [handleMessage] looks at it: an object with a field [type], or anything
    else. *)
Inductive ParsedData : Type :=
| ObjectWithType (type : string)
| OtherData.

Record MessageEvent : Type := mkMessageEvent {
  data : string;
  parsed : option ParsedData      (* [None]: [JSON.parse] throws *)
}.

Record CloseEvent : Type := mkCloseEvent {
  code : Z;
  reason : string
}.

(** [emit(event, data)], one constructor per member of [WebSocketEvent]. *)
Inductive Event : Type :=
| EvConnected (timestamp attempts : Z)
| EvDisconnected (reason : DisconnectReason) (code : Z) (reasonText : string)
    (wasAuthenticated : bool) (timestamp : Z)
| EvMessage (data : ParsedData) (raw : string) (timestamp : Z)
| EvError (type message : string) (timestamp : Z)
| EvReconnectAttempt (attempt maxAttempts delay timestamp : Z)
| EvStateChange (previousState currentState : WebSocketState) (timestamp : Z)
| EvMessageSent (command : ClientToServerCommand) (serialized : string)
    (timestamp : Z)
| EvAuthChange (isAuthenticated : bool) (timestamp : Z).

(** A call of a callback of the caller. *)
Inductive UserCall : Type :=
| CalledOnSuccess (f : UserCallback)
| CalledOnError (f : UserCallback) (message : string).

(** The arrow functions the service hands to its heartbeat and to its
    reconnection manager. *)
Inductive Closure : Type :=
| SendPingFn | OnHeartbeatTimeoutFn | OnPongFn
| ReconnectFn | OnAttemptFn | OnMaxAttemptsReachedFn.

(** ** WebSocketService *)

Module WebSocketService.

Record Config : Type := mkConfig {
  urlValid : bool;                 (* [new WebSocket(url)] accepts the url *)
  maxReconnectAttempts : Z;
  reconnectDelay : Z;
  maxReconnectDelay : Z;
  reconnectDelayMultiplier : Q;
  connectionTimeout : Z;
  heartbeatInterval : Z;
  heartbeatTimeout : Z;
  autoReconnect : bool;
  maxQueueSize : Z
}.

Definition DEFAULT_CONFIG : Config :=
  {| urlValid := true; maxReconnectAttempts := 10; reconnectDelay := 1000;
     maxReconnectDelay := 30000; reconnectDelayMultiplier := 3 # 2;
     connectionTimeout := 10000; heartbeatInterval := 0;
     heartbeatTimeout := 10000; autoReconnect := true; maxQueueSize := 100 |}.

(** The fields of the class, then the browser state it acts on, then what
    the outside observes of it: the events emitted, the callbacks of the
    caller that were called, the frames transmitted, and the calls of
    [socket.close(code, reason)]. *)
Record t : Type := mk {
  config : Config;
  socket : option nat;
  state : WebSocketState;
  isAuthenticated : bool;
  messageQueue : MessageQueue.t ClientToServerCommand UserCallback;
  metrics : ConnectionMetrics.t;
  heartbeat : HeartbeatManager.t Closure;
  reconnection : ReconnectionManager.t Closure;
  connectionTimeoutId : option nat;
  isManualDisconnect : bool;
  isDestroyed : bool;
  window : Window.t;
  sockets : list WebSocket.ReadyState;
  emitted : list Event;
  called : list UserCall;
  frames : list (nat * string);
  closeCalls : list (nat * Z * DisconnectReason)
}.

Definition new (c : Config) : t :=
  {| config := c; socket := None; state := CLOSED; isAuthenticated := false;
     messageQueue := MessageQueue.new (MessageQueue.mkConfig (maxQueueSize c));
     metrics := ConnectionMetrics.new;
     heartbeat :=
       HeartbeatManager.new
         (HeartbeatManager.mkConfig (heartbeatInterval c) (heartbeatTimeout c));
     reconnection :=
       ReconnectionManager.new
         (ReconnectionManager.mkConfig (maxReconnectAttempts c)
            (reconnectDelay c) (maxReconnectDelay c)
            (reconnectDelayMultiplier c));
     connectionTimeoutId := None; isManualDisconnect := false;
     isDestroyed := false; window := Window.empty; sockets := [];
     emitted := []; called := []; frames := []; closeCalls := [] |}.

(** *** Field updates *)

Definition set_socket v s :=
  mk (config s) v (state s) (isAuthenticated s) (messageQueue s) (metrics s)
     (heartbeat s) (reconnection s) (connectionTimeoutId s)
     (isManualDisconnect s) (isDestroyed s) (window s) (sockets s)
     (emitted s) (called s) (frames s) (closeCalls s).
Definition set_state v s :=
  mk (config s) (socket s) v (isAuthenticated s) (messageQueue s) (metrics s)
     (heartbeat s) (reconnection s) (connectionTimeoutId s)
     (isManualDisconnect s) (isDestroyed s) (window s) (sockets s)
     (emitted s) (called s) (frames s) (closeCalls s).
Definition set_isAuthenticated v s :=
  mk (config s) (socket s) (state s) v (messageQueue s) (metrics s)
     (heartbeat s) (reconnection s) (connectionTimeoutId s)
     (isManualDisconnect s) (isDestroyed s) (window s) (sockets s)
     (emitted s) (called s) (frames s) (closeCalls s).
Definition set_messageQueue v s :=
  mk (config s) (socket s) (state s) (isAuthenticated s) v (metrics s)
     (heartbeat s) (reconnection s) (connectionTimeoutId s)
     (isManualDisconnect s) (isDestroyed s) (window s) (sockets s)
     (emitted s) (called s) (frames s) (closeCalls s).
Definition set_metrics v s :=
  mk (config s) (socket s) (state s) (isAuthenticated s) (messageQueue s) v
     (heartbeat s) (reconnection s) (connectionTimeoutId s)
     (isManualDisconnect s) (isDestroyed s) (window s) (sockets s)
     (emitted s) (called s) (frames s) (closeCalls s).
Definition set_heartbeat v s :=
  mk (config s) (socket s) (state s) (isAuthenticated s) (messageQueue s)
     (metrics s) v (reconnection s) (connectionTimeoutId s)
     (isManualDisconnect s) (isDestroyed s) (window s) (sockets s)
     (emitted s) (called s) (frames s) (closeCalls s).
Definition set_reconnection v s :=
  mk (config s) (socket s) (state s) (isAuthenticated s) (messageQueue s)
     (metrics s) (heartbeat s) v (connectionTimeoutId s)
     (isManualDisconnect s) (isDestroyed s) (window s) (sockets s)
     (emitted s) (called s) (frames s) (closeCalls s).
Definition set_connectionTimeoutId v s :=
  mk (config s) (socket s) (state s) (isAuthenticated s) (messageQueue s)
     (metrics s) (heartbeat s) (reconnection s) v
     (isManualDisconnect s) (isDestroyed s) (window s) (sockets s)
     (emitted s) (called s) (frames s) (closeCalls s).
Definition set_isManualDisconnect v s :=
  mk (config s) (socket s) (state s) (isAuthenticated s) (messageQueue s)
     (metrics s) (heartbeat s) (reconnection s) (connectionTimeoutId s)
     v (isDestroyed s) (window s) (sockets s)
     (emitted s) (called s) (frames s) (closeCalls s).
Definition set_isDestroyed v s :=
  mk (config s) (socket s) (state s) (isAuthenticated s) (messageQueue s)
     (metrics s) (heartbeat s) (reconnection s) (connectionTimeoutId s)
     (isManualDisconnect s) v (window s) (sockets s)
     (emitted s) (called s) (frames s) (closeCalls s).
Definition set_window v s :=
  mk (config s) (socket s) (state s) (isAuthenticated s) (messageQueue s)
     (metrics s) (heartbeat s) (reconnection s) (connectionTimeoutId s)
     (isManualDisconnect s) (isDestroyed s) v (sockets s)
     (emitted s) (called s) (frames s) (closeCalls s).
Definition set_sockets v s :=
  mk (config s) (socket s) (state s) (isAuthenticated s) (messageQueue s)
     (metrics s) (heartbeat s) (reconnection s) (connectionTimeoutId s)
     (isManualDisconnect s) (isDestroyed s) (window s) v
     (emitted s) (called s) (frames s) (closeCalls s).
Definition set_emitted v s :=
  mk (config s) (socket s) (state s) (isAuthenticated s) (messageQueue s)
     (metrics s) (heartbeat s) (reconnection s) (connectionTimeoutId s)
     (isManualDisconnect s) (isDestroyed s) (window s) (sockets s)
     v (called s) (frames s) (closeCalls s).
Definition set_called v s :=
  mk (config s) (socket s) (state s) (isAuthenticated s) (messageQueue s)
     (metrics s) (heartbeat s) (reconnection s) (connectionTimeoutId s)
     (isManualDisconnect s) (isDestroyed s) (window s) (sockets s)
     (emitted s) v (frames s) (closeCalls s).
Definition set_frames v s :=
  mk (config s) (socket s) (state s) (isAuthenticated s) (messageQueue s)
     (metrics s) (heartbeat s) (reconnection s) (connectionTimeoutId s)
     (isManualDisconnect s) (isDestroyed s) (window s) (sockets s)
     (emitted s) (called s) v (closeCalls s).
Definition set_closeCalls v s :=
  mk (config s) (socket s) (state s) (isAuthenticated s) (messageQueue s)
     (metrics s) (heartbeat s) (reconnection s) (connectionTimeoutId s)
     (isManualDisconnect s) (isDestroyed s) (window s) (sockets s)
     (emitted s) (called s) (frames s) v.

(** *** Utilities *)

(** [emit(event, data)] calls the listeners registered for the event, each
    inside a [try]; the trace records the call of [emit] itself, which is
    what every registered listener observes.  The map of listeners ([on],
    [off], [once]) is not part of the state. *)
Definition emit (e : Event) (s : t) : t := set_emitted (emitted s ++ [e]) s.

Definition callUser (c : UserCall) (s : t) : t :=
  set_called (called s ++ [c]) s.

Definition setState (now : Z) (newState : WebSocketState) (s : t) : t :=
  if decide (state s = newState) then s
  else emit (EvStateChange (state s) newState now) (set_state newState s).

(** [if (this.connectionTimeoutId)]: a handle that is [null] or [0] is
    falsy. *)
Definition clearConnectionTimeout (s : t) : t :=
  match connectionTimeoutId s with
  | Some id =>
      if (id =? 0)%nat then s
      else set_connectionTimeoutId None
             (set_window (Window.clearTimeout id (window s)) s)
  | None => s
  end.

Definition getState (s : t) : WebSocketState := state s.
Definition isConnected (s : t) : bool := bool_decide (state s = CONNECTED).
Definition isAuth (s : t) : bool := isAuthenticated s.

Definition stopHeartbeat (s : t) : t :=
  let '(h, w) := HeartbeatManager.stop (heartbeat s) (window s) in
  set_window w (set_heartbeat h s).

Definition recordError (s : t) : t :=
  set_metrics (ConnectionMetrics.recordError (metrics s)) s.

(** *** Closing *)

Definition closeConnection (now : Z) (reason : DisconnectReason) (s : t) : t :=
  let s := clearConnectionTimeout s in
  let s := stopHeartbeat s in
  let s :=
    match socket s with
    | Some sid =>
        set_socket None
          (set_closeCalls (closeCalls s ++ [(sid, 1000, reason)])
             (set_sockets (WebSocket.close sid (sockets s)) s))
    | None => s
    end in
  if decide (state s = CLOSED) then s else setState now CLOSED s.

Definition handleConnectionError (now : Z) (reason : DisconnectReason)
    (s : t) : t :=
  closeConnection now reason s.

(** *** Connecting *)

Definition createConnection (now : Z) (s : t) : t :=
  if urlValid (config s) then
    let '(sid, ss) := WebSocket.create (sockets s) in
    let s := set_socket (Some sid) (set_sockets ss s) in
    let '(id, w) :=
      Window.setTimeout Window.ConnectionTimeout
        (connectionTimeout (config s)) (window s) in
    set_connectionTimeoutId (Some id) (set_window w s)
  else
    handleConnectionError now NETWORK_ERROR (recordError s).

Definition connect (now : Z) (s : t) : Outcome t :=
  if isDestroyed s then Threw "WebSocketService has been destroyed"
  else if bool_decide (state s = CONNECTING)
          || bool_decide (state s = CONNECTED) then Returned s
  else
    Returned
      (createConnection now
         (setState now CONNECTING (set_isManualDisconnect false s))).

Definition disconnect (now : Z) (s : t) : t :=
  let s := set_isManualDisconnect true s in
  let '(r, w) := ReconnectionManager.cancel (reconnection s) (window s) in
  let s := set_window w (set_reconnection r s) in
  let s := stopHeartbeat s in
  closeConnection now MANUAL s.

Definition setAuthenticated (now : Z) (b : bool) (s : t) : t :=
  if bool_decide (isAuthenticated s = b) then s
  else emit (EvAuthChange b now) (set_isAuthenticated b s).

Definition clearQueue (s : t) : t :=
  let '(q, _) := MessageQueue.clear false (messageQueue s) in
  set_messageQueue q s.

(** [destroy] also clears the listeners; later calls of [emit] are still
    recorded in the trace. *)
Definition destroy (now : Z) (s : t) : t :=
  clearQueue (disconnect now (set_isDestroyed true s)).

(** *** Messaging *)

Definition notConnectedMessage : string := "Not connected to server".

Definition callOpt (f : option UserCallback) (c : UserCallback -> UserCall)
    (s : t) : t :=
  match f with
  | Some g => callUser (c g) s
  | None => s
  end.

(** The callbacks of dropped messages that [MessageQueue.enqueue] calls. *)
Definition runQueueCalls (calls : list (MessageQueue.Call UserCallback))
    (s : t) : t :=
  fold_left
    (fun s c =>
       match c with
       | MessageQueue.CallOnError f m => callUser (CalledOnError f m) s
       end) calls s.

(** [if (this.socket) { this.socket.send(serialized); }] *)
Definition transmit (serialized : string) (s : t) : Outcome t :=
  match socket s with
  | None => Returned s
  | Some sid =>
      match WebSocket.send sid (sockets s) with
      | WebSocket.SendThrows => Threw "InvalidStateError"
      | WebSocket.Transmitted =>
          Returned (set_frames (frames s ++ [(sid, serialized)]) s)
      | WebSocket.Discarded => Returned s
      end
  end.

(** The [catch] block of [send]. *)
Definition sendFailed (now : Z) (msg : string) (options : SendOptions)
    (s : t) : t * SendResult :=
  let s := recordError s in
  let s :=
    emit (EvError "send" (String.append "Failed to send message: " msg) now) s in
  let s := callOpt (onError options) (fun f => CalledOnError f msg) s in
  (s, mkResult false false (Some msg) now).

Definition send (now : Z) (command : ClientToServerCommand)
    (options : SendOptions) (s : t) : t * SendResult :=
  if negb (bool_decide (state s = CONNECTED)) then
    if negb (bool_decide (queue options = Some false))
       && negb (MessageQueue.isFull (messageQueue s)) then
      let '(q, calls, _) :=
        MessageQueue.enqueue now command (onSuccess options)
          (onError options) (messageQueue s) in
      (runQueueCalls calls (set_messageQueue q s),
       mkResult false true None now)
    else
      (callOpt (onError options)
         (fun f => CalledOnError f notConnectedMessage) s,
       mkResult false false (Some notConnectedMessage) now)
  else
    match serializeClientCommand command with
    | Threw msg => sendFailed now msg options s
    | Returned serialized =>
        match transmit serialized s with
        | Threw msg => sendFailed now msg options s
        | Returned s =>
            let s :=
              set_metrics (ConnectionMetrics.recordMessageSent (metrics s)) s in
            let s := emit (EvMessageSent command serialized now) s in
            let s := callOpt (onSuccess options) CalledOnSuccess s in
            (s, mkResult true false None now)
        end
    end.

Definition flushQueue (now : Z) (s : t) : t :=
  if MessageQueue.isEmpty (messageQueue s) then s
  else
    let '(q, messages) := MessageQueue.flush (messageQueue s) in
    fold_left
      (fun s m =>
         fst (send now (MessageQueue.command m)
                (mkOptions None (MessageQueue.onSuccess m)
                   (MessageQueue.onError m)) s))
      messages (set_messageQueue q s).

(** *** Heartbeat *)

Definition startHeartbeat (s : t) : t :=
  if negb (HeartbeatManager.enabled (heartbeat s)) then s
  else
    let '(h, w) :=
      HeartbeatManager.start SendPingFn OnHeartbeatTimeoutFn (Some OnPongFn)
        (heartbeat s) (window s) in
    set_window w (set_heartbeat h s).

(** [JSON.stringify({ type: "PING" })] *)
Definition quote : string := String (Ascii.ascii_of_nat 34) EmptyString.
Definition pingFrame : string :=
  String.concat quote ["{"; "type"; ":"; "PING"; "}"]%string.

(** What the probe-send closure of [startHeartbeat] returns in state [s];
    the exception of [socket.send] is caught inside the closure. *)
Definition sendPingResult (s : t) : HeartbeatManager.PingResult :=
  if negb (isConnected s) then HeartbeatManager.PingFailed
  else
    match socket s with
    | None => HeartbeatManager.PingFailed
    | Some sid =>
        match WebSocket.send sid (sockets s) with
        | WebSocket.SendThrows => HeartbeatManager.PingFailed
        | _ => HeartbeatManager.PingSent
        end
    end.

(** The bodies of the three closures of [startHeartbeat].  The
    probe-send closure reads the state and the socket of the service, which
    [sendHeartbeat] does not write; its result is [sendPingResult] and its
    effect is the frame it transmits.  The two other closures are the last
    thing their caller does. *)
Definition runHeartbeatCall (now : Z) (s : t)
    (c : HeartbeatManager.Call Closure) : t :=
  match c with
  | HeartbeatManager.CallSendPing SendPingFn =>
      match sendPingResult s, transmit pingFrame s with
      | HeartbeatManager.PingSent, Returned s' => s'
      | _, _ => s
      end
  | HeartbeatManager.CallOnTimeout OnHeartbeatTimeoutFn =>
      handleConnectionError now TIMEOUT s
  | HeartbeatManager.CallOnPong OnPongFn latency =>
      set_metrics (ConnectionMetrics.recordLatency latency (metrics s)) s
  | _ => s
  end.

Definition heartbeatTick (now : Z) (s : t) : t :=
  let '(h, w, calls) :=
    HeartbeatManager.sendHeartbeat now (sendPingResult s)
      (heartbeat s) (window s) in
  fold_left (runHeartbeatCall now) calls (set_window w (set_heartbeat h s)).

Definition heartbeatTimeoutFires (now : Z) (s : t) : t :=
  let '(h, calls) := HeartbeatManager.handleHeartbeatTimeout (heartbeat s) in
  fold_left (runHeartbeatCall now) calls (set_heartbeat h s).

Definition handlePong (now : Z) (s : t) : t :=
  let '(h, w, calls) :=
    HeartbeatManager.handlePong now (heartbeat s) (window s) in
  fold_left (runHeartbeatCall now) calls (set_window w (set_heartbeat h s)).

(** *** Reconnection *)

(** The bodies of the three closures of [scheduleReconnect].  An exception
    of [connect] leaves the timer callback; the state stays as it was.
    The closures are run on the state that the method of the manager
    returns: [onAttempt] writes the metrics and the trace only, which
    [schedule] neither reads nor writes, and the two other closures are the
    last thing their caller does. *)
Definition runReconnectionCall (now : Z) (s : t)
    (c : ReconnectionManager.Call Closure) : t :=
  match c with
  | ReconnectionManager.CallReconnect ReconnectFn =>
      match connect now s with
      | Returned s' => s'
      | Threw _ => s
      end
  | ReconnectionManager.CallOnAttempt OnAttemptFn attempt maxAttempts delay =>
      emit (EvReconnectAttempt attempt maxAttempts delay now)
        (set_metrics (ConnectionMetrics.recordReconnectAttempt (metrics s)) s)
  | ReconnectionManager.CallOnMaxAttemptsReached OnMaxAttemptsReachedFn =>
      emit (EvError "connection" "Maximum reconnection attempts exceeded" now) s
  | _ => s
  end.

Definition scheduleReconnect (now : Z) (s : t) : t :=
  let s := setState now RECONNECTING s in
  let '(r, w, calls) :=
    ReconnectionManager.schedule ReconnectFn (Some OnAttemptFn)
      (Some OnMaxAttemptsReachedFn) (reconnection s) (window s) in
  fold_left (runReconnectionCall now) calls
    (set_window w (set_reconnection r s)).

Definition reconnectTimerFires (now : Z) (s : t) : t :=
  let '(r, calls) := ReconnectionManager.executeReconnect (reconnection s) in
  fold_left (runReconnectionCall now) calls (set_reconnection r s).

(** *** Handlers of the socket *)

Definition handleOpen (now : Z) (s : t) : t :=
  let s := clearConnectionTimeout s in
  let s := setState now CONNECTED s in
  let s := set_metrics (ConnectionMetrics.recordConnect now (metrics s)) s in
  let s :=
    if ReconnectionManager.attemptCount (reconnection s) >? 0
    then set_metrics (ConnectionMetrics.recordReconnectSuccess (metrics s)) s
    else s in
  let attempts := ReconnectionManager.attemptCount (reconnection s) in
  let '(r, w) := ReconnectionManager.reset (reconnection s) (window s) in
  let s := set_window w (set_reconnection r s) in
  let s := emit (EvConnected now attempts) s in
  let s := startHeartbeat s in
  flushQueue now s.

Definition handleMessage (now : Z) (event : MessageEvent) (s : t) : t :=
  let s :=
    set_metrics (ConnectionMetrics.recordMessageReceived (metrics s)) s in
  match parsed event with
  | None =>
      emit (EvError "parse"
              (String.append "Failed to parse message: " "SyntaxError") now)
        (recordError s)
  | Some (ObjectWithType ty) =>
      if String.eqb ty "PONG" then handlePong now s
      else emit (EvMessage (ObjectWithType ty) (data event) now) s
  | Some OtherData => emit (EvMessage OtherData (data event) now) s
  end.

Definition handleError (s : t) : t := s.

(** The reason [handleClose] derives from the flag and the close code. *)
Definition closeReason (manual : bool) (c : Z) : DisconnectReason :=
  if manual then MANUAL
  else if c =? 1006 then NETWORK_ERROR
  else if (c >=? 1000) && (c <? 1004) then SERVER_CLOSED
  else UNKNOWN.

Definition handleClose (now : Z) (event : CloseEvent) (s : t) : t :=
  let s := clearConnectionTimeout s in
  let s := stopHeartbeat s in
  let s := set_metrics (ConnectionMetrics.recordDisconnect now (metrics s)) s in
  let wasAuthenticated := isAuthenticated s in
  let s := set_isAuthenticated false s in
  let reason' := closeReason (isManualDisconnect s) (code event) in
  let s := setState now CLOSED s in
  let s :=
    emit (EvDisconnected reason' (code event) (reason event)
            wasAuthenticated now) s in
  if negb (isManualDisconnect s) && autoReconnect (config s)
  then scheduleReconnect now s
  else s.

(** The body of the timer armed by [createConnection]. *)
Definition connectionTimeoutFires (now : Z) (s : t) : t :=
  if bool_decide (state s = CONNECTING)
  then handleConnectionError now TIMEOUT s
  else s.

End WebSocketService.

(** ** Executions

    What can happen to a service: a call of a public method, a pending
    timer that fires, or an event of one of the sockets it constructed.
    [createConnection] binds the four handlers to every socket it
    constructs and nothing unbinds them, so the events of a socket that the
    service no longer refers to still reach the handlers. *)

Module Execution.
Import WebSocketService.

Inductive Input : Type :=
| Connect
| Disconnect
| Send (command : ClientToServerCommand) (options : SendOptions)
| SetAuthenticated (b : bool)
| ClearQueue
| Destroy
| TimerFires (id : nat)
| SocketOpens (sid : nat)
| SocketMessage (sid : nat) (event : MessageEvent)
| SocketError (sid : nat)
| SocketCloses (sid : nat) (event : CloseEvent).

Definition timerBody (now : Z) (tk : Window.Handler) (s : t) : t :=
  match tk with
  | Window.ConnectionTimeout => connectionTimeoutFires now s
  | Window.HeartbeatInterval => heartbeatTick now s
  | Window.HeartbeatTimeout => heartbeatTimeoutFires now s
  | Window.ReconnectDelay => reconnectTimerFires now s
  end.

(** One input at time [now]; [None] when the browser cannot deliver it
    (no such pending timer, or a socket that is not in a state to raise
    the event).  A [connect] that throws leaves the service as it was. *)
Definition step (now : Z) (i : Input) (s : t) : option t :=
  match i with
  | Connect =>
      match connect now s with
      | Returned s' => Some s'
      | Threw _ => Some s
      end
  | Disconnect => Some (disconnect now s)
  | Send c o => Some (fst (send now c o s))
  | SetAuthenticated b => Some (setAuthenticated now b s)
  | ClearQueue => Some (clearQueue s)
  | Destroy => Some (destroy now s)
  | TimerFires id =>
      match Window.fire id (window s) with
      | Some (tm, w) => Some (timerBody now (Window.handler tm) (set_window w s))
      | None => None
      end
  | SocketOpens sid =>
      match sockets s !! sid with
      | Some WebSocket.Connecting =>
          Some (handleOpen now
                  (set_sockets (<[sid := WebSocket.Open]> (sockets s)) s))
      | _ => None
      end
  | SocketMessage sid ev =>
      match sockets s !! sid with
      | Some WebSocket.Open => Some (handleMessage now ev s)
      | _ => None
      end
  | SocketError sid =>
      match sockets s !! sid with
      | Some WebSocket.Closed | None => None
      | Some _ => Some (handleError s)
      end
  | SocketCloses sid ev =>
      match sockets s !! sid with
      | Some WebSocket.Closed | None => None
      | Some _ =>
          Some (handleClose now ev
                  (set_sockets (<[sid := WebSocket.Closed]> (sockets s)) s))
      end
  end.

(** A sequence of inputs, each with the time at which it happens. *)
Fixpoint run (inputs : list (Z * Input)) (s : t) : option t :=
  match inputs with
  | [] => Some s
  | (now, i) :: rest =>
      match step now i s with
      | Some s' => run rest s'
      | None => None
      end
  end.

Definition reachable (c : Config) (s : t) : Prop :=
  exists inputs, run inputs (new c) = Some s.

End Execution.


(** ** The listeners of the service: [on], [off], [once] and [emit]

    The field [listeners] of the service is a [Map] from the name of an
    event to the [Set] of the functions registered for it.  A [Set]
    keeps its elements in insertion order, and [forEach] visits them in
    that order, leaving out an element that was deleted before its turn.
    The functions of the caller are named by numbers.  A listener that
    calls back into the service while it runs is outside the model. *)

Module WebSocketEvent.

Inductive t : Type :=
| CONNECTED | DISCONNECTED | MESSAGE | ERROR | RECONNECT_ATTEMPT
| STATE_CHANGE | MESSAGE_SENT | AUTH_CHANGE.

#[global] Instance eq_dec : EqDecision t.
Proof. solve_decision. Defined.

Definition code (e : t) : nat :=
  match e with
  | CONNECTED => 0 | DISCONNECTED => 1 | MESSAGE => 2 | ERROR => 3
  | RECONNECT_ATTEMPT => 4 | STATE_CHANGE => 5 | MESSAGE_SENT => 6
  | AUTH_CHANGE => 7
  end.

Definition decode (n : nat) : t :=
  match n with
  | 0 => CONNECTED | 1 => DISCONNECTED | 2 => MESSAGE | 3 => ERROR
  | 4 => RECONNECT_ATTEMPT | 5 => STATE_CHANGE | 6 => MESSAGE_SENT
  | _ => AUTH_CHANGE
  end%nat.

#[global] Instance countable : Countable t.
Proof. apply (inj_countable' code decode). now intros []. Defined.

(** The name under which the service emits an event. *)
Definition nameOf (e : Event) : t :=
  match e with
  | EvConnected _ _ => CONNECTED
  | EvDisconnected _ _ _ _ _ => DISCONNECTED
  | EvMessage _ _ _ => MESSAGE
  | EvError _ _ _ => ERROR
  | EvReconnectAttempt _ _ _ _ => RECONNECT_ATTEMPT
  | EvStateChange _ _ _ => STATE_CHANGE
  | EvMessageSent _ _ _ => MESSAGE_SENT
  | EvAuthChange _ _ => AUTH_CHANGE
  end.

End WebSocketEvent.

Module Listeners.

(** A function in a set of listeners: one that the caller handed to [on],
    or the wrapper that the [k]-th call of [once] created around a
    function of the caller. *)
Inductive Listener : Type :=
| Given (f : nat)
| OnceWrapper (k : nat) (f : nat).

#[global] Instance Listener_eq_dec : EqDecision Listener.
Proof. solve_decision. Defined.

(** The function of the caller that a listener calls. *)
Definition target (l : Listener) : nat :=
  match l with
  | Given f => f
  | OnceWrapper _ f => f
  end.

Record t : Type := mk {
  listeners : gmap WebSocketEvent.t (list Listener);
  wrappers : nat          (* the number of wrappers created so far *)
}.

Definition new : t := {| listeners := ∅; wrappers := 0 |}.

(** [Set.prototype.add] and [Set.prototype.delete]. *)
Definition add (l : Listener) (ls : list Listener) : list Listener :=
  if decide (l ∈ ls) then ls else ls ++ [l].

Definition delete (l : Listener) (ls : list Listener) : list Listener :=
  filter (fun x => x <> l) ls.

(** The body of [on], for any function. *)
Definition register (event : WebSocketEvent.t) (l : Listener) (r : t) : t :=
  let m :=
    match listeners r !! event with
    | None => <[event := []]> (listeners r)
    | Some _ => listeners r
    end in
  match m !! event with
  | Some eventListeners =>
      {| listeners := <[event := add l eventListeners]> m;
         wrappers := wrappers r |}
  | None => {| listeners := m; wrappers := wrappers r |}
  end.

(** The body of [off], for any function. *)
Definition unregister (event : WebSocketEvent.t) (l : Listener) (r : t) : t :=
  match listeners r !! event with
  | Some ls =>
      {| listeners := <[event := delete l ls]> (listeners r);
         wrappers := wrappers r |}
  | None => r
  end.

Definition on (event : WebSocketEvent.t) (listener : nat) (r : t) : t :=
  register event (Given listener) r.

Definition off (event : WebSocketEvent.t) (listener : nat) (r : t) : t :=
  unregister event (Given listener) r.

Definition once (event : WebSocketEvent.t) (listener : nat) (r : t) : t :=
  register event (OnceWrapper (wrappers r) listener)
    {| listeners := listeners r; wrappers := S (wrappers r) |}.

(** [this.listeners.clear()] in [destroy]. *)
Definition clear (r : t) : t := {| listeners := ∅; wrappers := wrappers r |}.

(** A call of a function of the caller with the data of an event. *)
Inductive Call : Type := Called (f : nat) (data : Event).

Section Emit.

(** Whether a function of the caller throws when it is called with the
    data of an event. *)
Variable throws : nat -> Event -> bool.

(** One listener called by [emit], inside its [try].  A wrapper calls the
    function of the caller and then [off] on itself; when the function
    throws, the exception leaves the wrapper before [off]. *)
Definition invoke (event : WebSocketEvent.t) (data : Event) (l : Listener)
    (r : t) : t * list Call :=
  match l with
  | Given f => (r, [Called f data])
  | OnceWrapper k f =>
      (if throws f data then r else unregister event l r, [Called f data])
  end.

Definition present (event : WebSocketEvent.t) (l : Listener) (r : t) : bool :=
  match listeners r !! event with
  | Some ls => bool_decide (l ∈ ls)
  | None => false
  end.

Definition emit (event : WebSocketEvent.t) (data : Event) (r : t)
    : t * list Call :=
  match listeners r !! event with
  | Some ls =>
      fold_left
        (fun acc l =>
           if present event l acc.1 then
             let '(r', calls) := invoke event data l acc.1 in
             (r', acc.2 ++ calls)
           else acc)
        ls (r, [])
  | None => (r, [])
  end.

End Emit.

End Listeners.
(** * Observations and scenarios *)

(** The queue [A; B] of capacity 2, as two calls of [enqueue] build it; the
    callbacks of A are 10 and 11, those of B are 20 and 21. *)
Definition queueAB : MessageQueue.t string nat :=
  (MessageQueue.enqueue 2 "B"%string (Some 20%nat) (Some 21%nat)
     (MessageQueue.enqueue 1 "A"%string (Some 10%nat) (Some 11%nat)
        (MessageQueue.new (MessageQueue.mkConfig 2))).1.1).1.1.


(** ** Reading the trace of emitted events *)

(** The [state_change] event of a call of [setState]: none when the state
    is set to the value it has. *)
Definition stateChange (now : Z) (from to : WebSocketState) : list Event :=
  if decide (from = to) then [] else [EvStateChange from to now].

(** The event of [scheduleReconnect] after its state change: the
    announcement of the attempt, or the error at the limit. *)
Definition reconnectEvents (now : Z) (r : ReconnectionManager.t Closure)
    : list Event :=
  if ReconnectionManager.attempts r
     >=? ReconnectionManager.maxAttempts (ReconnectionManager.config r)
  then [EvError "connection" "Maximum reconnection attempts exceeded" now]
  else [EvReconnectAttempt (ReconnectionManager.attempts r + 1)
          (ReconnectionManager.maxAttempts (ReconnectionManager.config r))
          (Z.min (ReconnectionManager.currentDelay r)
             (ReconnectionManager.maxDelay (ReconnectionManager.config r)))
          now].

(** The state that a listener reconstructs from the [state_change] events
    of a trace, starting from [st]: every such event must start at the
    state reached so far and lead to a different one. *)
Fixpoint follow (st : WebSocketState) (evs : list Event)
    : option WebSocketState :=
  match evs with
  | [] => Some st
  | EvStateChange p c _ :: rest =>
      if bool_decide (p = st) && negb (bool_decide (c = st))
      then follow c rest
      else None
  | _ :: rest => follow st rest
  end.

Definition isStateChange (e : Event) : bool :=
  match e with EvStateChange _ _ _ => true | _ => false end.

Definition isAuthChange (e : Event) : bool :=
  match e with EvAuthChange _ _ => true | _ => false end.

Definition isDisconnected (e : Event) : bool :=
  match e with EvDisconnected _ _ _ _ _ => true | _ => false end.

(** A [disconnected] event that carries the reason TIMEOUT. *)
Definition isTimeoutDisconnect (e : Event) : bool :=
  match e with EvDisconnected TIMEOUT _ _ _ _ => true | _ => false end.

(** The transition that a [state_change] event reports. *)
Definition reportsTransition (from to : WebSocketState) (e : Event) : bool :=
  match e with
  | EvStateChange p c _ => bool_decide (p = from) && bool_decide (c = to)
  | _ => false
  end.

(** [s'] continues [s]: its trace is the trace of [s] followed by events
    among which the [state_change] events lead from the state of [s] to
    the state of [s'], and none is a [disconnected] event with the reason
    TIMEOUT. *)
Definition extends (s s' : WebSocketService.t) : Prop :=
  exists evs,
    WebSocketService.emitted s' = WebSocketService.emitted s ++ evs
    /\ follow (WebSocketService.state s) evs = Some (WebSocketService.state s')
    /\ Forall (fun e => isTimeoutDisconnect e = false) evs.

(** ** Scenarios *)

Module Scenario.
Import Execution.

(** The connection is refused or lost: close code 1006. *)
Definition abnormal : CloseEvent := mkCloseEvent 1006 "".

(** The closing handshake that [socket.close(1000, "TIMEOUT")] starts has
    completed: the peer echoes the code and the reason. *)
Definition echoed : CloseEvent := mkCloseEvent 1000 "TIMEOUT".

(** The connect timeout (timer 1, 10 s) fires while socket 0 is still
    connecting; the close event of the socket follows. *)
Definition connectTimeout : list (Z * Input) :=
  [(0, Connect); (10000, TimerFires 1); (10005, SocketCloses 0 abnormal)].

(** Heartbeat every 30 s with a timeout of 10 s. *)
Definition heartbeatConfig : WebSocketService.Config :=
  WebSocketService.mkConfig true 10 1000 30000 (3 # 2) 10000 30000 10000
    true 100.

(** The connection opens, the first probe (interval timer 2) is sent and
    not acknowledged, its timeout (timer 3) fires; the close event of the
    socket follows. *)
Definition heartbeatTimeout : list (Z * Input) :=
  [(0, Connect); (50, SocketOpens 0); (30050, TimerFires 2);
   (40050, TimerFires 3); (40060, SocketCloses 0 echoed)].

(** The scenario of the specification: at most 3 attempts, delays from
    100 ms doubled up to 1000 ms. *)
Definition threeAttempts : WebSocketService.Config :=
  WebSocketService.mkConfig true 3 100 1000 (2 # 1) 10000 0 10000 true 100.

(** Four connections in a row fail; the timers 2, 4 and 6 are the three
    reconnection delays. *)
Definition fourFailures : list (Z * Input) :=
  [(0, Connect); (10, SocketCloses 0 abnormal);
   (110, TimerFires 2); (120, SocketCloses 1 abnormal);
   (320, TimerFires 4); (330, SocketCloses 2 abnormal);
   (730, TimerFires 6); (740, SocketCloses 3 abnormal)].

(** A heartbeat every second with a timeout of 5 s. *)
Definition frequentHeartbeat : WebSocketService.Config :=
  WebSocketService.mkConfig true 10 1000 30000 (3 # 2) 10000 1000 5000
    true 100.

Definition pong : MessageEvent :=
  mkMessageEvent "PONG" (Some (ObjectWithType "PONG")).

(** The connection opens; two probes are sent (interval timer 2), one
    second apart; the acknowledgment arrives after the second one; then
    the timeout of the first probe (timer 3) fires. *)
Definition lateAcknowledgment : list (Z * Input) :=
  [(0, Connect); (10, SocketOpens 0); (1010, TimerFires 2);
   (2010, TimerFires 2); (2500, SocketMessage 0 pong);
   (6010, TimerFires 3)].

(** The default configuration without automatic reconnection. *)
Definition noAutoReconnect : WebSocketService.Config :=
  WebSocketService.mkConfig true 10 1000 30000 (3 # 2) 10000 0 10000
    false 100.

(** [disconnect()] and [connect()] one after the other while socket 0 is
    connecting; the close event of socket 0 arrives when socket 1 is
    already connecting, then socket 1 opens. *)
Definition staleClose : list (Z * Input) :=
  [(0, Connect); (20, Disconnect); (20, Connect);
   (25, SocketCloses 0 abnormal); (60, SocketOpens 1)].

End Scenario.

(** The same heartbeat on its own, with the callbacks 1, 2 and 3: two
    probes at the times 1000 and 2000, the acknowledgment at 2500. *)
Module TwoProbes.

Definition started : HeartbeatManager.t nat * Window.t :=
  HeartbeatManager.start 1%nat 2%nat (Some 3%nat)
    (HeartbeatManager.new (HeartbeatManager.mkConfig 1000 5000))
    Window.empty.

Definition first
    : HeartbeatManager.t nat * Window.t * list (HeartbeatManager.Call nat) :=
  HeartbeatManager.sendHeartbeat 1000 HeartbeatManager.PingSent
    started.1 started.2.

Definition second
    : HeartbeatManager.t nat * Window.t * list (HeartbeatManager.Call nat) :=
  HeartbeatManager.sendHeartbeat 2000 HeartbeatManager.PingSent
    first.1.1 first.1.2.

Definition acknowledged
    : HeartbeatManager.t nat * Window.t * list (HeartbeatManager.Call nat) :=
  HeartbeatManager.handlePong 2500 second.1.1 second.1.2.

End TwoProbes.

(** The state of a service after the inputs of a scenario; the fresh
    service when the browser cannot deliver them. *)
Definition after (c : WebSocketService.Config)
    (inputs : list (Z * Execution.Input)) : WebSocketService.t :=
  match Execution.run inputs (WebSocketService.new c) with
  | Some s => s
  | None => WebSocketService.new c
  end.

(** ** Sequences of operations on the components *)

(** The last [n] elements of a list. *)
Definition lastN {A : Type} (n : nat) (l : list A) : list A :=
  drop (length l - n) l.

Module QueueOps.
Section WithCommands.

Context {Command CB : Type}.

(** A call of a method of the queue. *)
Inductive Op : Type :=
| Enqueue (now : Z) (c : Command) (onS onE : option CB)
| Dequeue
| Flush
| Clear (notifyErrors : bool)
| Peek.

Definition apply (q : MessageQueue.t Command CB) (o : Op)
    : MessageQueue.t Command CB :=
  match o with
  | Enqueue now c onS onE => (MessageQueue.enqueue now c onS onE q).1.1
  | Dequeue => (MessageQueue.dequeue q).1
  | Flush => (MessageQueue.flush q).1
  | Clear b => (MessageQueue.clear b q).1
  | Peek => q
  end.

Definition run (ops : list Op) (q : MessageQueue.t Command CB)
    : MessageQueue.t Command CB :=
  fold_left apply ops q.

(** The messages of a list enqueued one after the other. *)
Definition enqueueAll
    (ms : list (MessageQueue.QueuedMessage Command CB))
    (q : MessageQueue.t Command CB) : MessageQueue.t Command CB :=
  fold_left
    (fun q m =>
       (MessageQueue.enqueue (MessageQueue.timestamp m)
          (MessageQueue.command m) (MessageQueue.onSuccess m)
          (MessageQueue.onError m) q).1.1) ms q.

(** [while ((m = queue.dequeue()) !== undefined) out.push(m)], with the
    number of iterations bounded by [fuel]. *)
Fixpoint drain (fuel : nat) (q : MessageQueue.t Command CB)
    : list (MessageQueue.QueuedMessage Command CB) * MessageQueue.t Command CB :=
  match fuel with
  | O => ([], q)
  | S fuel' =>
      match MessageQueue.dequeue q with
      | (q', Some m) => let '(ms, q'') := drain fuel' q' in (m :: ms, q'')
      | (q', None) => ([], q')
      end
  end.

End WithCommands.
Arguments Op : clear implicits.
End QueueOps.

Module ReconnectionOps.
Section WithCallbacks.

Context {CB : Type}.

(** A call of a method of the manager, or one of the timers it armed
    firing. *)
Inductive Op : Type :=
| Schedule (f : CB) (a m : option CB)
| Cancel
| Reset
| Fire (id : nat).

Definition apply (rw : ReconnectionManager.t CB * Window.t) (o : Op)
    : ReconnectionManager.t CB * Window.t :=
  let '(r, w) := rw in
  match o with
  | Schedule f a m => (ReconnectionManager.schedule f a m r w).1
  | Cancel => ReconnectionManager.cancel r w
  | Reset => ReconnectionManager.reset r w
  | Fire id =>
      match Window.fire id w with
      | Some (_, w') => ((ReconnectionManager.executeReconnect r).1, w')
      | None => (r, w)
      end
  end.

Definition run (ops : list Op) (rw : ReconnectionManager.t CB * Window.t)
    : ReconnectionManager.t CB * Window.t :=
  fold_left apply ops rw.

End WithCallbacks.
Arguments Op : clear implicits.
End ReconnectionOps.

Module HeartbeatOps.
Section WithCallbacks.

Context {CB : Type}.

(** A call of a method of the heartbeat, or a pending timer of the window
    firing at the time [now]; [res] is what the probe-send function does
    if that timer is the interval of the heartbeat. *)
Inductive Op : Type :=
| Start (ping onT : CB) (onP : option CB)
| Stop
| Pong (now : Z)
| Fire (id : nat) (now : Z) (res : HeartbeatManager.PingResult)
| Update (u : HeartbeatManager.ConfigUpdate).

Definition apply (hw : HeartbeatManager.t CB * Window.t) (o : Op)
    : HeartbeatManager.t CB * Window.t * list (HeartbeatManager.Call CB) :=
  let '(h, w) := hw in
  match o with
  | Start ping onT onP => (HeartbeatManager.start ping onT onP h w, [])
  | Stop => (HeartbeatManager.stop h w, [])
  | Pong now => HeartbeatManager.handlePong now h w
  | Fire id now res =>
      match Window.fire id w with
      | Some (tm, w') =>
          match Window.handler tm with
          | Window.HeartbeatInterval =>
              HeartbeatManager.sendHeartbeat now res h w'
          | Window.HeartbeatTimeout =>
              let '(h', calls) := HeartbeatManager.handleHeartbeatTimeout h in
              (h', w', calls)
          | _ => (h, w', [])
          end
      | None => (h, w, [])
      end
  | Update u => (HeartbeatManager.updateConfig u h, w, [])
  end.

Definition run (ops : list Op) (hw : HeartbeatManager.t CB * Window.t)
    : HeartbeatManager.t CB * Window.t :=
  fold_left (fun hw o => (apply hw o).1) ops hw.

End WithCallbacks.
Arguments Op : clear implicits.
End HeartbeatOps.

(** The timers of a window were all issued by it: the handles not yet
    issued are not pending. *)
Definition issued (w : Window.t) : Prop :=
  forall id, (Window.nextId w <= id)%nat -> Window.pending id w = None.

(** The handle [id] is that of a pending repeating timer that runs the
    tick of a heartbeat. *)
Definition ticking (id : nat) (w : Window.t) : Prop :=
  exists d, Window.pending id w
            = Some (Window.mkTimer Window.HeartbeatInterval d true).

(** No pending timer of the window runs the tick of a heartbeat. *)
Definition noTick (w : Window.t) : Prop :=
  forall id tm, Window.pending id w = Some tm ->
                Window.handler tm <> Window.HeartbeatInterval.

(** The entry that [enqueue] makes of the fields of a message. *)
Definition asEnqueued {Command CB : Type}
    (m : MessageQueue.QueuedMessage Command CB)
    : MessageQueue.QueuedMessage Command CB :=
  MessageQueue.mkMessage (MessageQueue.command m) (MessageQueue.timestamp m) 0
    (MessageQueue.onSuccess m) (MessageQueue.onError m).


(** What every operation keeps of a reconnection manager with the
    configuration [c]. *)
Definition withinBudget {CB : Type} (c : ReconnectionManager.Config)
    (r : ReconnectionManager.t CB) : Prop :=
  ReconnectionManager.config r = c
  /\ 0 <= ReconnectionManager.attempts r
  /\ ReconnectionManager.attempts r
     <= Z.max 0 (ReconnectionManager.maxAttempts c)
  /\ (ReconnectionManager.isScheduled r = true
      <-> ReconnectionManager.timeoutId r <> None).

(** What every operation keeps of a heartbeat and the window it arms its
    timers in. *)
Record tidy {CB : Type} (h : HeartbeatManager.t CB) (w : Window.t)
    : Prop := {
  tidy_issued : issued w;
  tidy_stopped :
    HeartbeatManager.isRunning h = false ->
    HeartbeatManager.sendPing h = None
    /\ HeartbeatManager.onTimeout h = None
    /\ HeartbeatManager.onPong h = None
    /\ HeartbeatManager.intervalId h = None
    /\ HeartbeatManager.timeoutId h = None;
  tidy_running :
    HeartbeatManager.isRunning h = true ->
    HeartbeatManager.sendPing h <> None
    /\ HeartbeatManager.onTimeout h <> None
    /\ exists id, HeartbeatManager.intervalId h = Some id /\ ticking id w;
  tidy_timeout :
    forall id, HeartbeatManager.timeoutId h = Some id ->
      exists d, Window.pending id w
                = Some (Window.mkTimer Window.HeartbeatTimeout d false);
  tidy_single :
    forall id tm, Window.pending id w = Some tm ->
      Window.handler tm = Window.HeartbeatInterval ->
      HeartbeatManager.intervalId h = Some id
}.

(** A heartbeat that is not running holds no callback and no handle. *)
Definition idle {CB : Type} (h : HeartbeatManager.t CB) : Prop :=
  HeartbeatManager.isRunning h = false ->
  HeartbeatManager.sendPing h = None
  /\ HeartbeatManager.onTimeout h = None
  /\ HeartbeatManager.onPong h = None
  /\ HeartbeatManager.intervalId h = None
  /\ HeartbeatManager.timeoutId h = None.

(** The operation is not a call of [start]. *)
Definition notStart {CB : Type} (o : HeartbeatOps.Op CB) : bool :=
  match o with
  | HeartbeatOps.Start _ _ _ => false
  | _ => true
  end.

(** Latencies recorded one after the other. *)
Definition recordLatencies (ls : list Z) (m : ConnectionMetrics.t)
    : ConnectionMetrics.t :=
  fold_left (fun m l => ConnectionMetrics.recordLatency l m) ls m.

(** ** What a handler of the service adds to its traces *)

(** The calls of the optional callbacks of a message. *)
Definition onSuccessCalls (f : option UserCallback) : list UserCall :=
  match f with
  | Some g => [CalledOnSuccess g]
  | None => []
  end.

Definition onErrorCalls (f : option UserCallback) (msg : string)
    : list UserCall :=
  match f with
  | Some g => [CalledOnError g msg]
  | None => []
  end.

(** The exception, if any, that the [try] block of [send] raises for a
    command in a state of the service. *)
Definition sendThrows (command : ClientToServerCommand)
    (s : WebSocketService.t) : option string :=
  match serializeClientCommand command with
  | Threw msg => Some msg
  | Returned serialized =>
      match WebSocketService.transmit serialized s with
      | Threw msg => Some msg
      | Returned _ => None
      end
  end.

(** The frame that an open socket transmits. *)
Definition transmitted (sid : nat) (serialized : string)
    (ss : list WebSocket.ReadyState) : list (nat * string) :=
  match WebSocket.send sid ss with
  | WebSocket.Transmitted => [(sid, serialized)]
  | _ => []
  end.

(** The parsed frame is the acknowledgment of a probe:
    [messageData.type === "PONG"]. *)
Definition isPong (d : ParsedData) : bool :=
  match d with
  | ObjectWithType ty => String.eqb ty "PONG"
  | OtherData => false
  end.

(** What [flushQueue] does with the messages of the queue while the
    service is connected through the open socket [sid]: the frames it
    transmits, the callbacks it calls and the events it emits, message by
    message. *)
Definition flushedFrames (sid : nat)
    (ms : list (MessageQueue.QueuedMessage ClientToServerCommand UserCallback))
    : list (nat * string) :=
  flat_map
    (fun m =>
       match serializeClientCommand (MessageQueue.command m) with
       | Returned serialized => [(sid, serialized)]
       | Threw _ => []
       end) ms.

Definition flushedCalls
    (ms : list (MessageQueue.QueuedMessage ClientToServerCommand UserCallback))
    : list UserCall :=
  flat_map
    (fun m =>
       match serializeClientCommand (MessageQueue.command m) with
       | Returned _ => onSuccessCalls (MessageQueue.onSuccess m)
       | Threw msg => onErrorCalls (MessageQueue.onError m) msg
       end) ms.

Definition flushedEvents (now : Z)
    (ms : list (MessageQueue.QueuedMessage ClientToServerCommand UserCallback))
    : list Event :=
  map
    (fun m =>
       match serializeClientCommand (MessageQueue.command m) with
       | Returned serialized =>
           EvMessageSent (MessageQueue.command m) serialized now
       | Threw msg =>
           EvError "send" (String.append "Failed to send message: " msg) now
       end) ms.

(** The call of [socket.close] that [closeConnection] makes on the socket
    the service refers to. *)
Definition closeCall (reason : DisconnectReason) (socket : option nat)
    : list (nat * Z * DisconnectReason) :=
  match socket with
  | Some sid => [(sid, 1000, reason)]
  | None => []
  end.

(** ** Sample runs of the service *)

Module Sample.
Import Execution.

Definition move : ClientToServerCommand := mkCommand "MOVE" (Some "MOVE-1"%string).
Definition look : ClientToServerCommand := mkCommand "LOOK" (Some "LOOK-2"%string).

(** A command that [JSON.stringify] rejects. *)
Definition cyclic : ClientToServerCommand := mkCommand "LOOP" None.

(** The default configuration: connected through socket 0. *)
Definition connected : WebSocketService.t :=
  after WebSocketService.DEFAULT_CONFIG [(0, Connect); (10, SocketOpens 0)].

(** Three commands are sent before the connection exists; socket 0 is then
    constructed and the browser has opened it, and its [open] event is
    about to be handled. *)
Definition opening : WebSocketService.t :=
  WebSocketService.set_sockets [WebSocket.Open]
    (after WebSocketService.DEFAULT_CONFIG
       [(0, Send move (mkOptions None (Some 1%nat) (Some 2%nat)));
        (1, Send cyclic (mkOptions None (Some 3%nat) (Some 4%nat)));
        (2, Send look (mkOptions None None None));
        (3, Connect)]).

(** The close event of a connection that was lost. *)
Definition lost : CloseEvent := mkCloseEvent 1006 "".

(** The service is connected and refers to no socket.  Socket 0 is
    detached by [disconnect]; its close event arrives after the second
    [connect] has constructed socket 1, and starts a reconnection, whose
    timer constructs socket 2 while socket 1 is still connecting;
    [disconnect] detaches socket 2, and then socket 1 opens. *)
Definition detached : WebSocketService.t :=
  after WebSocketService.DEFAULT_CONFIG
    [(0, Connect); (5, Disconnect); (5, Connect); (10, SocketCloses 0 lost);
     (1010, TimerFires 3); (1020, Disconnect); (1030, SocketOpens 1)].

(** Two reconnection timers are pending.  The close events of socket 0,
    detached by [disconnect], and of socket 1 both arrive after the second
    [connect], and each schedules a reconnection: timer 3 with 1000 ms,
    then timer 4 with 1500 ms, whose handle replaces that of timer 3 in
    the reconnection manager. *)
Definition scheduledTwice : WebSocketService.t :=
  after WebSocketService.DEFAULT_CONFIG
    [(0, Connect); (20, Disconnect); (20, Connect);
     (25, SocketCloses 0 lost); (75, SocketCloses 1 lost)].

End Sample.

(** ** What every execution keeps *)

Definition isMessageSent (e : Event) : bool :=
  match e with
  | EvMessageSent _ _ _ => true
  | _ => false
  end.

Definition isReconnectAttempt (e : Event) : bool :=
  match e with
  | EvReconnectAttempt _ _ _ _ => true
  | _ => false
  end.

(** The number of elements of a list that satisfy a test. *)
Definition count {A : Type} (p : A -> bool) (l : list A) : Z :=
  Z.of_nat (length (List.filter p l)).

(** The event names the state CLOSING, or the reason TIMEOUT or
    MAX_RETRIES_EXCEEDED of a disconnection. *)
Definition namesUnused (e : Event) : bool :=
  match e with
  | EvStateChange a b _ =>
      bool_decide (a = CLOSING) || bool_decide (b = CLOSING)
  | EvDisconnected r _ _ _ _ =>
      bool_decide (r = TIMEOUT) || bool_decide (r = MAX_RETRIES_EXCEEDED)
  | _ => false
  end.

(** The call tells the caller that the queue dropped a message: on
    overflow, or when it was cleared. *)
Definition isDropNotice (c : UserCall) : bool :=
  match c with
  | CalledOnError _ m =>
      String.eqb m MessageQueue.overflowMessage
      || String.eqb m MessageQueue.clearedMessage
  | CalledOnSuccess _ => false
  end.

(** What a handler keeps of the state [s] it is run in, [s'] being the
    state it returns. *)
Record keeps (s s' : WebSocketService.t) : Prop := {
  keeps_config : WebSocketService.config s' = WebSocketService.config s;
  keeps_capacity :
    MessageQueue.config (WebSocketService.messageQueue s')
    = MessageQueue.config (WebSocketService.messageQueue s);
  keeps_size :
    MessageQueue.size (WebSocketService.messageQueue s')
    <= Z.max (MessageQueue.size (WebSocketService.messageQueue s))
         (MessageQueue.maxSize
            (MessageQueue.config (WebSocketService.messageQueue s)));
  keeps_destroyed :
    WebSocketService.isDestroyed s = true ->
    WebSocketService.isDestroyed s' = true
    /\ length (WebSocketService.sockets s')
       = length (WebSocketService.sockets s);
  keeps_called :
    exists cs,
      WebSocketService.called s' = WebSocketService.called s ++ cs
      /\ Forall (fun c => isDropNotice c = false) cs;
  keeps_emitted :
    exists evs,
      WebSocketService.emitted s' = WebSocketService.emitted s ++ evs
      /\ ConnectionMetrics.messagesSent (WebSocketService.metrics s')
         = ConnectionMetrics.messagesSent (WebSocketService.metrics s)
           + count isMessageSent evs
      /\ ConnectionMetrics.reconnectAttempts (WebSocketService.metrics s')
         = ConnectionMetrics.reconnectAttempts (WebSocketService.metrics s)
           + count isReconnectAttempt evs
      /\ (WebSocketService.state s <> CLOSING ->
          WebSocketService.state s' <> CLOSING
          /\ Forall (fun e => namesUnused e = false) evs)
}.

Module Busy.
Import Execution.

(** A capacity of two messages. *)
Definition smallQueue : WebSocketService.Config :=
  WebSocketService.mkConfig true 3 100 1000 (2 # 1) 10000 0 10000 true 2.

Definition options : SendOptions := mkOptions None (Some 1%nat) (Some 2%nat).

(** Three commands are sent while the service is not connected; the
    connection is refused once, opens at the second attempt and carries
    one more command. *)
Definition inputs : list (Z * Input) :=
  [(0, Send Sample.move options); (1, Send Sample.look options);
   (2, Send Sample.move options); (3, Connect);
   (10, SocketCloses 0 Scenario.abnormal); (110, TimerFires 2);
   (120, SocketOpens 1); (130, Send Sample.look options)].

(** The service is destroyed while it waits for the second attempt; the
    timer of the attempt is cancelled, and the caller tries to connect. *)
Definition destroyed : list (Z * Input) :=
  [(3, Connect); (10, SocketCloses 0 Scenario.abnormal); (20, Destroy)].

Definition afterwards : list (Z * Input) :=
  [(30, Connect); (40, Send Sample.move options)].

End Busy.

(** ** Sequences of calls on the listeners *)

Module ListenerOps.

Inductive Op : Type :=
| On (event : WebSocketEvent.t) (f : nat)
| Off (event : WebSocketEvent.t) (f : nat)
| Once (event : WebSocketEvent.t) (f : nat)
| Emit (data : Event)
| Clear.

Definition apply (throws : nat -> Event -> bool) (r : Listeners.t) (o : Op)
    : Listeners.t :=
  match o with
  | On event f => Listeners.on event f r
  | Off event f => Listeners.off event f r
  | Once event f => Listeners.once event f r
  | Emit data => (Listeners.emit throws (WebSocketEvent.nameOf data) data r).1
  | Clear => Listeners.clear r
  end.

Definition run (throws : nat -> Event -> bool) (ops : list Op)
    (r : Listeners.t) : Listeners.t :=
  fold_left (apply throws) ops r.

End ListenerOps.

(** The functions registered for an event, in the order of their
    registration. *)
Definition registered (event : WebSocketEvent.t) (r : Listeners.t)
    : list Listeners.Listener :=
  default [] (Listeners.listeners r !! event).

(** The listener is a wrapper of [once] that does not survive a call with
    the data: its function returns. *)
Definition spent (throws : nat -> Event -> bool) (data : Event)
    (l : Listeners.Listener) : bool :=
  match l with
  | Listeners.Given _ => false
  | Listeners.OnceWrapper _ f => negb (throws f data)
  end.

(** What holds of the listeners after any calls: no function is twice in
    a set, and the wrappers in the sets were counted. *)
Definition wellKept (r : Listeners.t) : Prop :=
  forall event,
    NoDup (registered event r)
    /\ forall k f, Listeners.OnceWrapper k f ∈ registered event r ->
                   (k < Listeners.wrappers r)%nat.

(** The call that [emit] makes through a listener. *)
Definition delivered (data : Event) (l : Listeners.Listener)
    : Listeners.Call :=
  Listeners.Called (Listeners.target l) data.
(** * Properties *)

(** ** Timers *)

Lemma pending_setTimeout (tk : Window.Handler) (d : Z) (w : Window.t) :
  Window.pending (Window.setTimeout tk d w).1 (Window.setTimeout tk d w).2
  = Some (Window.mkTimer tk d false).
Proof.
  unfold Window.pending, Window.setTimeout, Window.arm; simpl.
  apply lookup_insert_eq.
Qed.

Lemma pending_clearTimeout (id : nat) (w : Window.t) :
  Window.pending id (Window.clearTimeout id w) = None.
Proof. unfold Window.pending, Window.clearTimeout; simpl. apply lookup_delete_eq. Qed.

Lemma fire_one_shot (id : nat) (w : Window.t) (tm : Window.Timer) :
  Window.pending id w = Some tm -> Window.repeating tm = false ->
  exists w', Window.fire id w = Some (tm, w')
             /\ Window.pending id w' = None
             /\ Window.fire id w' = None.
Proof.
  unfold Window.pending, Window.fire. intros Hp Hr. rewrite Hp, Hr.
  exists (Window.clearTimeout id w). split; [reflexivity|].
  assert (H : Window.timers (Window.clearTimeout id w) !! id = None)
    by apply pending_clearTimeout.
  split; [exact H|]. now rewrite H.
Qed.

(** ** ReconnectionManager: the backoff sequence *)

Section ReconnectionProperties.

Context {CB : Type}.
Import ReconnectionManager.

Implicit Types (r : ReconnectionManager.t CB) (w : Window.t).

(** A scheduling that is not refused arms a timer for the clamped current
    delay and stores the multiplied delay. *)
Lemma schedule_accepted f a m r w :
  attempts r < maxAttempts (config r) ->
  let '(r', w', _) := schedule f a m r w in
  config r' = config r
  /\ attempts r' = attempts r + 1
  /\ currentDelay r'
     = Double.floorMul (currentDelay r) (delayMultiplier (config r))
  /\ armedDelay r' w' = Some (Z.min (currentDelay r) (maxDelay (config r))).
Proof.
  intros Hlt. unfold schedule.
  destruct (Z.geb_spec (attempts r) (maxAttempts (config r))) as [Hge|_];
    [lia|].
  simpl. repeat split.
  unfold armedDelay, Window.pending; simpl.
  now rewrite lookup_insert_eq.
Qed.

Lemma scheduleN_state f a m r0 w0 (n : nat) :
  attempts r0 = 0 ->
  currentDelay r0 = initialDelay (config r0) ->
  Z.of_nat n <= maxAttempts (config r0) ->
  let '(r, _) := scheduleN n f a m r0 w0 in
  config r = config r0
  /\ attempts r = Z.of_nat n
  /\ currentDelay r = storedDelay (config r0) n.
Proof.
  intros Ha Hd. induction n as [|n IH]; intros Hn.
  - simpl. auto.
  - cbn [scheduleN].
    destruct (scheduleN n f a m r0 w0) as [r1 w1].
    destruct IH as (Hc & Hat & Hcd); [lia|].
    pose proof (schedule_accepted f a m r1 w1) as Hs.
    destruct (schedule f a m r1 w1) as [[r2 w2] calls].
    destruct Hs as (Hc2 & Hat2 & Hcd2 & _); [rewrite Hc, Hat; lia|].
    repeat split.
    + congruence.
    + rewrite Hat2, Hat. lia.
    + rewrite Hcd2, Hcd, Hc. reflexivity.
Qed.

End ReconnectionProperties.




(** ** MessageQueue: the overflow path *)

Section QueueProperties.

Context {Command CB : Type}.
Import MessageQueue.

Implicit Types (q : MessageQueue.t Command CB).

Lemma size_app_one (l : list (QueuedMessage Command CB)) x cfg :
  size (mk (l ++ [x]) cfg) = size (mk l cfg) + 1.
Proof. unfold size; simpl. rewrite length_app; simpl. lia. Qed.

(** The queue after [enqueue], by cases on the overflow test. *)
Lemma enqueue_below now c onS onE q :
  size q < maxSize (config q) ->
  enqueue now c onS onE q
  = (mk (queue q ++ [mkMessage c now 0 onS onE]) (config q), [], true).
Proof.
  intros H. unfold enqueue.
  destruct (Z.geb_spec (size q) (maxSize (config q))); [lia|reflexivity].
Qed.

Lemma enqueue_overflow now c onS onE q oldest rest :
  maxSize (config q) <= size q ->
  queue q = oldest :: rest ->
  enqueue now c onS onE q
  = (mk (rest ++ [mkMessage c now 0 onS onE]) (config q),
     notifyDropped (Some oldest), true).
Proof.
  intros H E. unfold enqueue.
  destruct (Z.geb_spec (size q) (maxSize (config q))); [|lia].
  now rewrite E.
Qed.

Lemma enqueue_true now c onS onE q : (enqueue now c onS onE q).2 = true.
Proof.
  unfold enqueue.
  destruct (size q >=? maxSize (config q)); [|reflexivity].
  now destruct (shift (queue q)).
Qed.

Lemma enqueue_size now c onS onE q :
  1 <= maxSize (config q) ->
  size q <= maxSize (config q) ->
  size (enqueue now c onS onE q).1.1 = Z.min (size q + 1) (maxSize (config q)).
Proof.
  intros Hcap Hle.
  destruct (Z.lt_ge_cases (size q) (maxSize (config q))) as [Hlt|Hge].
  - rewrite (enqueue_below _ _ _ _ _ Hlt). cbn [fst].
    rewrite size_app_one. unfold size in *; cbn [queue]. lia.
  - destruct (queue q) as [|oldest rest] eqn:E.
    + unfold size in Hge. rewrite E in Hge. simpl in Hge. lia.
    + rewrite (enqueue_overflow now c onS onE q oldest rest Hge E).
      cbn [fst]. rewrite size_app_one.
      unfold size in *; cbn [queue]. rewrite E in *.
      cbn [length] in *. lia.
Qed.

(** With a capacity of at least one, no operation lets the queue grow
    beyond it. *)
Lemma enqueue_bounded now c onS onE q :
  1 <= maxSize (config q) ->
  size q <= maxSize (config q) ->
  size (enqueue now c onS onE q).1.1
  <= maxSize (config (enqueue now c onS onE q).1.1).
Proof.
  intros Hcap Hle. rewrite enqueue_size by assumption.
  assert (E : config (enqueue now c onS onE q).1.1 = config q).
  { unfold enqueue. destruct (size q >=? maxSize (config q));
      [destruct (shift (queue q))|]; reflexivity. }
  rewrite E. lia.
Qed.

End QueueProperties.

(** X29.  A queue whose size equals its capacity [N], with [N >= 1], has
    an oldest entry; a further [enqueue] removes exactly that entry, calls
    its error callback (when it has one) with the queue-overflow error,
    and appends the new entry behind the remaining ones, which keep their
    order; the size is [N] again. *)
Theorem enqueue_at_capacity {Command CB : Type} (now : Z) (c : Command)
    (onS onE : option CB) (q : MessageQueue.t Command CB) :
  1 <= MessageQueue.maxSize (MessageQueue.config q) ->
  MessageQueue.size q = MessageQueue.maxSize (MessageQueue.config q) ->
  exists oldest rest,
    MessageQueue.queue q = oldest :: rest
    /\ MessageQueue.enqueue now c onS onE q
       = (MessageQueue.mk (rest ++ [MessageQueue.mkMessage c now 0 onS onE])
            (MessageQueue.config q),
          match MessageQueue.onError oldest with
          | Some f => [MessageQueue.CallOnError f MessageQueue.overflowMessage]
          | None => []
          end,
          true)
    /\ MessageQueue.size (MessageQueue.enqueue now c onS onE q).1.1
       = MessageQueue.maxSize (MessageQueue.config q).
Proof.
  intros Hcap Hsize.
  destruct q as [[|oldest rest] cfg].
  - unfold MessageQueue.size in Hsize; simpl in *. lia.
  - exists oldest, rest. split; [reflexivity|].
    assert (Hge : MessageQueue.maxSize
                    (MessageQueue.config (MessageQueue.mk (oldest :: rest) cfg))
                  <= MessageQueue.size (MessageQueue.mk (oldest :: rest) cfg))
      by lia.
    rewrite (enqueue_overflow now c onS onE _ oldest rest Hge eq_refl).
    split; [reflexivity|].
    cbn [fst]. rewrite size_app_one.
    unfold MessageQueue.size in *; simpl in *. lia.
Qed.

(** The scenario of the specification: C enqueued into [A; B]. *)
Lemma enqueue_at_capacity_witness :
  exists oldest rest,
    MessageQueue.queue queueAB = oldest :: rest
    /\ MessageQueue.enqueue 3 "C"%string None None queueAB
       = (MessageQueue.mk (rest ++ [MessageQueue.mkMessage "C"%string 3 0 None None])
            (MessageQueue.config queueAB),
          match MessageQueue.onError oldest with
          | Some f => [MessageQueue.CallOnError f MessageQueue.overflowMessage]
          | None => []
          end,
          true)
    /\ MessageQueue.size
         (MessageQueue.enqueue 3 "C"%string None None queueAB).1.1
       = MessageQueue.maxSize (MessageQueue.config queueAB).
Proof.
  apply (enqueue_at_capacity 3 "C"%string None None queueAB).
  - vm_compute. discriminate.
  - reflexivity.
Defined.

(** The same scenario, evaluated: A is dropped and its error callback is
    called; the queue holds B, then C. *)
Example enqueue_A_B_C :
  MessageQueue.enqueue 3 "C"%string None None queueAB
  = (MessageQueue.mk
       [MessageQueue.mkMessage "B"%string 2 0 (Some 20%nat) (Some 21%nat);
        MessageQueue.mkMessage "C"%string 3 0 None None]
       (MessageQueue.mkConfig 2),
     [MessageQueue.CallOnError 11%nat MessageQueue.overflowMessage],
     true).
Proof. reflexivity. Qed.

(** C4, on the code.  A queue at capacity [N] is to hold [N] entries
    after a further [enqueue].  The code does not keep that for [N = 0]:
    the empty queue of capacity 0 has a size equal to its capacity,
    [enqueue] finds no entry to drop, calls no error callback, and
    appends; the queue then holds one entry, which is more than the
    maximal size it is configured with. *)
Lemma enqueue_capacity_zero_grows :
  let q : MessageQueue.t string nat :=
    MessageQueue.new (MessageQueue.mkConfig 0) in
  MessageQueue.size q = MessageQueue.maxSize (MessageQueue.config q)
  /\ MessageQueue.enqueue 1 "A"%string (Some 10%nat) (Some 11%nat) q
     = (MessageQueue.mk
          [MessageQueue.mkMessage "A"%string 1 0 (Some 10%nat) (Some 11%nat)]
          (MessageQueue.mkConfig 0), [], true)
  /\ MessageQueue.size
       (MessageQueue.enqueue 1 "A"%string (Some 10%nat) (Some 11%nat) q).1.1
     <> MessageQueue.maxSize (MessageQueue.config q).
Proof. cbv zeta. repeat split. vm_compute. discriminate. Qed.

(** X30.  [enqueue] returns [true] for every queue and every message,
    also on the overflow path; when the capacity is at least 1 and the
    size does not exceed it, the size afterwards is
    [min(size + 1, capacity)]. *)
Theorem enqueue_returns_true {Command CB : Type} (now : Z) (c : Command)
    (onS onE : option CB) (q : MessageQueue.t Command CB) :
  (MessageQueue.enqueue now c onS onE q).2 = true
  /\ (1 <= MessageQueue.maxSize (MessageQueue.config q) ->
      MessageQueue.size q <= MessageQueue.maxSize (MessageQueue.config q) ->
      MessageQueue.size (MessageQueue.enqueue now c onS onE q).1.1
      = Z.min (MessageQueue.size q + 1)
              (MessageQueue.maxSize (MessageQueue.config q))).
Proof.
  split.
  - apply enqueue_true.
  - apply enqueue_size.
Qed.

Lemma enqueue_returns_true_witness :
  (MessageQueue.enqueue 3 "C"%string None None queueAB).2 = true
  /\ MessageQueue.size (MessageQueue.enqueue 3 "C"%string None None queueAB).1.1
     = Z.min (MessageQueue.size queueAB + 1)
             (MessageQueue.maxSize (MessageQueue.config queueAB)).
Proof.
  destruct (enqueue_returns_true 3 "C"%string None None queueAB) as [Ht Hs].
  split; [exact Ht|].
  apply Hs; vm_compute; discriminate.
Defined.

(** C9, on the code.  The size after [enqueue] is to be
    [min(size + 1, capacity)].  The code does not keep that for the
    capacity 0: the size of the empty queue after [enqueue] is 1, and
    [min(0 + 1, 0)] is 0, the maximal size the queue is configured
    with. *)
Lemma enqueue_size_capacity_zero :
  let q : MessageQueue.t string nat :=
    MessageQueue.new (MessageQueue.mkConfig 0) in
  MessageQueue.size (MessageQueue.enqueue 1 "A"%string None None q).1.1 = 1
  /\ Z.min (MessageQueue.size q + 1)
           (MessageQueue.maxSize (MessageQueue.config q)) = 0
  /\ MessageQueue.size (MessageQueue.enqueue 1 "A"%string None None q).1.1
     <> Z.min (MessageQueue.size q + 1)
              (MessageQueue.maxSize (MessageQueue.config q)).
Proof. cbv zeta. repeat split. vm_compute. discriminate. Qed.

(** ** HeartbeatManager: one probe *)

(** One probe on its own.  A heartbeat that is running has its three
    callbacks.  On a tick, a probe-send function that reports failure (or
    throws) leaves the timers as they are: no timeout is armed.  A probe
    that is sent arms one one-shot timer for the configured timeout and
    records the time.  When that timer fires, the timeout callback is
    called once and the timer is gone, so it cannot fire a second time.
    When instead the acknowledgment is handled before any further tick,
    the timer is cleared and the acknowledgment callback receives the
    current time minus the time recorded at the probe. *)
Lemma heartbeat_probe_tick {CB : Type} (h : HeartbeatManager.t CB)
    (w : Window.t) (now now' : Z) (ping onT onP : CB) :
  HeartbeatManager.sendPing h = Some ping ->
  HeartbeatManager.onTimeout h = Some onT ->
  HeartbeatManager.onPong h = Some onP ->
  0 < now ->
  let timer :=
    Window.mkTimer Window.HeartbeatTimeout
      (HeartbeatManager.timeout (HeartbeatManager.config h)) false in
  (forall res, res <> HeartbeatManager.PingSent ->
     exists h1,
       HeartbeatManager.sendHeartbeat now res h w
       = (h1, w, [HeartbeatManager.CallSendPing ping])
       /\ HeartbeatManager.timeoutId h1 = HeartbeatManager.timeoutId h)
  /\ exists h1 w1 id,
       HeartbeatManager.sendHeartbeat now HeartbeatManager.PingSent h w
       = (h1, w1, [HeartbeatManager.CallSendPing ping])
       /\ HeartbeatManager.timeoutId h1 = Some id
       /\ HeartbeatManager.lastPingTime h1 = now
       /\ Window.pending id w1 = Some timer
       /\ (exists w2,
             Window.fire id w1 = Some (timer, w2)
             /\ (HeartbeatManager.handleHeartbeatTimeout h1).2
                = [HeartbeatManager.CallOnTimeout onT]
             /\ Window.fire id w2 = None)
       /\ (exists h2 w2,
             HeartbeatManager.handlePong now' h1 w1
             = (h2, w2, [HeartbeatManager.CallOnPong onP (now' - now)])
             /\ HeartbeatManager.timeoutId h2 = None
             /\ Window.pending id w2 = None
             /\ Window.fire id w2 = None).
Proof.
  intros Hping HonT HonP Hnow timer. split.
  - intros res Hres. unfold HeartbeatManager.sendHeartbeat. rewrite Hping.
    destruct res; [congruence| |]; eexists; split; reflexivity.
  - unfold HeartbeatManager.sendHeartbeat. rewrite Hping.
    pose proof (pending_setTimeout Window.HeartbeatTimeout
                  (HeartbeatManager.timeout (HeartbeatManager.config h)) w)
      as Hpend.
    destruct (Window.setTimeout Window.HeartbeatTimeout
                (HeartbeatManager.timeout (HeartbeatManager.config h)) w)
      as [id w1] eqn:Earm.
    cbn [fst snd] in Hpend.
    exists (HeartbeatManager.withPing now (Some id) h), w1, id.
    split; [reflexivity|]. split; [reflexivity|]. split; [reflexivity|].
    split; [exact Hpend|]. split.
    + destruct (fire_one_shot id w1 timer Hpend eq_refl) as (w2 & Hf & _ & Hf2).
      exists w2. split; [exact Hf|]. split; [|exact Hf2].
      unfold HeartbeatManager.handleHeartbeatTimeout; simpl. now rewrite HonT.
    + unfold HeartbeatManager.handlePong; simpl.
      destruct (Z.gtb_spec now 0) as [_|Hle]; [|lia].
      rewrite HonP. do 2 eexists. split; [reflexivity|].
      split; [reflexivity|].
      assert (Hnone : Window.pending id (Window.clearTimeout id w1) = None)
        by apply pending_clearTimeout.
      split; [exact Hnone|].
      unfold Window.fire. unfold Window.pending in Hnone. now rewrite Hnone.
Qed.

(** A heartbeat every 30 s with a timeout of 10 s, started with the
    callbacks 1, 2 and 3; the probe is sent at time 5000 and acknowledged
    at time 5040. *)
Lemma heartbeat_probe_tick_witness :
  let started :=
    HeartbeatManager.start 1%nat 2%nat (Some 3%nat)
      (HeartbeatManager.new (HeartbeatManager.mkConfig 30000 10000))
      Window.empty in
  let h := started.1 in
  let w := started.2 in
  let timer := Window.mkTimer Window.HeartbeatTimeout 10000 false in
  (forall res, res <> HeartbeatManager.PingSent ->
     exists h1,
       HeartbeatManager.sendHeartbeat 5000 res h w
       = (h1, w, [HeartbeatManager.CallSendPing 1%nat])
       /\ HeartbeatManager.timeoutId h1 = HeartbeatManager.timeoutId h)
  /\ exists h1 w1 id,
       HeartbeatManager.sendHeartbeat 5000 HeartbeatManager.PingSent h w
       = (h1, w1, [HeartbeatManager.CallSendPing 1%nat])
       /\ HeartbeatManager.timeoutId h1 = Some id
       /\ HeartbeatManager.lastPingTime h1 = 5000
       /\ Window.pending id w1 = Some timer
       /\ (exists w2,
             Window.fire id w1 = Some (timer, w2)
             /\ (HeartbeatManager.handleHeartbeatTimeout h1).2
                = [HeartbeatManager.CallOnTimeout 2%nat]
             /\ Window.fire id w2 = None)
       /\ (exists h2 w2,
             HeartbeatManager.handlePong 5040 h1 w1
             = (h2, w2, [HeartbeatManager.CallOnPong 3%nat (5040 - 5000)])
             /\ HeartbeatManager.timeoutId h2 = None
             /\ Window.pending id w2 = None
             /\ Window.fire id w2 = None).
Proof.
  exact (heartbeat_probe_tick
           (HeartbeatManager.start 1%nat 2%nat (Some 3%nat)
              (HeartbeatManager.new (HeartbeatManager.mkConfig 30000 10000))
              Window.empty).1
           (HeartbeatManager.start 1%nat 2%nat (Some 3%nat)
              (HeartbeatManager.new (HeartbeatManager.mkConfig 30000 10000))
              Window.empty).2
           5000 5040 1%nat 2%nat 3%nat eq_refl eq_refl eq_refl eq_refl).
Defined.

(** ** ReconnectionManager: the attempt limit *)

Section ExhaustionProperties.

Context {CB : Type}.
Import ReconnectionManager.

(** At the limit [schedule] only calls the exhaustion callback: the one
    it is given, else the stored one. *)
Lemma schedule_refused (f : CB) (a m : option CB) (g : CB)
    (r : ReconnectionManager.t CB) (w : Window.t) :
  maxAttempts (config r) <= attempts r ->
  orElse m (onMaxAttemptsReached r) = Some g ->
  schedule f a m r w = (r, w, [CallOnMaxAttemptsReached g]).
Proof.
  intros Hge Hg. unfold schedule.
  destruct (Z.geb_spec (attempts r) (maxAttempts (config r))); [|lia].
  destruct m as [g'|]; simpl in Hg.
  - now inversion Hg.
  - now rewrite Hg.
Qed.

Lemma reset_state (r : ReconnectionManager.t CB) (w : Window.t) :
  let r' := (reset r w).1 in
  config r' = config r /\ attempts r' = 0
  /\ currentDelay r' = initialDelay (config r)
  /\ timeoutId r' = None /\ isScheduled r' = false.
Proof. unfold reset, cancel; simpl. repeat split. Qed.

End ExhaustionProperties.

(** ** WebSocketService: sending while not connected *)

Section SendProperties.

Import WebSocketService.

Lemma isFull_false_iff {Command CB : Type} (q : MessageQueue.t Command CB) :
  MessageQueue.isFull q = false
  <-> MessageQueue.size q < MessageQueue.maxSize (MessageQueue.config q).
Proof.
  unfold MessageQueue.isFull.
  destruct (Z.geb_spec (MessageQueue.size q)
              (MessageQueue.maxSize (MessageQueue.config q))); split;
    intros; try lia; congruence.
Qed.

Lemma send_queues now command options s :
  state s <> CONNECTED ->
  queue options <> Some false ->
  MessageQueue.isFull (messageQueue s) = false ->
  send now command options s
  = (set_messageQueue
       (MessageQueue.mk
          (MessageQueue.queue (messageQueue s)
           ++ [MessageQueue.mkMessage command now 0 (onSuccess options)
                 (onError options)])
          (MessageQueue.config (messageQueue s))) s,
     mkResult false true None now).
Proof.
  intros Hst Hq Hfull. unfold send.
  rewrite (bool_decide_eq_false_2 _ Hst), (bool_decide_eq_false_2 _ Hq), Hfull.
  cbn [negb andb].
  apply isFull_false_iff in Hfull.
  now rewrite (enqueue_below now command _ _ _ Hfull).
Qed.

Lemma send_refuses now command options s :
  state s <> CONNECTED ->
  queue options = Some false \/ MessageQueue.isFull (messageQueue s) = true ->
  send now command options s
  = (callOpt (onError options)
       (fun f => CalledOnError f notConnectedMessage) s,
     mkResult false false (Some notConnectedMessage) now).
Proof.
  intros Hst Hno. unfold send.
  rewrite (bool_decide_eq_false_2 _ Hst). cbn [negb].
  destruct Hno as [Hq|Hfull].
  - now rewrite (bool_decide_eq_true_2 _ Hq).
  - rewrite Hfull. now rewrite andb_false_r.
Qed.

End SendProperties.

(** C5.  A [send] while the state is not CONNECTED returns a result with
    [success = false].  When the caller did not pass [queue: false] and
    the queue is not full, the result has [queued = true], the message is
    the new last entry of the queue and no callback is called.  When the
    caller passed [queue: false] or the queue is full, the result has
    [queued = false], the queue is as it was, and the error callback of
    the caller, when there is one, is called before [send] returns. *)
Theorem send_while_not_connected (now : Z) (command : ClientToServerCommand)
    (options : SendOptions) (s : WebSocketService.t) :
  WebSocketService.state s <> CONNECTED ->
  let '(s', result) := WebSocketService.send now command options s in
  success result = false
  /\ (queue options <> Some false ->
      MessageQueue.isFull (WebSocketService.messageQueue s) = false ->
      queued result = true
      /\ MessageQueue.queue (WebSocketService.messageQueue s')
         = MessageQueue.queue (WebSocketService.messageQueue s)
           ++ [MessageQueue.mkMessage command now 0 (onSuccess options)
                 (onError options)]
      /\ WebSocketService.called s' = WebSocketService.called s)
  /\ (queue options = Some false
      \/ MessageQueue.isFull (WebSocketService.messageQueue s) = true ->
      queued result = false
      /\ WebSocketService.messageQueue s' = WebSocketService.messageQueue s
      /\ WebSocketService.called s'
         = WebSocketService.called s
           ++ match onError options with
              | Some f => [CalledOnError f WebSocketService.notConnectedMessage]
              | None => []
              end).
Proof.
  intros Hst.
  destruct (decide (queue options = Some false)) as [Hq|Hq].
  - rewrite (send_refuses now command options s Hst (or_introl Hq)).
    split; [reflexivity|]. split; [intros Hq'; contradiction|].
    intros _. split; [reflexivity|].
    destruct (onError options); simpl; [auto|rewrite app_nil_r; auto].
  - destruct (MessageQueue.isFull (WebSocketService.messageQueue s)) eqn:Hfull.
    + rewrite (send_refuses now command options s Hst (or_intror Hfull)).
      split; [reflexivity|]. split; [intros _ Hf; discriminate|].
      intros _. split; [reflexivity|].
      destruct (onError options); simpl; [auto|rewrite app_nil_r; auto].
    + rewrite (send_queues now command options s Hst Hq Hfull).
      split; [reflexivity|]. split; [intros _ _; simpl; auto|].
      intros [Hq'|Hf]; [contradiction|discriminate].
Qed.

(** The scenario of the specification: [send] on a service that was never
    connected (state CLOSED), with callbacks 1 and 2 and no [queue] option:
    the result is [{success: false, queued: true}] and the command is in
    the queue. *)
Lemma send_while_not_connected_witness :
  let command := mkCommand "MOVE" (Some "{}"%string) in
  let options := mkOptions None (Some 1%nat) (Some 2%nat) in
  let '(s', result) :=
    WebSocketService.send 7 command options
      (WebSocketService.new WebSocketService.DEFAULT_CONFIG) in
  success result = false
  /\ queued result = true
  /\ MessageQueue.queue (WebSocketService.messageQueue s')
     = [MessageQueue.mkMessage command 7 0 (Some 1%nat) (Some 2%nat)]
  /\ WebSocketService.called s' = [].
Proof.
  intros command options.
  pose proof (send_while_not_connected 7 command options
                (WebSocketService.new WebSocketService.DEFAULT_CONFIG)
                ltac:(discriminate)) as H.
  destruct (WebSocketService.send 7 command options
              (WebSocketService.new WebSocketService.DEFAULT_CONFIG))
    as [s' result].
  destruct H as (Hs & Hq & _).
  destruct Hq as (Hq1 & Hq2 & Hq3); [discriminate|reflexivity|].
  repeat split; assumption.
Defined.

(** ** WebSocketService: what a handler adds to the trace *)

Section TraceProperties.

Import WebSocketService.

Lemma follow_app st evs1 evs2 st1 :
  follow st evs1 = Some st1 ->
  follow st (evs1 ++ evs2) = follow st1 evs2.
Proof.
  revert st. induction evs1 as [|e evs1 IH]; intros st H.
  - simpl in H. now inversion H.
  - destruct e; simpl in *; try (now apply IH).
    destruct (bool_decide (previousState = st)
              && negb (bool_decide (currentState = st))); [|discriminate].
    now apply IH.
Qed.

Lemma extends_refl s : extends s s.
Proof. exists []. rewrite app_nil_r. repeat split. constructor. Qed.

Lemma extends_trans s1 s2 s3 : extends s1 s2 -> extends s2 s3 -> extends s1 s3.
Proof.
  intros (e1 & He1 & Hf1 & Hok1) (e2 & He2 & Hf2 & Hok2).
  exists (e1 ++ e2). split; [|split].
  - rewrite He2, He1. now rewrite app_assoc.
  - now rewrite (follow_app _ _ _ _ Hf1).
  - apply Forall_app. now split.
Qed.

(** An update that writes neither the state nor the trace. *)
Lemma extends_quiet s x y :
  extends s x -> state y = state x -> emitted y = emitted x -> extends s y.
Proof.
  intros (e & He & Hf & Hok) Hst Hem. exists e.
  rewrite Hst, Hem. now repeat split.
Qed.

Lemma extends_setState s x now st :
  extends s x -> extends s (setState now st x).
Proof.
  intros H. unfold setState.
  destruct (decide (state x = st)) as [Heq|Hne]; [exact H|].
  apply (extends_trans _ _ _ H).
  exists [EvStateChange (state x) st now]. split; [reflexivity|].
  split; [|repeat constructor].
  simpl. rewrite bool_decide_eq_true_2 by reflexivity.
  rewrite bool_decide_eq_false_2 by congruence. reflexivity.
Qed.

Lemma extends_emit s x e :
  isStateChange e = false -> isTimeoutDisconnect e = false ->
  extends s x -> extends s (emit e x).
Proof.
  intros Hsc Hok H. apply (extends_trans _ _ _ H).
  exists [e]. split; [reflexivity|]. split; [|repeat constructor; exact Hok].
  destruct e; simpl in *; try reflexivity. discriminate.
Qed.

Lemma closeReason_not_TIMEOUT manual c : closeReason manual c <> TIMEOUT.
Proof.
  unfold closeReason.
  destruct manual, (c =? 1006), ((c >=? 1000) && (c <? 1004)); discriminate.
Qed.

Lemma extends_emit_disconnected s x manual c txt was now :
  extends s x ->
  extends s (emit (EvDisconnected (closeReason manual c) c txt was now) x).
Proof.
  apply extends_emit; [reflexivity|]. simpl.
  pose proof (closeReason_not_TIMEOUT manual c).
  destruct (closeReason manual c); congruence.
Qed.

End TraceProperties.

(** Every handler continues the state it is run in.  The lemmas are
    stated for a handler applied to any continuation [x] of [s], so that
    proof search peels a composition of handlers from the outside; the
    search matches the handlers by name and unfolds nothing. *)

Create HintDb ext discriminated.
#[global] Hint Constants Opaque : ext.
#[global] Hint Variables Opaque : ext.

Section HandlersExtend.

Import WebSocketService.

#[local] Hint Resolve extends_refl extends_setState
  extends_emit_disconnected : ext.
#[local] Hint Extern 1 (isStateChange _ = false) => reflexivity : ext.
#[local] Hint Extern 1 (isTimeoutDisconnect _ = false) => reflexivity : ext.
#[local] Hint Resolve extends_emit : ext.

(** Case analysis on the tests of a handler body. *)
Ltac split_tests :=
  repeat match goal with
         | |- context [match ?c with _ => _ end] => destruct c eqn:?
         end.

Ltac quiet H := exact (extends_quiet _ _ _ H eq_refl eq_refl).

(** The hypothesis, when the goal is about the very same state. *)
Ltac same H x :=
  match goal with |- extends _ ?y => constr_eq y x; exact H end.

(** The body of a handler is a composition of handlers that are already
    known to continue their state. *)
Ltac continues H :=
  apply (extends_trans _ _ _ H); clear H;
  cbv zeta; split_tests; typeclasses eauto 30 with ext.

Implicit Types (s x : t).

Lemma ext_set_socket s x v : extends s x -> extends s (set_socket v x).
Proof. intros H. quiet H. Qed.
Lemma ext_set_isAuthenticated s x v :
  extends s x -> extends s (set_isAuthenticated v x).
Proof. intros H. quiet H. Qed.
Lemma ext_set_messageQueue s x v :
  extends s x -> extends s (set_messageQueue v x).
Proof. intros H. quiet H. Qed.
Lemma ext_set_metrics s x v : extends s x -> extends s (set_metrics v x).
Proof. intros H. quiet H. Qed.
Lemma ext_set_heartbeat s x v : extends s x -> extends s (set_heartbeat v x).
Proof. intros H. quiet H. Qed.
Lemma ext_set_reconnection s x v :
  extends s x -> extends s (set_reconnection v x).
Proof. intros H. quiet H. Qed.
Lemma ext_set_connectionTimeoutId s x v :
  extends s x -> extends s (set_connectionTimeoutId v x).
Proof. intros H. quiet H. Qed.
Lemma ext_set_isManualDisconnect s x v :
  extends s x -> extends s (set_isManualDisconnect v x).
Proof. intros H. quiet H. Qed.
Lemma ext_set_isDestroyed s x v :
  extends s x -> extends s (set_isDestroyed v x).
Proof. intros H. quiet H. Qed.
Lemma ext_set_window s x v : extends s x -> extends s (set_window v x).
Proof. intros H. quiet H. Qed.
Lemma ext_set_sockets s x v : extends s x -> extends s (set_sockets v x).
Proof. intros H. quiet H. Qed.
Lemma ext_set_called s x v : extends s x -> extends s (set_called v x).
Proof. intros H. quiet H. Qed.
Lemma ext_set_frames s x v : extends s x -> extends s (set_frames v x).
Proof. intros H. quiet H. Qed.
Lemma ext_set_closeCalls s x v :
  extends s x -> extends s (set_closeCalls v x).
Proof. intros H. quiet H. Qed.

#[local] Hint Resolve ext_set_socket ext_set_isAuthenticated
  ext_set_messageQueue ext_set_metrics ext_set_heartbeat
  ext_set_reconnection ext_set_connectionTimeoutId
  ext_set_isManualDisconnect ext_set_isDestroyed ext_set_window
  ext_set_sockets ext_set_called ext_set_frames ext_set_closeCalls : ext.

Lemma ext_callUser s x c : extends s x -> extends s (callUser c x).
Proof. intros H. quiet H. Qed.

Lemma ext_recordError s x : extends s x -> extends s (recordError x).
Proof. intros H. quiet H. Qed.

Lemma ext_fold_left {B : Type} (f : t -> B -> t) s (l : list B) :
  (forall x b, extends s x -> extends s (f x b)) ->
  forall x, extends s x -> extends s (fold_left f l x).
Proof.
  intros Hf. induction l as [|b l IH]; intros x Hx; simpl; [exact Hx|].
  apply IH. now apply Hf.
Qed.

#[local] Hint Resolve ext_callUser ext_recordError : ext.

Lemma ext_clearConnectionTimeout s x :
  extends s x -> extends s (clearConnectionTimeout x).
Proof. intros H. unfold clearConnectionTimeout. continues H. Qed.

Lemma ext_stopHeartbeat s x : extends s x -> extends s (stopHeartbeat x).
Proof. intros H. quiet H. Qed.

#[local] Hint Resolve ext_clearConnectionTimeout ext_stopHeartbeat : ext.

Lemma ext_closeConnection s x now r :
  extends s x -> extends s (closeConnection now r x).
Proof. intros H. unfold closeConnection. continues H. Qed.

Lemma ext_handleConnectionError s x now r :
  extends s x -> extends s (handleConnectionError now r x).
Proof. apply ext_closeConnection. Qed.

#[local] Hint Resolve ext_closeConnection ext_handleConnectionError : ext.

Lemma ext_createConnection s x now :
  extends s x -> extends s (createConnection now x).
Proof. intros H. unfold createConnection. continues H. Qed.

#[local] Hint Resolve ext_createConnection : ext.

Lemma ext_connect s x y now :
  extends s x -> connect now x = Returned y -> extends s y.
Proof.
  intros H. unfold connect. split_tests; intros E; inversion E; subst;
    [exact H|]. continues H.
Qed.

Lemma ext_disconnect s x now : extends s x -> extends s (disconnect now x).
Proof. intros H. unfold disconnect. continues H. Qed.

Lemma ext_setAuthenticated s x now b :
  extends s x -> extends s (setAuthenticated now b x).
Proof. intros H. unfold setAuthenticated. continues H. Qed.

Lemma ext_clearQueue s x : extends s x -> extends s (clearQueue x).
Proof. intros H. unfold clearQueue. continues H. Qed.

#[local] Hint Resolve ext_disconnect ext_setAuthenticated ext_clearQueue : ext.

Lemma ext_destroy s x now : extends s x -> extends s (destroy now x).
Proof. intros H. unfold destroy. continues H. Qed.

#[local] Hint Resolve ext_destroy : ext.

Lemma ext_callOpt s x f c : extends s x -> extends s (callOpt f c x).
Proof. intros H. unfold callOpt. continues H. Qed.

Lemma ext_runQueueCalls s x calls :
  extends s x -> extends s (runQueueCalls calls x).
Proof.
  unfold runQueueCalls. apply ext_fold_left.
  intros y [f m] Hy. now apply ext_callUser.
Qed.

#[local] Hint Resolve ext_callOpt ext_runQueueCalls : ext.

Lemma ext_transmit s x y serialized :
  extends s x -> transmit serialized x = Returned y -> extends s y.
Proof.
  intros H. unfold transmit. split_tests; intros E; inversion E; subst;
    try (same H y).
  now apply ext_set_frames.
Qed.

Lemma ext_sendFailed s x now msg options :
  extends s x -> extends s (sendFailed now msg options x).1.
Proof. intros H. unfold sendFailed. cbn [fst]. continues H. Qed.

Lemma ext_send s x now command options :
  extends s x -> extends s (send now command options x).1.
Proof.
  intros H. unfold send.
  destruct (negb (bool_decide (state x = CONNECTED))).
  - destruct (negb (bool_decide (queue options = Some false))
              && negb (MessageQueue.isFull (messageQueue x))).
    + destruct (MessageQueue.enqueue now command (onSuccess options)
                  (onError options) (messageQueue x)) as [[q calls] b].
      cbn [fst]. continues H.
    + cbn [fst]. continues H.
  - destruct (serializeClientCommand command) as [serialized|msg];
      [|now apply ext_sendFailed].
    destruct (transmit serialized x) as [y|msg] eqn:Et;
      [|now apply ext_sendFailed].
    cbn [fst]. pose proof (ext_transmit s x y serialized H Et) as Hy.
    continues Hy.
Qed.

Lemma ext_flushQueue s x now : extends s x -> extends s (flushQueue now x).
Proof.
  intros H. unfold flushQueue.
  destruct (MessageQueue.isEmpty (messageQueue x)); [exact H|].
  destruct (MessageQueue.flush (messageQueue x)) as [q messages].
  apply ext_fold_left; [|now apply ext_set_messageQueue].
  intros y m Hy. now apply ext_send.
Qed.

Lemma ext_startHeartbeat s x : extends s x -> extends s (startHeartbeat x).
Proof. intros H. unfold startHeartbeat. continues H. Qed.

#[local] Hint Resolve ext_flushQueue ext_startHeartbeat : ext.

Lemma ext_runHeartbeatCall s now x c :
  extends s x -> extends s (runHeartbeatCall now x c).
Proof.
  intros H. unfold runHeartbeatCall.
  destruct c as [[] | [] | [] latency]; try (same H x).
  - destruct (sendPingResult x); try (same H x).
    destruct (transmit pingFrame x) as [y|msg] eqn:Et; [|exact H].
    exact (ext_transmit s x y pingFrame H Et).
  - now apply ext_handleConnectionError.
  - now apply ext_set_metrics.
Qed.

Lemma ext_heartbeatTick s x now : extends s x -> extends s (heartbeatTick now x).
Proof.
  intros H. unfold heartbeatTick.
  destruct (HeartbeatManager.sendHeartbeat now (sendPingResult x)
              (heartbeat x) (window x)) as [[h w] calls].
  apply ext_fold_left; [apply ext_runHeartbeatCall|].
  now apply ext_set_window, ext_set_heartbeat.
Qed.

Lemma ext_heartbeatTimeoutFires s x now :
  extends s x -> extends s (heartbeatTimeoutFires now x).
Proof.
  intros H. unfold heartbeatTimeoutFires.
  destruct (HeartbeatManager.handleHeartbeatTimeout (heartbeat x))
    as [h calls].
  apply ext_fold_left; [apply ext_runHeartbeatCall|].
  now apply ext_set_heartbeat.
Qed.

Lemma ext_handlePong s x now : extends s x -> extends s (handlePong now x).
Proof.
  intros H. unfold handlePong.
  destruct (HeartbeatManager.handlePong now (heartbeat x) (window x))
    as [[h w] calls].
  apply ext_fold_left; [apply ext_runHeartbeatCall|].
  now apply ext_set_window, ext_set_heartbeat.
Qed.

Lemma ext_runReconnectionCall s now x c :
  extends s x -> extends s (runReconnectionCall now x c).
Proof.
  intros H. unfold runReconnectionCall.
  destruct c as [[] | [] attempt maxAttempts delay | []]; try (same H x).
  - destruct (connect now x) as [y|msg] eqn:Ec; [|exact H].
    exact (ext_connect s x y now H Ec).
  - continues H.
  - continues H.
Qed.

Lemma ext_scheduleReconnect s x now :
  extends s x -> extends s (scheduleReconnect now x).
Proof.
  intros H. unfold scheduleReconnect. cbv zeta.
  destruct (ReconnectionManager.schedule ReconnectFn (Some OnAttemptFn)
              (Some OnMaxAttemptsReachedFn)
              (reconnection (setState now RECONNECTING x))
              (window (setState now RECONNECTING x))) as [[r w] calls].
  apply ext_fold_left; [apply ext_runReconnectionCall|].
  now apply ext_set_window, ext_set_reconnection, extends_setState.
Qed.

Lemma ext_reconnectTimerFires s x now :
  extends s x -> extends s (reconnectTimerFires now x).
Proof.
  intros H. unfold reconnectTimerFires.
  destruct (ReconnectionManager.executeReconnect (reconnection x))
    as [r calls].
  apply ext_fold_left; [apply ext_runReconnectionCall|].
  now apply ext_set_reconnection.
Qed.

#[local] Hint Resolve ext_handlePong ext_scheduleReconnect : ext.

Lemma ext_handleOpen s x now : extends s x -> extends s (handleOpen now x).
Proof. intros H. unfold handleOpen. continues H. Qed.

Lemma ext_handleMessage s x now event :
  extends s x -> extends s (handleMessage now event x).
Proof. intros H. unfold handleMessage. continues H. Qed.

Lemma ext_handleClose s x now event :
  extends s x -> extends s (handleClose now event x).
Proof. intros H. unfold handleClose. continues H. Qed.

Lemma ext_connectionTimeoutFires s x now :
  extends s x -> extends s (connectionTimeoutFires now x).
Proof. intros H. unfold connectionTimeoutFires. continues H. Qed.

Lemma ext_timerBody s x now tk :
  extends s x -> extends s (Execution.timerBody now tk x).
Proof.
  intros H. destruct tk; simpl.
  - now apply ext_connectionTimeoutFires.
  - now apply ext_heartbeatTick.
  - now apply ext_heartbeatTimeoutFires.
  - now apply ext_reconnectTimerFires.
Qed.

(** One input of an execution. *)
Lemma step_extends now i s s' : Execution.step now i s = Some s' -> extends s s'.
Proof.
  pose proof (extends_refl s) as H.
  destruct i; simpl.
  - destruct (connect now s) as [y|msg] eqn:Ec; intros E; inversion E; subst;
      [exact (ext_connect s s _ now H Ec)|exact H].
  - intros E; inversion E. now apply ext_disconnect.
  - intros E; inversion E. now apply ext_send.
  - intros E; inversion E. now apply ext_setAuthenticated.
  - intros E; inversion E. now apply ext_clearQueue.
  - intros E; inversion E. now apply ext_destroy.
  - destruct (Window.fire id (window s)) as [[tm w]|]; intros E; inversion E.
    now apply ext_timerBody, ext_set_window.
  - destruct (sockets s !! sid) as [[]|]; intros E; inversion E.
    now apply ext_handleOpen, ext_set_sockets.
  - destruct (sockets s !! sid) as [[]|]; intros E; inversion E.
    now apply ext_handleMessage.
  - destruct (sockets s !! sid) as [[]|]; intros E; inversion E; subst;
      exact H.
  - destruct (sockets s !! sid) as [[]|]; intros E; inversion E;
      now apply ext_handleClose, ext_set_sockets.
Qed.

Lemma run_extends inputs s s' : Execution.run inputs s = Some s' -> extends s s'.
Proof.
  revert s. induction inputs as [|[now i] rest IH]; intros s; simpl.
  - intros E; inversion E. apply extends_refl.
  - destruct (Execution.step now i s) as [s1|] eqn:Es; [|discriminate].
    intros Hr. exact (extends_trans _ _ _ (step_extends _ _ _ _ Es) (IH _ Hr)).
Qed.

End HandlersExtend.

(** ** WebSocketService: the close handler *)

(** Reading a field of an updated record. *)
Ltac fields :=
  cbn [WebSocketService.config WebSocketService.socket WebSocketService.state
       WebSocketService.isAuthenticated WebSocketService.messageQueue
       WebSocketService.metrics WebSocketService.heartbeat
       WebSocketService.reconnection WebSocketService.connectionTimeoutId
       WebSocketService.isManualDisconnect WebSocketService.isDestroyed
       WebSocketService.window WebSocketService.sockets
       WebSocketService.emitted WebSocketService.called
       WebSocketService.frames WebSocketService.closeCalls
       WebSocketService.set_socket WebSocketService.set_state
       WebSocketService.set_isAuthenticated WebSocketService.set_messageQueue
       WebSocketService.set_metrics WebSocketService.set_heartbeat
       WebSocketService.set_reconnection
       WebSocketService.set_connectionTimeoutId
       WebSocketService.set_isManualDisconnect
       WebSocketService.set_isDestroyed WebSocketService.set_window
       WebSocketService.set_sockets WebSocketService.set_emitted
       WebSocketService.set_called WebSocketService.set_frames
       WebSocketService.set_closeCalls
       WebSocketService.emit WebSocketService.callUser
       WebSocketService.recordError].

(** The same on a record that is given by its fields. *)
Ltac updates :=
  cbv [WebSocketService.config WebSocketService.socket WebSocketService.state
       WebSocketService.isAuthenticated WebSocketService.messageQueue
       WebSocketService.metrics WebSocketService.heartbeat
       WebSocketService.reconnection WebSocketService.connectionTimeoutId
       WebSocketService.isManualDisconnect WebSocketService.isDestroyed
       WebSocketService.window WebSocketService.sockets
       WebSocketService.emitted WebSocketService.called
       WebSocketService.frames WebSocketService.closeCalls
       WebSocketService.set_socket WebSocketService.set_state
       WebSocketService.set_isAuthenticated WebSocketService.set_messageQueue
       WebSocketService.set_metrics WebSocketService.set_heartbeat
       WebSocketService.set_reconnection
       WebSocketService.set_connectionTimeoutId
       WebSocketService.set_isManualDisconnect
       WebSocketService.set_isDestroyed WebSocketService.set_window
       WebSocketService.set_sockets WebSocketService.set_emitted
       WebSocketService.set_called WebSocketService.set_frames
       WebSocketService.set_closeCalls
       WebSocketService.emit WebSocketService.callUser
       WebSocketService.recordError].

Section HandlersAsUpdates.

Import WebSocketService.

(** [setState] as an update of two fields. *)
Lemma setState_update now st s :
  setState now st s
  = set_emitted (emitted s ++ stateChange now (state s) st) (set_state st s).
Proof.
  unfold setState, stateChange.
  destruct (decide (state s = st)) as [E|E]; [|reflexivity].
  destruct s; simpl in *. subst. now rewrite app_nil_r.
Qed.

(** [clearConnectionTimeout] writes the timer handle and the timers. *)
Lemma clearConnectionTimeout_update s :
  exists id w,
    clearConnectionTimeout s = set_connectionTimeoutId id (set_window w s).
Proof.
  unfold clearConnectionTimeout.
  destruct (connectionTimeoutId s) as [id|] eqn:E.
  - destruct (id =? 0)%nat.
    + exists (Some id), (window s). destruct s; simpl in *. now subst.
    + eexists _, _. reflexivity.
  - exists None, (window s). destruct s; simpl in *. now subst.
Qed.

Lemma stopHeartbeat_update s :
  stopHeartbeat s
  = set_window (HeartbeatManager.stop (heartbeat s) (window s)).2
      (set_heartbeat (HeartbeatManager.stop (heartbeat s) (window s)).1 s).
Proof. reflexivity. Qed.

(** [scheduleReconnect] as an update: the state, one of the two events
    of the reconnection manager, and the fields of the scheduling. *)
Lemma scheduleReconnect_update now s :
  exists m r w,
    scheduleReconnect now s
    = set_emitted
        (emitted s ++ stateChange now (state s) RECONNECTING
         ++ reconnectEvents now (reconnection s))
        (set_metrics m
           (set_window w (set_reconnection r (set_state RECONNECTING s)))).
Proof.
  unfold scheduleReconnect. cbv zeta.
  rewrite setState_update. fields.
  unfold ReconnectionManager.schedule, reconnectEvents.
  destruct s as [cfg so st au q m h r ct md de w ss evs ca fr cl]. fields.
  destruct (ReconnectionManager.attempts r
            >=? ReconnectionManager.maxAttempts
                  (ReconnectionManager.config r)).
  - exists m, r, w. cbn [fold_left runReconnectionCall]. updates.
    now rewrite <- app_assoc.
  - eexists _, _, _. cbn [fold_left runReconnectionCall fst snd
                          Window.setTimeout Window.arm
                          ReconnectionManager.orElse].
    updates. rewrite <- app_assoc. reflexivity.
Qed.

End HandlersAsUpdates.

(** C10.  After [handleClose] the authenticated flag is false, whatever it
    was.  The events the handler emits are: the [state_change] to CLOSED
    (when the state changes), the [disconnected] event, which carries the
    flag as it was before the handler ran, and the events of the scheduling
    of a reconnection; none of them is an [auth_change] event and only the
    one is a [disconnected] event. *)
Theorem handleClose_clears_authentication (now : Z) (event : CloseEvent)
    (s : WebSocketService.t) :
  let s' := WebSocketService.handleClose now event s in
  WebSocketService.isAuth s' = false
  /\ exists pre post,
       WebSocketService.emitted s'
       = WebSocketService.emitted s
         ++ pre
         ++ EvDisconnected
              (WebSocketService.closeReason
                 (WebSocketService.isManualDisconnect s) (code event))
              (code event) (reason event)
              (WebSocketService.isAuthenticated s) now
            :: post
       /\ Forall (fun e => isAuthChange e = false /\ isDisconnected e = false)
            (pre ++ post).
Proof.
  unfold WebSocketService.isAuth, WebSocketService.handleClose. cbv zeta.
  destruct (clearConnectionTimeout_update s) as (id & w & ->).
  rewrite stopHeartbeat_update, !setState_update. fields.
  assert (Hok : forall from to,
             Forall (fun e => isAuthChange e = false /\ isDisconnected e = false)
               (stateChange now from to)).
  { intros from to. unfold stateChange. destruct (decide (from = to));
      repeat constructor. }
  destruct (negb (WebSocketService.isManualDisconnect s)
            && WebSocketService.autoReconnect (WebSocketService.config s)).
  - match goal with
    | |- context [WebSocketService.scheduleReconnect now ?x] =>
        destruct (scheduleReconnect_update now x) as (m & r & w' & ->)
    end.
    fields. split; [reflexivity|].
    exists (stateChange now (WebSocketService.state s) CLOSED).
    eexists. split.
    + rewrite <- !app_assoc. reflexivity.
    + apply Forall_app. split; [apply Hok|].
      apply Forall_app. split; [apply Hok|].
      unfold reconnectEvents.
      destruct (_ >=? _); repeat constructor.
  - fields. split; [reflexivity|].
    exists (stateChange now (WebSocketService.state s) CLOSED), [].
    split.
    + rewrite <- !app_assoc. reflexivity.
    + rewrite app_nil_r. apply Hok.
Qed.

(** ** WebSocketService: the reconnection manager after a successful open *)

Section ReconnectionFrame.

Import WebSocketService.

Lemma fold_left_keeps {A B : Type} (P : t -> A) (f : t -> B -> t)
    (l : list B) :
  (forall x b, P (f x b) = P x) -> forall x, P (fold_left f l x) = P x.
Proof.
  intros Hf. induction l as [|b l IH]; intros x; simpl; [reflexivity|].
  now rewrite IH, Hf.
Qed.

Lemma reconnection_callOpt f c x :
  reconnection (callOpt f c x) = reconnection x.
Proof. unfold callOpt. now destruct f. Qed.

Lemma reconnection_runQueueCalls calls x :
  reconnection (runQueueCalls calls x) = reconnection x.
Proof.
  unfold runQueueCalls. apply fold_left_keeps. now intros y [f m].
Qed.

Lemma reconnection_transmit serialized x y :
  transmit serialized x = Returned y -> reconnection y = reconnection x.
Proof.
  unfold transmit. destruct (socket x) as [sid|]; [|now intros [= <-]].
  destruct (WebSocket.send sid (sockets x)); intros E; inversion E;
    reflexivity.
Qed.

Lemma reconnection_sendFailed now msg options x :
  reconnection (sendFailed now msg options x).1 = reconnection x.
Proof. unfold sendFailed. cbn [fst]. now rewrite reconnection_callOpt. Qed.

Lemma reconnection_send now command options x :
  reconnection (send now command options x).1 = reconnection x.
Proof.
  unfold send.
  destruct (negb (bool_decide (state x = CONNECTED))).
  - destruct (negb (bool_decide (queue options = Some false))
              && negb (MessageQueue.isFull (messageQueue x))).
    + destruct (MessageQueue.enqueue now command (onSuccess options)
                  (onError options) (messageQueue x)) as [[q calls] b].
      cbn [fst]. now rewrite reconnection_runQueueCalls.
    + cbn [fst]. now rewrite reconnection_callOpt.
  - destruct (serializeClientCommand command) as [serialized|msg];
      [|apply reconnection_sendFailed].
    destruct (transmit serialized x) as [y|msg] eqn:Et;
      [|apply reconnection_sendFailed].
    cbn [fst]. rewrite reconnection_callOpt. fields.
    exact (reconnection_transmit _ _ _ Et).
Qed.

Lemma reconnection_flushQueue now x :
  reconnection (flushQueue now x) = reconnection x.
Proof.
  unfold flushQueue.
  destruct (MessageQueue.isEmpty (messageQueue x)); [reflexivity|].
  destruct (MessageQueue.flush (messageQueue x)) as [q messages].
  rewrite (fold_left_keeps reconnection); [reflexivity|].
  intros y m. apply reconnection_send.
Qed.

Lemma reconnection_startHeartbeat x :
  reconnection (startHeartbeat x) = reconnection x.
Proof.
  unfold startHeartbeat.
  destruct (negb (HeartbeatManager.enabled (heartbeat x))); [reflexivity|].
  now destruct (HeartbeatManager.start _ _ _ _ _).
Qed.

(** [handleOpen] resets the reconnection manager it finds. *)
Lemma reconnection_handleOpen now s :
  reconnection (handleOpen now s)
  = (ReconnectionManager.reset (reconnection s) (window s)).1.
Proof.
  unfold handleOpen. cbv zeta.
  match goal with
  | |- context [ReconnectionManager.reset ?r ?w] =>
      assert (Er : (ReconnectionManager.reset r w).1
                   = (ReconnectionManager.reset (reconnection s) (window s)).1);
      [|destruct (ReconnectionManager.reset r w) as [r' w']]
  end.
  - destruct (clearConnectionTimeout_update s) as (id & w0 & ->).
    rewrite setState_update.
    destruct (_ >? 0); fields; reflexivity.
  - rewrite reconnection_flushQueue, reconnection_startHeartbeat. fields.
    exact Er.
Qed.

End ReconnectionFrame.

(** C8.  At the limit ([attempts >= maxAttempts]) [schedule] calls the
    exhaustion callback (the one it is given, else the stored one) and
    returns the manager and the timers as they were: no timer is armed, and
    the attempt count and the current delay are unchanged.  After
    [handleOpen], the handler of a successful connection, the attempt count
    of the service is 0, its current delay is the configured initial delay,
    and no reconnection timer is referred to. *)
Theorem schedule_at_limit_and_reset {CB : Type} (f : CB) (a m : option CB)
    (g : CB) (r : ReconnectionManager.t CB) (w : Window.t)
    (now : Z) (s : WebSocketService.t) :
  ReconnectionManager.maxAttempts (ReconnectionManager.config r)
  <= ReconnectionManager.attempts r ->
  ReconnectionManager.orElse m (ReconnectionManager.onMaxAttemptsReached r)
  = Some g ->
  ReconnectionManager.schedule f a m r w
  = (r, w, [ReconnectionManager.CallOnMaxAttemptsReached g])
  /\ (let r' := WebSocketService.reconnection (WebSocketService.handleOpen now s) in
      ReconnectionManager.attempts r' = 0
      /\ ReconnectionManager.currentDelay r'
         = ReconnectionManager.initialDelay
             (ReconnectionManager.config (WebSocketService.reconnection s))
      /\ ReconnectionManager.config r'
         = ReconnectionManager.config (WebSocketService.reconnection s)
      /\ ReconnectionManager.timeoutId r' = None
      /\ ReconnectionManager.isScheduled r' = false).
Proof.
  intros Hlimit Hg. split.
  - exact (schedule_refused f a m g r w Hlimit Hg).
  - cbv zeta. rewrite reconnection_handleOpen.
    destruct (reset_state (WebSocketService.reconnection s)
                (WebSocketService.window s)) as (Hc & Ha & Hd & Ht & Hs).
    repeat split; assumption.
Qed.

(** The scenario of the specification: after three failures the manager of
    the service is at its limit of 3 and [schedule] is refused; a
    connection that then opens resets the manager. *)
Lemma schedule_at_limit_and_reset_witness :
  let s := after Scenario.threeAttempts (removelast Scenario.fourFailures) in
  let r := WebSocketService.reconnection s in
  ReconnectionManager.attempts r = 3
  /\ ReconnectionManager.schedule ReconnectFn (Some OnAttemptFn)
       (Some OnMaxAttemptsReachedFn) r (WebSocketService.window s)
     = (r, WebSocketService.window s,
        [ReconnectionManager.CallOnMaxAttemptsReached OnMaxAttemptsReachedFn])
  /\ (let r' :=
        WebSocketService.reconnection (WebSocketService.handleOpen 800 s) in
      ReconnectionManager.attempts r' = 0
      /\ ReconnectionManager.currentDelay r' = 100
      /\ ReconnectionManager.timeoutId r' = None).
Proof.
  intros s r.
  destruct (schedule_at_limit_and_reset ReconnectFn (Some OnAttemptFn)
              (Some OnMaxAttemptsReachedFn) OnMaxAttemptsReachedFn r
              (WebSocketService.window s) 800 s)
    as (Hs & Ha & Hd & _ & Ht & _).
  - vm_compute. discriminate.
  - reflexivity.
  - split; [reflexivity|]. split; [exact Hs|].
    split; [exact Ha|]. split; [exact Hd|exact Ht].
Defined.

(** ** Executions: the trace and the state *)

Section ExecutionInvariants.

Import WebSocketService.

(** In every execution the [state_change] events of the trace lead, one
    change after the other, from CLOSED to the current state: every
    change of the state is in the trace once, and no event reports a
    change to the same state.  No [disconnected] event of the trace
    carries the reason TIMEOUT. *)
Lemma reachable_trace (c : Config) (s : t) :
  Execution.reachable c s ->
  follow CLOSED (emitted s) = Some (state s)
  /\ Forall (fun e => isTimeoutDisconnect e = false) (emitted s).
Proof.
  intros [inputs Hrun].
  destruct (run_extends _ _ _ Hrun) as (evs & Hev & Hf & Hok).
  simpl in Hev. rewrite Hev. split; assumption.
Qed.

(** At the limit [scheduleReconnect] leaves the state RECONNECTING. *)
Lemma scheduleReconnect_at_limit now s :
  ReconnectionManager.maxAttempts (ReconnectionManager.config (reconnection s))
  <= ReconnectionManager.attempts (reconnection s) ->
  scheduleReconnect now s
  = emit (EvError "connection" "Maximum reconnection attempts exceeded" now)
      (setState now RECONNECTING s).
Proof.
  intros Hlimit. unfold scheduleReconnect. cbv zeta.
  rewrite setState_update. fields.
  rewrite (schedule_refused ReconnectFn (Some OnAttemptFn)
             (Some OnMaxAttemptsReachedFn) OnMaxAttemptsReachedFn
             (reconnection s) (window s) Hlimit eq_refl).
  destruct s. reflexivity.
Qed.

Lemma handleClose_at_limit now event s :
  isManualDisconnect s = false ->
  autoReconnect (config s) = true ->
  ReconnectionManager.maxAttempts (ReconnectionManager.config (reconnection s))
  <= ReconnectionManager.attempts (reconnection s) ->
  let s' := handleClose now event s in
  state s' = RECONNECTING
  /\ last (emitted s')
     = Some (EvError "connection" "Maximum reconnection attempts exceeded" now)
  /\ reconnection s' = reconnection s.
Proof.
  intros Hmanual Hauto Hlimit.
  unfold handleClose. cbv zeta.
  destruct (clearConnectionTimeout_update s) as (id & w & ->).
  rewrite stopHeartbeat_update, setState_update. fields.
  rewrite Hmanual, Hauto. cbn [negb andb].
  rewrite scheduleReconnect_at_limit by (fields; exact Hlimit).
  rewrite setState_update. fields.
  repeat split. apply last_snoc.
Qed.

End ExecutionInvariants.

(** C1, on the code.  A connect timeout and a heartbeat timeout both end in
    [closeConnection], which hands the reason TIMEOUT to [socket.close] and
    emits no [disconnected] event; the event is emitted when the close
    event of the socket arrives, with the reason that [handleClose] derives
    from the close code: NETWORK_ERROR after the connect timeout (code
    1006), SERVER_CLOSED after the heartbeat timeout (code 1000), never
    TIMEOUT. *)
Theorem timeout_disconnect_reason :
  (let s := after WebSocketService.DEFAULT_CONFIG Scenario.connectTimeout in
   WebSocketService.closeCalls s = [(0%nat, 1000, TIMEOUT)]
   /\ WebSocketService.emitted s
      = [EvStateChange CLOSED CONNECTING 0;
         EvStateChange CONNECTING CLOSED 10000;
         EvDisconnected NETWORK_ERROR 1006 "" false 10005;
         EvStateChange CLOSED RECONNECTING 10005;
         EvReconnectAttempt 1 10 1000 10005])
  /\ (let s := after Scenario.heartbeatConfig Scenario.heartbeatTimeout in
      WebSocketService.closeCalls s = [(0%nat, 1000, TIMEOUT)]
      /\ WebSocketService.emitted s
         = [EvStateChange CLOSED CONNECTING 0;
            EvStateChange CONNECTING CONNECTED 50;
            EvConnected 50 0;
            EvStateChange CONNECTED CLOSED 40050;
            EvDisconnected SERVER_CLOSED 1000 "TIMEOUT" false 40060;
            EvStateChange CLOSED RECONNECTING 40060;
            EvReconnectAttempt 1 10 1000 40060]).
Proof. cbv zeta. split; split; vm_compute; reflexivity. Qed.

(** In no execution does a [disconnected] event carry the reason TIMEOUT. *)
Lemma never_disconnected_by_timeout (c : WebSocketService.Config)
    (s : WebSocketService.t) (code : Z) (reasonText : string)
    (wasAuthenticated : bool) (timestamp : Z) :
  Execution.reachable c s ->
  ~ In (EvDisconnected TIMEOUT code reasonText wasAuthenticated timestamp)
       (WebSocketService.emitted s).
Proof.
  intros Hreach Hin.
  destruct (reachable_trace c s Hreach) as [_ Hok].
  rewrite Forall_forall in Hok.
  apply list_elem_of_In in Hin. specialize (Hok _ Hin). discriminate.
Qed.

(** C3, on the code.  The scenario of the specification: four connections
    in a row fail with a limit of 3 attempts.  The fourth failure reaches
    the limit: the error event is emitted, no timer is pending, and the
    state is RECONNECTING, the state that [scheduleReconnect] sets before
    it asks the reconnection manager. *)
Theorem exhaustion_leaves_RECONNECTING :
  let s := after Scenario.threeAttempts Scenario.fourFailures in
  WebSocketService.state s = RECONNECTING
  /\ WebSocketService.emitted s
     = [EvStateChange CLOSED CONNECTING 0;
        EvStateChange CONNECTING CLOSED 10;
        EvDisconnected NETWORK_ERROR 1006 "" false 10;
        EvStateChange CLOSED RECONNECTING 10;
        EvReconnectAttempt 1 3 100 10;
        EvStateChange RECONNECTING CONNECTING 110;
        EvStateChange CONNECTING CLOSED 120;
        EvDisconnected NETWORK_ERROR 1006 "" false 120;
        EvStateChange CLOSED RECONNECTING 120;
        EvReconnectAttempt 2 3 200 120;
        EvStateChange RECONNECTING CONNECTING 320;
        EvStateChange CONNECTING CLOSED 330;
        EvDisconnected NETWORK_ERROR 1006 "" false 330;
        EvStateChange CLOSED RECONNECTING 330;
        EvReconnectAttempt 3 3 400 330;
        EvStateChange RECONNECTING CONNECTING 730;
        EvStateChange CONNECTING CLOSED 740;
        EvDisconnected NETWORK_ERROR 1006 "" false 740;
        EvStateChange CLOSED RECONNECTING 740;
        EvError "connection" "Maximum reconnection attempts exceeded" 740]
  /\ Window.timers (WebSocketService.window s) = ∅.
Proof. cbv zeta. split; [|split]; vm_compute; reflexivity. Qed.

(** C6, on the code.  [disconnect()] and [connect()] are called one after
    the other while the first socket is connecting, with automatic
    reconnection switched off.  The close event of the first socket
    reaches [handleClose] when the second socket is already connecting and
    sets the state to CLOSED; when the second socket opens, [handleOpen]
    sets the state from CLOSED to CONNECTED. *)
Theorem stale_close_skips_CONNECTING :
  let s := after Scenario.noAutoReconnect Scenario.staleClose in
  Execution.run Scenario.staleClose
    (WebSocketService.new Scenario.noAutoReconnect) = Some s
  /\ WebSocketService.emitted s
     = [EvStateChange CLOSED CONNECTING 0;
        EvStateChange CONNECTING CLOSED 20;
        EvStateChange CLOSED CONNECTING 20;
        EvStateChange CONNECTING CLOSED 25;
        EvDisconnected NETWORK_ERROR 1006 "" false 25;
        EvStateChange CLOSED CONNECTED 60;
        EvConnected 60 0]
  /\ existsb (reportsTransition CLOSED CONNECTED) (WebSocketService.emitted s)
     = true.
Proof. cbv zeta. split; [|split]; vm_compute; reflexivity. Qed.

(** The second half of C6 holds in every execution: the [state_change]
    events of the trace are exactly the changes of the state, one event
    for every change and none for a state set to its current value. *)
Lemma state_changes_follow_state (c : WebSocketService.Config)
    (s : WebSocketService.t) :
  Execution.reachable c s ->
  follow CLOSED (WebSocketService.emitted s) = Some (WebSocketService.state s).
Proof. intros H. exact (proj1 (reachable_trace c s H)). Qed.

(** C7, on the code.  [sendHeartbeat] stores the handle of the new timeout
    over the handle of the previous one without clearing it ([stop] and
    [handlePong] clear before they overwrite).  With a timeout longer than
    the interval, the timeout of the first probe (timer 2) is still pending
    when the second probe is sent; the acknowledgment clears only the
    timeout of the second probe (timer 3), and the timeout of the first
    one fires although the acknowledgment arrived 1500 ms after that probe,
    within its 5000 ms.  In the service this closes the live connection. *)
Theorem acknowledged_probe_times_out :
  HeartbeatManager.timeoutId TwoProbes.first.1.1 = Some 2%nat
  /\ HeartbeatManager.timeoutId TwoProbes.second.1.1 = Some 3%nat
  /\ TwoProbes.acknowledged.2 = [HeartbeatManager.CallOnPong 3%nat 500]
  /\ Window.pending 3 TwoProbes.acknowledged.1.2 = None
  /\ Window.pending 2 TwoProbes.acknowledged.1.2
     = Some (Window.mkTimer Window.HeartbeatTimeout 5000 false)
  /\ (HeartbeatManager.handleHeartbeatTimeout TwoProbes.acknowledged.1.1).2
     = [HeartbeatManager.CallOnTimeout 2%nat]
  /\ (let s := after Scenario.frequentHeartbeat Scenario.lateAcknowledgment in
      Execution.run Scenario.lateAcknowledgment
        (WebSocketService.new Scenario.frequentHeartbeat) = Some s
      /\ WebSocketService.state s = CLOSED
      /\ WebSocketService.emitted s
         = [EvStateChange CLOSED CONNECTING 0;
            EvStateChange CONNECTING CONNECTED 10;
            EvConnected 10 0;
            EvStateChange CONNECTED CLOSED 6010]
      /\ ConnectionMetrics.lastLatency (WebSocketService.metrics s) = 490).
Proof.
  cbv zeta.
  repeat match goal with |- _ /\ _ => split end; vm_compute; reflexivity.
Qed.

(** The transition from CLOSED to CONNECTED is also reached with the
    default configuration: after the stale close event the reconnection
    timer (timer 3) replaces the second socket by a third one without
    closing it; [disconnect()] closes the third socket, and the second one
    opens. *)
Example stale_close_default_config :
  let inputs :=
    [(0, Execution.Connect); (20, Execution.Disconnect);
     (20, Execution.Connect);
     (25, Execution.SocketCloses 0 Scenario.abnormal);
     (1025, Execution.TimerFires 3); (1030, Execution.Disconnect);
     (1060, Execution.SocketOpens 1)] in
  existsb (reportsTransition CLOSED CONNECTED)
    (WebSocketService.emitted (after WebSocketService.DEFAULT_CONFIG inputs))
  = true.
Proof. vm_compute. reflexivity. Qed.

(** * Further properties of the components *)

(** ** MessageQueue: sequences of operations *)

Section LastN.

Context {A : Type}.
Implicit Types (l : list A).

Lemma lastN_short n l : (length l <= n)%nat -> lastN n l = l.
Proof.
  intros H. unfold lastN. replace (length l - n)%nat with 0%nat by lia.
  reflexivity.
Qed.

Lemma lastN_length n l : length (lastN n l) = Nat.min n (length l).
Proof. unfold lastN. rewrite length_drop. lia. Qed.

(** Appending to the last [n] elements, and keeping the last [n] again. *)
Lemma lastN_snoc n l x :
  (1 <= n)%nat ->
  lastN n (l ++ [x])
  = if (length (lastN n l) <? n)%nat then lastN n l ++ [x]
    else drop 1 (lastN n l) ++ [x].
Proof.
  intros Hn. rewrite lastN_length.
  destruct (Nat.ltb_spec (Nat.min n (length l)) n) as [Hlt|Hge].
  - assert (Hl : (length l < n)%nat) by lia.
    rewrite (lastN_short n l) by lia.
    apply lastN_short. rewrite length_app; simpl. lia.
  - assert (Hl : (n <= length l)%nat) by lia.
    unfold lastN. rewrite length_app; simpl.
    rewrite drop_drop.
    replace (length l + 1 - n)%nat with (length l - n + 1)%nat by lia.
    apply drop_app_le. lia.
Qed.

End LastN.

Section QueueSequences.

Context {Command CB : Type}.
Import MessageQueue.

Implicit Types (q : MessageQueue.t Command CB).

Lemma enqueue_config now c onS onE q :
  config (enqueue now c onS onE q).1.1 = config q.
Proof.
  unfold enqueue. destruct (size q >=? maxSize (config q));
    [destruct (shift (queue q))|]; reflexivity.
Qed.

(** The queue after one [enqueue], in one formula. *)
Lemma enqueue_queue now c onS onE q :
  1 <= maxSize (config q) ->
  queue (enqueue now c onS onE q).1.1
  = (if size q <? maxSize (config q) then queue q else drop 1 (queue q))
    ++ [mkMessage c now 0 onS onE].
Proof.
  intros Hcap.
  destruct (Z.ltb_spec (size q) (maxSize (config q))) as [Hlt|Hge].
  - now rewrite (enqueue_below _ _ _ _ _ Hlt).
  - destruct (queue q) as [|oldest rest] eqn:E.
    + unfold size in Hge. rewrite E in Hge. simpl in Hge. lia.
    + now rewrite (enqueue_overflow now c onS onE q oldest rest Hge E).
Qed.

Lemma enqueueAll_config ms q :
  config (QueueOps.enqueueAll ms q) = config q.
Proof.
  unfold QueueOps.enqueueAll. revert q.
  induction ms as [|m ms IH]; intros q; simpl; [reflexivity|].
  now rewrite IH, enqueue_config.
Qed.

End QueueSequences.

(** X1.  Messages enqueued one after the other into a queue of capacity
    [N >= 1] that holds at most [N] entries leave the last [N] of the old
    entries followed by the new ones, in their order: the queue is a
    sliding window over what was enqueued. *)
Theorem enqueueAll_sliding_window {Command CB : Type}
    (ms : list (MessageQueue.QueuedMessage Command CB))
    (q : MessageQueue.t Command CB) :
  1 <= MessageQueue.maxSize (MessageQueue.config q) ->
  MessageQueue.size q <= MessageQueue.maxSize (MessageQueue.config q) ->
  MessageQueue.queue (QueueOps.enqueueAll ms q)
  = lastN (Z.to_nat (MessageQueue.maxSize (MessageQueue.config q)))
      (MessageQueue.queue q ++ map asEnqueued ms).
Proof.
  intros Hcap Hsize.
  induction ms as [|m ms IH] using rev_ind.
  - simpl. rewrite app_nil_r. symmetry. apply lastN_short.
    unfold MessageQueue.size in Hsize. lia.
  - unfold QueueOps.enqueueAll in *. rewrite fold_left_app. simpl.
    rewrite enqueue_queue by (fold (QueueOps.enqueueAll ms q);
                              now rewrite enqueueAll_config).
    fold (QueueOps.enqueueAll ms q).
    rewrite enqueueAll_config. fold (QueueOps.enqueueAll ms q) in IH.
    rewrite map_app, app_assoc. simpl.
    rewrite lastN_snoc by lia.
    unfold MessageQueue.size. rewrite IH.
    set (n := Z.to_nat (MessageQueue.maxSize (MessageQueue.config q))).
    set (l := lastN n (MessageQueue.queue q ++ map asEnqueued ms)).
    destruct (Z.ltb_spec (Z.of_nat (length l))
                (MessageQueue.maxSize (MessageQueue.config q)));
      destruct (Nat.ltb_spec (length l) n); try reflexivity; lia.
Qed.

(** The scenario of the specification: A, B and C into the empty queue of
    capacity 2. *)
Lemma enqueueAll_sliding_window_witness :
  let ms :=
    [MessageQueue.mkMessage "A"%string 1 0 (Some 10%nat) (Some 11%nat);
     MessageQueue.mkMessage "B"%string 2 0 (Some 20%nat) (Some 21%nat);
     MessageQueue.mkMessage "C"%string 3 0 None None] in
  MessageQueue.queue
    (QueueOps.enqueueAll ms (MessageQueue.new (MessageQueue.mkConfig 2)))
  = lastN 2 ([] ++ map asEnqueued ms).
Proof.
  intros ms.
  apply (enqueueAll_sliding_window ms
           (MessageQueue.new (MessageQueue.mkConfig 2)));
    vm_compute; discriminate.
Defined.

Section QueueDrain.

Context {Command CB : Type}.
Import MessageQueue.

Lemma drain_all (l : list (QueuedMessage Command CB)) cfg fuel :
  (length l <= fuel)%nat ->
  QueueOps.drain fuel (mk l cfg) = (l, mk [] cfg).
Proof.
  revert l. induction fuel as [|fuel IH]; intros l Hl.
  - destruct l; [reflexivity|simpl in Hl; lia].
  - destruct l as [|m l]; [reflexivity|].
    cbn [QueueOps.drain dequeue shift queue config].
    rewrite IH by (simpl in Hl; lia). reflexivity.
Qed.

(** Every operation keeps the capacity, and keeps the size within it. *)
Lemma apply_bounded (q : MessageQueue.t Command CB) (o : QueueOps.Op Command CB) :
  1 <= maxSize (config q) ->
  size q <= maxSize (config q) ->
  config (QueueOps.apply q o) = config q
  /\ size (QueueOps.apply q o) <= maxSize (config q).
Proof.
  intros Hcap Hsize. destruct o as [now c onS onE| | |b|]; simpl.
  - split; [apply enqueue_config|].
    rewrite enqueue_size by assumption. lia.
  - unfold dequeue. destruct (queue q) as [|m l] eqn:E; simpl.
    + split; [reflexivity|]. unfold size; simpl. lia.
    + split; [reflexivity|]. unfold size in *; rewrite E in Hsize;
        simpl in *. lia.
  - split; [reflexivity|]. unfold size; simpl. lia.
  - split; [reflexivity|]. unfold size; simpl. lia.
  - split; [reflexivity|assumption].
Qed.

End QueueDrain.

(** X2.  Calling [dequeue] until it returns [undefined] yields the entries
    in the order in which [flush] returns them, the oldest first, and
    leaves the queue as [flush] leaves it: empty, with its capacity. *)
Theorem drain_is_flush {Command CB : Type} (q : MessageQueue.t Command CB)
    (fuel : nat) :
  (length (MessageQueue.queue q) <= fuel)%nat ->
  QueueOps.drain fuel q = ((MessageQueue.flush q).2, (MessageQueue.flush q).1)
  /\ (MessageQueue.flush q).2 = MessageQueue.queue q
  /\ MessageQueue.isEmpty (MessageQueue.flush q).1 = true
  /\ (MessageQueue.flush (MessageQueue.flush q).1).2 = [].
Proof.
  intros Hfuel. destruct q as [l cfg]. simpl in Hfuel.
  rewrite (drain_all l cfg fuel Hfuel). repeat split.
Qed.

Lemma drain_is_flush_witness :
  QueueOps.drain 5 queueAB
  = ((MessageQueue.flush queueAB).2, (MessageQueue.flush queueAB).1)
  /\ (MessageQueue.flush queueAB).2 = MessageQueue.queue queueAB
  /\ MessageQueue.isEmpty (MessageQueue.flush queueAB).1 = true
  /\ (MessageQueue.flush (MessageQueue.flush queueAB).1).2 = [].
Proof.
  apply (drain_is_flush queueAB 5). vm_compute. lia.
Defined.

(** X3.  With a capacity of at least 1, no sequence of [enqueue],
    [dequeue], [flush], [clear] and [peek] lets the queue hold more entries
    than its capacity, and none changes the capacity. *)
Theorem queue_never_exceeds_capacity {Command CB : Type}
    (ops : list (QueueOps.Op Command CB)) (q : MessageQueue.t Command CB) :
  1 <= MessageQueue.maxSize (MessageQueue.config q) ->
  MessageQueue.size q <= MessageQueue.maxSize (MessageQueue.config q) ->
  MessageQueue.config (QueueOps.run ops q) = MessageQueue.config q
  /\ MessageQueue.size (QueueOps.run ops q)
     <= MessageQueue.maxSize (MessageQueue.config q).
Proof.
  revert q. induction ops as [|o ops IH]; intros q Hcap Hsize; simpl.
  - split; [reflexivity|assumption].
  - destruct (apply_bounded q o Hcap Hsize) as [Hc Hs].
    destruct (IH (QueueOps.apply q o)) as [Hc' Hs'];
      [now rewrite Hc|now rewrite Hc|].
    unfold QueueOps.run in *. rewrite Hc', Hc in *. now split.
Qed.

Lemma queue_never_exceeds_capacity_witness :
  let ops :=
    [QueueOps.Enqueue 3 "C"%string None (Some 31%nat); QueueOps.Peek;
     QueueOps.Dequeue; QueueOps.Enqueue 4 "D"%string None None;
     QueueOps.Enqueue 5 "E"%string None None; QueueOps.Clear true;
     QueueOps.Enqueue 6 "F"%string None None; QueueOps.Flush] in
  MessageQueue.config (QueueOps.run ops queueAB) = MessageQueue.config queueAB
  /\ MessageQueue.size (QueueOps.run ops queueAB)
     <= MessageQueue.maxSize (MessageQueue.config queueAB).
Proof.
  intros ops. apply (queue_never_exceeds_capacity ops queueAB);
    vm_compute; discriminate.
Defined.

(** ** Binary64: the floor of a product

    The product of [schedule] is rounded to the nearest binary64 number
    before it is rounded down.  Neither rounding goes below an integer
    that binary64 holds and that the exact product is not below. *)

Section Binary64.

Lemma scaledGe_shift d m e k :
  0 <= k -> 0 <= k + e ->
  Double.scaledGe d m e <-> d * 2 ^ k <= m * 2 ^ (k + e).
Proof.
  intros Hk Hke. unfold Double.scaledGe.
  assert (P : forall a, 0 <= a -> 0 < 2 ^ a)
    by (intros; apply Z.pow_pos_nonneg; lia).
  destruct (Z.le_ge_cases 0 e) as [He|He].
  - rewrite (Z.max_l 0 (- e)), (Z.max_r 0 e) by lia.
    rewrite Z.pow_0_r, Z.mul_1_r.
    rewrite Z.pow_add_r by lia.
    pose proof (P k Hk). split; intros; nia.
  - rewrite (Z.max_r 0 (- e)), (Z.max_l 0 e) by lia.
    rewrite Z.pow_0_r, Z.mul_1_r.
    replace k with ((k + e) + - e) at 1 by lia.
    rewrite Z.pow_add_r by lia.
    pose proof (P (k + e) Hke). split; intros; nia.
Qed.

Lemma scaledGe_mono d m m' e :
  m <= m' -> Double.scaledGe d m e -> Double.scaledGe d m' e.
Proof.
  unfold Double.scaledGe. intros Hm H.
  assert (0 < 2 ^ Z.max 0 e) by (apply Z.pow_pos_nonneg; lia). nia.
Qed.

Lemma scaledGe_pos d m e : 0 < d -> Double.scaledGe d m e -> 0 < m.
Proof.
  unfold Double.scaledGe. intros Hd H.
  assert (0 < 2 ^ Z.max 0 e) by (apply Z.pow_pos_nonneg; lia).
  assert (0 < 2 ^ Z.max 0 (- e)) by (apply Z.pow_pos_nonneg; lia).
  nia.
Qed.

Lemma scaledGe_mul d m1 e1 m2 e2 :
  0 <= d -> 0 <= m2 ->
  Double.scaledGe d m1 e1 -> Double.scaledGe 1 m2 e2 ->
  Double.scaledGe d (m1 * m2) (e1 + e2).
Proof.
  intros Hd Hm2 H1 H2.
  apply (scaledGe_shift d m1 e1 (Z.max 0 (- e1))) in H1; [|lia|lia].
  apply (scaledGe_shift 1 m2 e2 (Z.max 0 (- e2))) in H2; [|lia|lia].
  apply (scaledGe_shift d (m1 * m2) (e1 + e2)
           (Z.max 0 (- e1) + Z.max 0 (- e2))); [lia|lia|].
  replace (Z.max 0 (- e1) + Z.max 0 (- e2) + (e1 + e2))
    with ((Z.max 0 (- e1) + e1) + (Z.max 0 (- e2) + e2)) by lia.
  rewrite !Z.pow_add_r by lia.
  assert (0 < 2 ^ Z.max 0 (- e1)) by (apply Z.pow_pos_nonneg; lia).
  assert (0 < 2 ^ Z.max 0 (- e2)) by (apply Z.pow_pos_nonneg; lia).
  assert (0 < 2 ^ (Z.max 0 (- e2) + e2)) by (apply Z.pow_pos_nonneg; lia).
  assert (0 < 2 ^ (Z.max 0 (- e1) + e1)) by (apply Z.pow_pos_nonneg; lia).
  nia.
Qed.

(** The number of bits of a significand. *)
Lemma digits2_pos_size p : digits2_pos p = Pos.size p.
Proof. induction p; simpl; congruence. Qed.

Lemma Zdigits2_bounds m :
  0 < m -> 2 ^ (Zdigits2 m - 1) <= m < 2 ^ Zdigits2 m.
Proof.
  destruct m as [|p|p]; try lia. intros _. cbn [Zdigits2].
  rewrite digits2_pos_size.
  pose proof (Pos.size_gt p) as Hgt. pose proof (Pos.size_le p) as Hle.
  apply Pos2Z.pos_lt_pos in Hgt. apply Pos2Z.pos_le_pos in Hle.
  rewrite Pos2Z.inj_pow in Hgt, Hle.
  change (Z.pos 2) with 2 in *.
  split; [|exact Hgt].
  replace (Z.pos (Pos.size p)) with (Z.succ (Z.pos (Pos.size p) - 1)) in Hle
    by lia.
  rewrite Z.pow_succ_r in Hle by lia.
  change (Z.pos p~0) with (2 * Z.pos p) in Hle. lia.
Qed.

(** Shifting a significand to the right. *)
Lemma shr_m_shr_1 r : 0 <= shr_m r -> shr_m (shr_1 r) = shr_m r / 2.
Proof.
  destruct r as [m rb sb]. cbn [shr_m]. intros Hm.
  destruct m as [|[p|p|]|p]; cbn [shr_1 shr_m]; try lia; try reflexivity.
  - change (Z.pos p~1) with (2 * Z.pos p + 1).
    apply Z.div_unique with 1; lia.
  - change (Z.pos p~0) with (2 * Z.pos p).
    apply Z.div_unique with 0; lia.
Qed.

Lemma shr_m_iter p : forall r,
  0 <= shr_m r -> shr_m (SpecFloat.iter_pos shr_1 p r) = shr_m r / 2 ^ Z.pos p.
Proof.
  assert (P : forall a, 0 <= a -> 0 < 2 ^ a)
    by (intros; apply Z.pow_pos_nonneg; lia).
  assert (N : forall r, 0 <= shr_m r -> 0 <= shr_m (shr_1 r)).
  { intros r Hr. rewrite shr_m_shr_1 by exact Hr. apply Z.div_pos; lia. }
  induction p as [p IH|p IH|]; intros r Hr; cbn [SpecFloat.iter_pos].
  - assert (H1 : 0 <= shr_m (SpecFloat.iter_pos shr_1 p (shr_1 r))).
    { rewrite IH by auto. apply Z.div_pos; [auto|apply P; lia]. }
    rewrite IH by exact H1. rewrite IH by auto.
    rewrite shr_m_shr_1 by exact Hr.
    rewrite !Z.div_div by (try lia; apply P; lia).
    f_equal. replace (Z.pos p~1) with (1 + (Z.pos p + Z.pos p)) by lia.
    rewrite !Z.pow_add_r by lia. lia.
  - assert (H1 : 0 <= shr_m (SpecFloat.iter_pos shr_1 p r)).
    { rewrite IH by auto. apply Z.div_pos; [auto|apply P; lia]. }
    rewrite IH by exact H1. rewrite IH by auto.
    rewrite !Z.div_div by (try lia; apply P; lia).
    f_equal. replace (Z.pos p~0) with (Z.pos p + Z.pos p) by lia.
    rewrite !Z.pow_add_r by lia. lia.
  - rewrite shr_m_shr_1 by exact Hr. reflexivity.
Qed.

Lemma fexp_eq e : fexp Double.prec Double.emax e = Z.max (e - 53) (- 1074).
Proof. reflexivity. Qed.

(** [shr_fexp]: the significand and the exponent it returns. *)
Lemma shr_fexp_eq m e l :
  0 < m ->
  let n := Z.max (Zdigits2 m - 53) (- 1074 - e) in
  let '(r, e') := shr_fexp Double.prec Double.emax m e l in
  if 0 <? n then shr_m r = m / 2 ^ n /\ e' = e + n
  else shr_m r = m /\ e' = e.
Proof.
  intros Hm n. unfold shr_fexp. rewrite fexp_eq.
  replace (Z.max (Zdigits2 m + e - 53) (- 1074) - e) with n by lia.
  assert (Hr : shr_m (shr_record_of_loc m l) = m)
    by (destruct l as [|[]]; reflexivity).
  unfold shr. destruct n as [|p|p]; cbn [Z.ltb Z.compare].
  - now split.
  - split; [|reflexivity]. rewrite shr_m_iter; rewrite Hr; [reflexivity|lia].
  - now split.
Qed.

Lemma round_nearest_even_ge m l : m <= round_nearest_even m l.
Proof.
  unfold round_nearest_even. destruct l as [|[]]; try lia.
  destruct (Z.even m); lia.
Qed.

Lemma round_nearest_even_le m l : round_nearest_even m l <= m + 1.
Proof.
  unfold round_nearest_even. destruct l as [|[]]; try lia.
  destruct (Z.even m); lia.
Qed.

Lemma pow2_pos a : 0 <= a -> 0 < 2 ^ a.
Proof. intros. apply Z.pow_pos_nonneg; lia. Qed.

(** One alignment of a significand keeps it above an integer that
    binary64 holds, and leaves at most 53 bits. *)
Lemma shr_fexp_keeps d md ed m e l :
  0 < d -> d = md * 2 ^ ed -> 0 <= md < 2 ^ 53 -> 0 <= ed ->
  Double.scaledGe d m e ->
  let '(r, e') := shr_fexp Double.prec Double.emax m e l in
  Double.scaledGe d (shr_m r) e' /\ shr_m r < 2 ^ 53.
Proof.
  intros Hd Hdm Hmd Hed Hge.
  pose proof (scaledGe_pos d m e Hd Hge) as Hm.
  pose proof (shr_fexp_eq m e l Hm) as Hs. cbv zeta in Hs.
  pose proof (Zdigits2_bounds m Hm) as [HD1 HD2].
  set (D := Zdigits2 m) in *.
  set (n := Z.max (D - 53) (- 1074 - e)) in *.
  destruct (shr_fexp Double.prec Double.emax m e l) as [r e'].
  destruct (Z.ltb_spec 0 n) as [Hn|Hn]; destruct Hs as [-> ->].
  - (* a shift by [n] bits *)
    pose proof (pow2_pos n ltac:(lia)) as Pn.
    split.
    + destruct (Z.le_gt_cases (e + n) ed) as [Hle|Hgt].
      * (* [d / 2^(e+n)] is an integer *)
        set (k := Z.max 0 (- (e + n))).
        apply (scaledGe_shift d (m / 2 ^ n) (e + n) k); [lia|lia|].
        apply (scaledGe_shift d m e (Z.max 0 (- e))) in Hge; [|lia|lia].
        set (K := Z.max 0 (- e)) in *.
        assert (HI : md * 2 ^ (ed - (e + n)) <= m / 2 ^ n).
        { apply Z.div_le_lower_bound; [exact Pn|].
          rewrite Hdm in Hge.
          replace (md * 2 ^ ed * 2 ^ K)
            with (md * 2 ^ (ed - e) * 2 ^ (K + e)) in Hge.
          2:{ rewrite <- !Z.mul_assoc, <- !Z.pow_add_r by lia.
              do 2 f_equal. lia. }
          replace (2 ^ n * (md * 2 ^ (ed - (e + n))))
            with (md * 2 ^ (ed - e)).
          2:{ replace (ed - e) with (n + (ed - (e + n))) by lia.
              rewrite Z.pow_add_r by lia. lia. }
          pose proof (pow2_pos (K + e) ltac:(lia)). nia. }
        rewrite Hdm.
        replace (md * 2 ^ ed * 2 ^ k)
          with (md * 2 ^ (ed - (e + n)) * 2 ^ (k + (e + n))).
        2:{ rewrite <- !Z.mul_assoc, <- !Z.pow_add_r by lia.
            do 2 f_equal. lia. }
        pose proof (pow2_pos (k + (e + n)) ltac:(lia)). nia.
      * (* the significand has 53 bits *)
        assert (En : n = D - 53) by lia.
        assert (H52 : 2 ^ 52 <= m / 2 ^ n).
        { apply Z.div_le_lower_bound; [exact Pn|].
          rewrite <- Z.pow_add_r by lia.
          replace (n + 52) with (D - 1) by lia. exact HD1. }
        unfold Double.scaledGe.
        rewrite (Z.max_l 0 (- (e + n))), (Z.max_r 0 (e + n)) by lia.
        rewrite Z.pow_0_r, Z.mul_1_r, Hdm.
        assert (H1 : 2 ^ (ed + 1) <= 2 ^ (e + n))
          by (apply Z.pow_le_mono_r; lia).
        rewrite Z.pow_add_r in H1 by lia.
        pose proof (pow2_pos ed Hed).
        change (2 ^ 53) with (2 ^ 52 * 2) in Hmd.
        change (2 ^ 1) with 2 in H1. nia.
    + apply Z.div_lt_upper_bound; [exact Pn|].
      apply Z.lt_le_trans with (2 ^ D); [exact HD2|].
      rewrite <- Z.pow_add_r by lia. apply Z.pow_le_mono_r; lia.
  - split; [exact Hge|].
    apply Z.lt_le_trans with (2 ^ D); [exact HD2|].
    apply Z.pow_le_mono_r; lia.
Qed.

(** Rounding to nearest does not go below an integer that binary64
    holds. *)
Lemma binary_round_aux_atLeast d md ed m e l :
  0 < d -> d = md * 2 ^ ed -> 0 <= md < 2 ^ 53 -> 0 <= ed ->
  Double.scaledGe d m e ->
  Double.atLeast d (binary_round_aux Double.prec Double.emax false m e l)
  /\ Double.bounded (binary_round_aux Double.prec Double.emax false m e l).
Proof.
  intros Hd Hdm Hmd Hed Hge. unfold binary_round_aux.
  pose proof (shr_fexp_keeps d md ed m e l Hd Hdm Hmd Hed Hge) as H1.
  destruct (shr_fexp Double.prec Double.emax m e l) as [r1 e1].
  destruct H1 as [H1 _].
  set (m1 := round_nearest_even (shr_m r1) (loc_of_shr_record r1)).
  assert (Hge1 : Double.scaledGe d m1 e1).
  { apply scaledGe_mono with (shr_m r1);
      [apply round_nearest_even_ge|exact H1]. }
  pose proof (shr_fexp_keeps d md ed m1 e1 loc_Exact Hd Hdm Hmd Hed Hge1)
    as H2.
  destruct (shr_fexp Double.prec Double.emax m1 e1 loc_Exact) as [r2 e2].
  destruct H2 as [H2 Hb].
  pose proof (scaledGe_pos d _ _ Hd H2) as Hp.
  destruct (shr_m r2) as [|p|p]; try lia.
  destruct (Z.leb_spec e2 (Double.emax - Double.prec)) as [He|He].
  - split; [exact H2|]. split; [exact Hb|exact He].
  - split; exact I.
Qed.

Lemma iter_xO p k : Z.pos (Pos.iter xO p k) = Z.pos p * 2 ^ Z.pos k.
Proof.
  induction k as [|k IH] using Pos.peano_ind.
  - cbn [Pos.iter]. rewrite Pos2Z.inj_xO. change (2 ^ 1) with 2. lia.
  - rewrite Pos.iter_succ, Pos2Z.inj_xO, IH, Pos2Z.inj_succ.
    rewrite Z.pow_succ_r by lia. lia.
Qed.

(** The binary64 number of an integer that binary64 holds is not below
    it. *)
Lemma ofZ_atLeast d :
  0 < d -> Double.holds d ->
  Double.atLeast d (Double.ofZ d) /\ Double.bounded (Double.ofZ d).
Proof.
  intros Hd [_ (md & ed & Hdm & Hmd & Hed)].
  destruct d as [|p|p]; try lia.
  unfold Double.ofZ, binary_normalize, binary_round.
  generalize (fexp Double.prec Double.emax (Z.pos (digits2_pos p) + 0)).
  intros E.
  destruct (shl_align p 0 E) as [mz ez] eqn:Hsh.
  apply (binary_round_aux_atLeast (Z.pos p) md ed); try assumption.
  unfold shl_align in Hsh.
  destruct (E - 0) as [|k|k] eqn:Hk; injection Hsh as <- <-.
  - unfold Double.scaledGe. rewrite !Z.max_l by lia. lia.
  - unfold Double.scaledGe. rewrite !Z.max_l by lia. lia.
  - assert (HE : E = Z.neg k) by lia. rewrite HE, iter_xO.
    unfold Double.scaledGe.
    rewrite (Z.max_r 0 (- Z.neg k)), (Z.max_l 0 (Z.neg k)) by lia.
    change (- Z.neg k) with (Z.pos k). lia.
Qed.

(** The binary64 number of a rational that is at least 1 is at least 1. *)
Lemma ofQ_atLeast (q : Q) :
  (1 <= q)%Q -> Double.atLeast 1 (Double.ofQ q).
Proof.
  unfold Qle. cbn [Qnum Qden]. intros Hq.
  unfold Double.ofQ. destruct (Qnum q) as [|p|p] eqn:Hn; try lia.
  destruct (SFdiv_core_binary Double.prec Double.emax
              (Z.pos p) 0 (Z.pos (Qden q)) 0)
    as [[m e] l] eqn:Hdiv.
  apply (binary_round_aux_atLeast 1 1 0); try lia.
  unfold SFdiv_core_binary in Hdiv.
  set (e' := Z.min (fexp Double.prec Double.emax
                      (Zdigits2 (Z.pos p) + 0
                       - (Zdigits2 (Z.pos (Qden q)) + 0)))
                   (0 - 0)) in *.
  assert (He' : e' <= 0) by (subst e'; lia).
  replace (0 - 0 - e') with (- e') in Hdiv by lia.
  set (m' := match - e' with
             | 0 => Z.pos p
             | Z.pos _ => Z.shiftl (Z.pos p) (- e')
             | Z.neg _ => 0
             end) in *.
  assert (Hm' : m' = Z.pos p * 2 ^ (- e')).
  { subst m'. destruct (- e') as [|k|k] eqn:Hk; try lia.
    rewrite Z.shiftl_mul_pow2 by lia. reflexivity. }
  pose proof (Z_div_mod m' (Z.pos (Qden q)) ltac:(lia)) as Hdm.
  destruct (Z.div_eucl m' (Z.pos (Qden q))) as [qu r].
  injection Hdiv as <- <- _.
  unfold Double.scaledGe. rewrite (Z.max_r 0 (- e')), (Z.max_l 0 e') by lia.
  rewrite Z.pow_0_r, Z.mul_1_r, Z.mul_1_l.
  pose proof (pow2_pos (- e') ltac:(lia)) as P.
  destruct Hdm as [Hdm Hr]. rewrite Hm' in Hdm.
  assert (Z.pos (Qden q) * 2 ^ (- e') <= Z.pos p * 2 ^ (- e')) by nia.
  nia.
Qed.

(** The product with a factor of at least 1 is not below the other
    factor. *)
Lemma mul_atLeast d x y :
  0 < d -> Double.holds d -> Double.atLeast d x -> Double.atLeast 1 y ->
  Double.atLeast d (Double.mul x y) /\ Double.bounded (Double.mul x y).
Proof.
  intros Hd [_ (md & ed & Hdm & Hmd & Hed)] Hx Hy.
  destruct x as [[]|[]| |[] mx ex]; try contradiction;
    destruct y as [[]|[]| |[] my ey]; try contradiction;
    cbn [Double.mul SFmul xorb Double.atLeast Double.bounded];
    try (split; exact I).
  apply (binary_round_aux_atLeast d md ed); try assumption.
  rewrite Pos2Z.inj_mul. apply scaledGe_mul; try lia; assumption.
Qed.

(** Rounding down keeps what a binary64 number is not below, and gives an
    integer that binary64 holds. *)
Lemma floor_atLeast d x :
  0 < d -> d <= 2 ^ 1024 -> Double.atLeast d x -> Double.bounded x ->
  d <= Double.floor x /\ Double.holds (Double.floor x).
Proof.
  intros Hd Hbig Hx Hb.
  destruct x as [[]|[]| |[] m e]; try contradiction; cbn [Double.floor].
  - split; [exact Hbig|]. split; [reflexivity|].
    exists 1, 1024. split; [reflexivity|]. split; [|lia].
    split; [lia|reflexivity].
  - destruct Hb as [Hm He]. unfold Double.atLeast, Double.scaledGe in Hx.
    destruct (Z.leb_spec 0 e) as [H0|H0].
    + rewrite (Z.max_l 0 (- e)), (Z.max_r 0 e), Z.pow_0_r, Z.mul_1_r in Hx
        by lia.
      split; [exact Hx|]. split.
      * pose proof (pow2_pos e H0).
        assert (2 ^ e <= 2 ^ 971) by (apply Z.pow_le_mono_r; lia).
        change (2 ^ 1024) with (2 ^ 53 * 2 ^ 971). nia.
      * exists (Z.pos m), e. split; [reflexivity|]. split; [lia|exact H0].
    + rewrite (Z.max_r 0 (- e)), (Z.max_l 0 e), Z.pow_0_r, Z.mul_1_r in Hx
        by lia.
      pose proof (pow2_pos (- e) ltac:(lia)) as P.
      assert (Hq : 0 <= Z.pos m / 2 ^ (- e) < 2 ^ 53).
      { split; [apply Z.div_pos; lia|].
        apply Z.div_lt_upper_bound; [exact P|]. nia. }
      split; [apply Z.div_le_lower_bound; [exact P|lia]|].
      split; [change (2 ^ 1024) with (2 ^ 53 * 2 ^ 971); lia|].
      exists (Z.pos m / 2 ^ (- e)), 0. split; [lia|]. split; [exact Hq|lia].
Qed.

(** [Math.floor(d * m)] with a factor of at least 1 is not below [d]. *)
Lemma floorMul_ge d (m : Q) :
  0 <= d -> Double.holds d -> (1 <= m)%Q ->
  d <= Double.floorMul d m /\ Double.holds (Double.floorMul d m).
Proof.
  intros Hd Hex Hm. unfold Double.floorMul.
  pose proof (ofQ_atLeast m Hm) as Hy.
  destruct (Z.eq_dec d 0) as [->|Hnz].
  - assert (E : Double.floor (Double.mul (Double.ofZ 0) (Double.ofQ m)) = 0).
    { change (Double.ofZ 0) with (S754_zero false).
      destruct (Double.ofQ m) as [[]|[]| |[] my ey]; try contradiction;
        reflexivity. }
    rewrite E. split; [lia|exact Hex].
  - assert (Hpos : 0 < d) by lia.
    destruct (ofZ_atLeast d Hpos Hex) as [Hx _].
    destruct (mul_atLeast d _ _ Hpos Hex Hx Hy) as [Hp Hb].
    apply floor_atLeast; try assumption. apply Hex.
Qed.

(** Every integer from 0 to 2^53 is held exactly. *)
Lemma holds_small d : 0 <= d <= 2 ^ 53 -> Double.holds d.
Proof.
  intros Hd. split.
  - apply Z.le_trans with (2 ^ 53); [lia|]. apply Z.pow_le_mono_r; lia.
  - destruct (Z.eq_dec d (2 ^ 53)) as [->|Hne].
    + exists (2 ^ 52), 1. split; [reflexivity|]. split; [|lia].
      split; [apply Z.pow_nonneg; lia|]. apply Z.pow_lt_mono_r; lia.
    + exists d, 0. rewrite Z.pow_0_r. lia.
Qed.

End Binary64.

(** ** ReconnectionManager: the backoff between resets *)

Section BackoffGrowth.

Context {CB : Type}.
Import ReconnectionManager.

Implicit Types (r : ReconnectionManager.t CB) (w : Window.t).

(** With a factor of at least 1 the stored delay does not shrink, and it
    stays an integer that binary64 holds. *)
Lemma storedDelay_grows (c : Config) (i : nat) :
  0 <= initialDelay c <= 2 ^ 53 -> (1 <= delayMultiplier c)%Q ->
  0 <= storedDelay c i
  /\ Double.holds (storedDelay c i)
  /\ storedDelay c i <= storedDelay c (S i).
Proof.
  intros Hd Hm. induction i as [|i (IH0 & IHh & IH1)].
  - assert (Hh : Double.holds (initialDelay c)) by now apply holds_small.
    cbn [storedDelay]. split; [lia|]. split; [exact Hh|].
    apply floorMul_ge; [lia|exact Hh|exact Hm].
  - destruct (floorMul_ge (storedDelay c i) (delayMultiplier c) IH0 IHh Hm)
      as [Hge Hh].
    change (Double.floorMul (storedDelay c i) (delayMultiplier c))
      with (storedDelay c (S i)) in Hge, Hh.
    split; [lia|]. split; [exact Hh|].
    change (storedDelay c (S (S i)))
      with (Double.floorMul (storedDelay c (S i)) (delayMultiplier c)).
    apply floorMul_ge; [lia|exact Hh|exact Hm].
Qed.

(** The delay that the [n]-th scheduling in a row arms. *)
Lemma scheduleN_armed f a m r0 w0 (n : nat) :
  attempts r0 = 0 ->
  currentDelay r0 = initialDelay (config r0) ->
  (1 <= n)%nat ->
  Z.of_nat n <= maxAttempts (config r0) ->
  armedDelay (scheduleN n f a m r0 w0).1 (scheduleN n f a m r0 w0).2
  = Some (Z.min (storedDelay (config r0) (Nat.pred n)) (maxDelay (config r0))).
Proof.
  intros Ha Hd Hn Hmax. destruct n as [|n]; [lia|].
  cbn [scheduleN Nat.pred].
  pose proof (scheduleN_state f a m r0 w0 n Ha Hd) as Hst.
  destruct (scheduleN n f a m r0 w0) as [r1 w1].
  destruct Hst as (Hc & Hat & Hcd); [lia|].
  pose proof (schedule_accepted f a m r1 w1) as Hs.
  destruct (schedule f a m r1 w1) as [[r2 w2] calls].
  destruct Hs as (_ & _ & _ & Harm); [rewrite Hc, Hat; lia|].
  cbn [fst snd]. now rewrite Harm, Hcd, Hc.
Qed.

End BackoffGrowth.



Section AttemptBudget.

Context {CB : Type}.
Import ReconnectionManager.

Lemma new_withinBudget (c : Config) :
  withinBudget c (new c : ReconnectionManager.t CB).
Proof.
  unfold withinBudget, new; simpl. repeat split; try lia; try congruence.
Qed.

Lemma apply_withinBudget (c : Config) rw (o : ReconnectionOps.Op CB) :
  withinBudget c rw.1 -> withinBudget c (ReconnectionOps.apply rw o).1.
Proof.
  destruct rw as [r w]. intros (Hc & H0 & Hmax & Hs). cbn [fst] in *.
  destruct o as [f a m| | |id]; cbn [ReconnectionOps.apply].
  - unfold schedule.
    destruct (Z.geb_spec (attempts r) (maxAttempts (config r))) as [Hge|Hlt].
    + cbn [fst]. now repeat split; try apply Hs.
    + cbn [fst]. unfold withinBudget; simpl. rewrite Hc in *.
      repeat split; try lia; congruence.
  - unfold cancel, withinBudget; simpl. repeat split; try assumption;
      congruence.
  - unfold reset, cancel, withinBudget; simpl. rewrite Hc.
    repeat split; try lia; congruence.
  - destruct (Window.fire id w) as [[tm w']|]; cbn [fst].
    + unfold executeReconnect, withinBudget; simpl.
      repeat split; try assumption; congruence.
    + now repeat split; try apply Hs.
Qed.

End AttemptBudget.

(** X5.  Whatever is called on a manager after its construction
    ([schedule], [cancel], [reset], in any order, with its timers firing in
    between), the attempt count stays between 0 and [maxAttempts], the
    configuration stays as constructed, and the flag [isScheduled] is set
    exactly when the manager holds a timer handle. *)
Theorem attempts_within_maxAttempts {CB : Type}
    (c : ReconnectionManager.Config) (ops : list (ReconnectionOps.Op CB))
    (w : Window.t) :
  let r := (ReconnectionOps.run ops (ReconnectionManager.new c, w)).1 in
  ReconnectionManager.config r = c
  /\ 0 <= ReconnectionManager.attempts r
  /\ ReconnectionManager.attempts r
     <= Z.max 0 (ReconnectionManager.maxAttempts c)
  /\ (ReconnectionManager.scheduled r = true
      <-> ReconnectionManager.timeoutId r <> None).
Proof.
  cbv zeta. unfold ReconnectionOps.run.
  assert (H : forall rw,
             withinBudget c rw.1 ->
             withinBudget c (fold_left ReconnectionOps.apply ops rw).1).
  { induction ops as [|o ops IH]; intros rw Hrw; simpl; [exact Hrw|].
    apply IH. now apply apply_withinBudget. }
  exact (H (ReconnectionManager.new c, w) (new_withinBudget c)).
Qed.

(** X6.  [cancel] keeps the attempt count, the current delay and the
    configuration, so a later [schedule] continues the backoff where it
    was; it clears the flag, and the timer it held is no longer pending
    and cannot fire.  A second [cancel] changes nothing. *)
Theorem cancel_keeps_backoff {CB : Type} (r : ReconnectionManager.t CB)
    (w : Window.t) :
  let r1 := (ReconnectionManager.cancel r w).1 in
  let w1 := (ReconnectionManager.cancel r w).2 in
  ReconnectionManager.attempts r1 = ReconnectionManager.attempts r
  /\ ReconnectionManager.currentDelay r1 = ReconnectionManager.currentDelay r
  /\ ReconnectionManager.config r1 = ReconnectionManager.config r
  /\ ReconnectionManager.scheduled r1 = false
  /\ ReconnectionManager.armedDelay r1 w1 = None
  /\ (forall id, ReconnectionManager.timeoutId r = Some id ->
                 Window.fire id w1 = None)
  /\ ReconnectionManager.cancel r1 w1 = (r1, w1).
Proof.
  cbv zeta. unfold ReconnectionManager.cancel; simpl.
  repeat split.
  intros id Hid. rewrite Hid. unfold Window.fire.
  pose proof (pending_clearTimeout id w) as H.
  unfold Window.pending in H. now rewrite H.
Qed.

(** X7.  [reset] puts the manager back into the state in which it was
    constructed, whatever was called on it since and whichever of its
    timers fired: the state after [reset] is the state after the
    constructor, with the configuration given to the constructor, and the
    timer the manager held cannot fire any more. *)
Theorem reset_is_new {CB : Type} (c : ReconnectionManager.Config)
    (ops : list (ReconnectionOps.Op CB)) (w : Window.t) :
  let rw := ReconnectionOps.run ops (ReconnectionManager.new c, w) in
  (ReconnectionManager.reset rw.1 rw.2).1 = ReconnectionManager.new c
  /\ (forall id, ReconnectionManager.timeoutId rw.1 = Some id ->
                 Window.fire id (ReconnectionManager.reset rw.1 rw.2).2
                 = None).
Proof.
  cbv zeta.
  assert (Hc : ReconnectionManager.config
                 (ReconnectionOps.run ops (ReconnectionManager.new c, w)).1
               = c).
  { unfold ReconnectionOps.run.
    assert (H : forall rw,
               withinBudget c rw.1 ->
               withinBudget c (fold_left ReconnectionOps.apply ops rw).1).
    { induction ops as [|o ops IH]; intros rw Hrw; simpl; [exact Hrw|].
      apply IH. now apply apply_withinBudget. }
    exact (proj1 (H (ReconnectionManager.new c, w) (new_withinBudget c))). }
  destruct (ReconnectionOps.run ops (ReconnectionManager.new c, w)) as [r w'].
  cbn [fst snd] in *.
  unfold ReconnectionManager.reset, ReconnectionManager.cancel; simpl.
  rewrite Hc. split; [reflexivity|].
  intros id Hid. rewrite Hid. unfold Window.fire.
  pose proof (pending_clearTimeout id w') as H.
  unfold Window.pending in H. now rewrite H.
Qed.

(** X8.  [updateConfig] never touches the attempt count, the timer or the
    callbacks.  While a backoff is under way (an attempt was made) a new
    initial delay does not change the current delay; before the first
    attempt it becomes the current delay, and the next [schedule] arms it,
    clamped by the maximal delay of the new configuration. *)
Theorem updateConfig_initialDelay {CB : Type} (f : CB) (a m : option CB)
    (u : ReconnectionManager.ConfigUpdate) (d : Z)
    (r : ReconnectionManager.t CB) (w : Window.t) :
  ReconnectionManager.setInitialDelay u = Some d ->
  let r' := ReconnectionManager.updateConfig u r in
  ReconnectionManager.attempts r' = ReconnectionManager.attempts r
  /\ ReconnectionManager.timeoutId r' = ReconnectionManager.timeoutId r
  /\ ReconnectionManager.initialDelay (ReconnectionManager.config r') = d
  /\ (ReconnectionManager.attempts r <> 0 ->
      ReconnectionManager.currentDelay r'
      = ReconnectionManager.currentDelay r)
  /\ (ReconnectionManager.attempts r = 0 ->
      0 < ReconnectionManager.maxAttempts (ReconnectionManager.config r') ->
      ReconnectionManager.armedDelay
        (ReconnectionManager.schedule f a m r' w).1.1
        (ReconnectionManager.schedule f a m r' w).1.2
      = Some (Z.min d (ReconnectionManager.maxDelay
                         (ReconnectionManager.config r')))).
Proof.
  intros Hu. cbv zeta.
  split; [reflexivity|]. split; [reflexivity|].
  split; [simpl; now rewrite Hu|]. split.
  - intros Hne. simpl. rewrite Hu.
    destruct (Z.eqb_spec (ReconnectionManager.attempts r) 0); congruence.
  - intros H0 Hmax.
    pose proof (schedule_accepted f a m
                  (ReconnectionManager.updateConfig u r) w) as Hs.
    destruct (ReconnectionManager.schedule f a m
                (ReconnectionManager.updateConfig u r) w) as [[r2 w2] calls].
    destruct Hs as (_ & _ & _ & Harm).
    + simpl. simpl in Hmax. lia.
    + cbn [fst snd]. rewrite Harm. simpl. rewrite Hu, H0. reflexivity.
Qed.

(** A manager on which three attempts were scheduled, and a fresh one; the
    update sets the initial delay to 250 ms. *)
Lemma updateConfig_initialDelay_witness :
  let c := ReconnectionManager.mkConfig 10 1000 30000 (3 # 2) in
  let u := ReconnectionManager.mkUpdate None (Some 250) None None in
  let busy : ReconnectionManager.t unit :=
    (ReconnectionManager.scheduleN 3 tt None None
       (ReconnectionManager.new c) Window.empty).1 in
  ReconnectionManager.currentDelay (ReconnectionManager.updateConfig u busy)
  = 3375
  /\ ReconnectionManager.armedDelay
       (ReconnectionManager.schedule tt None None
          (ReconnectionManager.updateConfig u (ReconnectionManager.new c))
          Window.empty).1.1
       (ReconnectionManager.schedule tt None None
          (ReconnectionManager.updateConfig u (ReconnectionManager.new c))
          Window.empty).1.2
     = Some 250.
Proof.
  intros c u busy. split.
  - destruct (updateConfig_initialDelay tt None None u 250 busy Window.empty
                eq_refl) as (_ & _ & _ & Hbusy & _).
    rewrite Hbusy; [reflexivity|vm_compute; discriminate].
  - destruct (updateConfig_initialDelay tt None None u 250
                (ReconnectionManager.new c) Window.empty eq_refl)
      as (_ & _ & _ & _ & Hidle).
    rewrite Hidle; [reflexivity|reflexivity|reflexivity].
Defined.

(** ** HeartbeatManager: the timers it holds *)

Section HeartbeatTimers.

Context {CB : Type}.
Import HeartbeatManager.

Lemma pending_clear (id id' : nat) (w : Window.t) :
  Window.pending id (Window.clearTimeout id' w)
  = if decide (id' = id) then None else Window.pending id w.
Proof.
  unfold Window.pending, Window.clearTimeout; simpl.
  destruct (decide (id' = id)) as [->|Hne].
  - apply lookup_delete_eq.
  - now apply lookup_delete_ne.
Qed.

Lemma pending_arm (id : nat) (tk : Window.Handler) (d : Z) (rep : bool)
    (w : Window.t) :
  Window.pending id (Window.arm tk d rep w).2
  = if decide (Window.nextId w = id) then Some (Window.mkTimer tk d rep)
    else Window.pending id w.
Proof.
  unfold Window.pending, Window.arm; simpl.
  destruct (decide (Window.nextId w = id)) as [->|Hne].
  - apply lookup_insert_eq.
  - now apply lookup_insert_ne.
Qed.

Lemma pending_clearHandle (id : nat) (o : option nat) (w : Window.t) :
  Window.pending id (clearHandle o w)
  = if decide (o = Some id) then None else Window.pending id w.
Proof.
  destruct o as [id'|]; simpl.
  - rewrite pending_clear.
    destruct (decide (id' = id)), (decide (Some id' = Some id));
      congruence.
  - destruct (decide (None = Some id)); congruence.
Qed.

Lemma issued_clear (id : nat) (w : Window.t) :
  issued w -> issued (Window.clearTimeout id w).
Proof.
  intros Hw id' Hid'. rewrite pending_clear.
  destruct (decide (id = id')); [reflexivity|]. now apply Hw.
Qed.

Lemma issued_clearHandle (o : option nat) (w : Window.t) :
  issued w -> issued (clearHandle o w).
Proof. destruct o; simpl; [apply issued_clear|trivial]. Qed.

Lemma issued_arm (tk : Window.Handler) (d : Z) (rep : bool) (w : Window.t) :
  issued w -> issued (Window.arm tk d rep w).2.
Proof.
  intros Hw id Hid. rewrite pending_arm. simpl in Hid.
  destruct (decide (Window.nextId w = id)); [lia|]. apply Hw. lia.
Qed.

Lemma issued_empty : issued Window.empty.
Proof. intros id _. apply lookup_empty. Qed.

Lemma fire_pending (id : nat) (w w' : Window.t) (tm : Window.Timer) :
  Window.fire id w = Some (tm, w') ->
  Window.pending id w = Some tm
  /\ w' = (if Window.repeating tm then w else Window.clearTimeout id w).
Proof.
  unfold Window.fire, Window.pending.
  destruct (Window.timers w !! id) as [tm'|]; [|discriminate].
  intros [= <- <-]. now split.
Qed.

Lemma tidy_new (c : Config) (w : Window.t) :
  issued w -> noTick w -> tidy (new c : HeartbeatManager.t CB) w.
Proof.
  intros Hw Hno. split; simpl; try discriminate; try easy.
  intros id tm Hp Hh. now destruct (Hno id tm Hp).
Qed.

Lemma tidy_stop (h : HeartbeatManager.t CB) (w : Window.t) :
  tidy h w -> tidy (stop h w).1 (stop h w).2.
Proof.
  intros [Hw Hs Hr Ht H1]. unfold stop; cbn [fst snd].
  split; simpl; try discriminate; try easy.
  - now apply issued_clearHandle, issued_clearHandle.
  - intros id tm. rewrite !pending_clearHandle.
    destruct (decide (timeoutId h = Some id)); [discriminate|].
    destruct (decide (intervalId h = Some id)); [discriminate|].
    intros Hp Hh. now destruct (H1 id tm Hp Hh).
Qed.

Lemma tidy_start (ping onT : CB) (onP : option CB)
    (h : HeartbeatManager.t CB) (w : Window.t) :
  tidy h w -> tidy (start ping onT onP h w).1 (start ping onT onP h w).2.
Proof.
  intros Hh. pose proof (tidy_stop h w Hh) as Hs.
  unfold start. destruct (stop h w) as [h1 w1] eqn:Hstop.
  cbn [fst snd] in Hs.
  assert (Hid : timeoutId h1 = None /\ intervalId h1 = None).
  { unfold stop in Hstop. injection Hstop as <- _. now simpl. }
  destruct Hid as [Hto Hiv].
  destruct (interval (config h1) <=? 0); [exact Hs|].
  unfold Window.setInterval.
  destruct Hs as [Hw _ _ _ H1]. cbn [fst snd].
  split; simpl; try discriminate.
  - now apply issued_arm.
  - intros _. repeat split; try discriminate.
    exists (Window.nextId w1). split; [reflexivity|].
    exists (interval (config h1)).
    pose proof (pending_arm (Window.nextId w1) Window.HeartbeatInterval
                  (interval (config h1)) true w1) as Hp.
    simpl in Hp. rewrite Hp.
    now destruct (decide (Window.nextId w1 = Window.nextId w1)).
  - rewrite Hto. discriminate.
  - intros id tm Hp Hh'.
    pose proof (pending_arm id Window.HeartbeatInterval
                  (interval (config h1)) true w1) as Hq.
    simpl in Hq. rewrite Hq in Hp.
    destruct (decide (Window.nextId w1 = id)) as [->|]; [reflexivity|].
    specialize (H1 id tm Hp Hh'). congruence.
Qed.

Lemma tidy_handlePong (now : Z) (h : HeartbeatManager.t CB) (w : Window.t) :
  tidy h w -> tidy (handlePong now h w).1.1 (handlePong now h w).1.2.
Proof.
  intros [Hw Hs Hr Ht H1]. unfold handlePong; cbn [fst snd].
  split; simpl; try discriminate.
  - now apply issued_clearHandle.
  - intros Hrun. destruct (Hs Hrun) as (? & ? & ? & ? & ?). easy.
  - intros Hrun. destruct (Hr Hrun) as (? & ? & id & Hid & d & Hp).
    repeat split; try assumption. exists id. split; [assumption|].
    exists d. rewrite pending_clearHandle.
    destruct (decide (timeoutId h = Some id)) as [Heq|]; [|assumption].
    destruct (Ht id Heq) as (d' & Hp'). congruence.
  - intros id tm. rewrite pending_clearHandle.
    destruct (decide (timeoutId h = Some id)); [discriminate|]. apply H1.
Qed.

Lemma tidy_sendHeartbeat (now : Z) (res : PingResult)
    (h : HeartbeatManager.t CB) (w : Window.t) :
  tidy h w ->
  tidy (sendHeartbeat now res h w).1.1 (sendHeartbeat now res h w).1.2.
Proof.
  intros Hh. unfold sendHeartbeat.
  destruct (sendPing h) as [f|] eqn:Hf; [|exact Hh].
  destruct Hh as [Hw Hs Hr Ht H1].
  destruct res; unfold Window.setTimeout; cbn [fst snd].
  - split; simpl.
    + now apply issued_arm.
    + intros Hrun. destruct (Hs Hrun) as (? & _). congruence.
    + intros Hrun. destruct (Hr Hrun) as (? & ? & id & Hid & d & Hp).
      repeat split; try assumption. exists id. split; [assumption|].
      exists d.
      pose proof (pending_arm id Window.HeartbeatTimeout
                    (timeout (config h)) false w) as Hq.
      simpl in Hq. rewrite Hq.
      destruct (decide (Window.nextId w = id)) as [<-|]; [|assumption].
      rewrite Hw in Hp; [discriminate|lia].
    + intros id [= <-]. exists (timeout (config h)).
      pose proof (pending_arm (Window.nextId w) Window.HeartbeatTimeout
                    (timeout (config h)) false w) as Hq.
      simpl in Hq. rewrite Hq.
      now destruct (decide (Window.nextId w = Window.nextId w)).
    + intros id tm Hp Hh'.
      pose proof (pending_arm id Window.HeartbeatTimeout
                    (timeout (config h)) false w) as Hq.
      simpl in Hq. rewrite Hq in Hp.
      destruct (decide (Window.nextId w = id)).
      * injection Hp as <-. discriminate.
      * now apply (H1 id tm).
  - split; simpl; try assumption.
  - split; simpl; try assumption.
Qed.

Lemma tidy_fired (id : nat) (tm : Window.Timer)
    (h : HeartbeatManager.t CB) (w w' : Window.t) :
  Window.fire id w = Some (tm, w') -> tidy h w ->
  (Window.handler tm = Window.HeartbeatTimeout ->
     tidy (handleHeartbeatTimeout h).1 w')
  /\ (Window.handler tm <> Window.HeartbeatTimeout -> tidy h w').
Proof.
  intros Hfire [Hw Hs Hr Ht H1].
  destruct (fire_pending _ _ _ _ Hfire) as [Hp ->].
  assert (Hkeep : Window.repeating tm = true ->
                  (if Window.repeating tm then w
                   else Window.clearTimeout id w) = w)
    by (now intros ->).
  assert (Hrun : isRunning h = true ->
          exists id0, intervalId h = Some id0
            /\ ticking id0 (if Window.repeating tm then w
                            else Window.clearTimeout id w)).
  { intros Hrun. destruct (Hr Hrun) as (_ & _ & id0 & Hid0 & d & Hp0).
    exists id0. split; [assumption|]. exists d.
    destruct (Window.repeating tm) eqn:Hrep; [assumption|].
    rewrite pending_clear. destruct (decide (id = id0)) as [->|];
      [|assumption].
    rewrite Hp in Hp0. injection Hp0 as ->. discriminate. }
  assert (Hiss : issued (if Window.repeating tm then w
                         else Window.clearTimeout id w)).
  { destruct (Window.repeating tm); [assumption|now apply issued_clear]. }
  assert (Hone : forall id1 tm1,
            Window.pending id1 (if Window.repeating tm then w
                                else Window.clearTimeout id w) = Some tm1 ->
            Window.handler tm1 = Window.HeartbeatInterval ->
            intervalId h = Some id1).
  { intros id1 tm1. destruct (Window.repeating tm); [apply H1|].
    rewrite pending_clear. destruct (decide (id = id1)); [discriminate|].
    apply H1. }
  split.
  - intros Hto. unfold handleHeartbeatTimeout; cbn [fst].
    split; simpl; try discriminate; try assumption.
    + intros Hrun'. destruct (Hs Hrun') as (? & ? & ? & ? & ?). easy.
    + intros Hrun'. destruct (Hr Hrun') as (? & ? & _).
      repeat split; try assumption. now apply Hrun.
  - intros Hnot. split; try assumption.
    + intros Hrun'. destruct (Hr Hrun') as (? & ? & _).
      repeat split; try assumption. now apply Hrun.
    + intros id1 Hid1. destruct (Ht id1 Hid1) as (d & Hp1). exists d.
      destruct (Window.repeating tm) eqn:Hrep; [assumption|].
      rewrite pending_clear. destruct (decide (id = id1)) as [->|];
        [|assumption].
      rewrite Hp in Hp1. injection Hp1 as ->. now destruct Hnot.
Qed.

Lemma tidy_updateConfig (u : ConfigUpdate) (h : HeartbeatManager.t CB)
    (w : Window.t) :
  tidy h w -> tidy (updateConfig u h) w.
Proof. intros [Hw Hs Hr Ht H1]. now split. Qed.

Lemma tidy_apply (o : HeartbeatOps.Op CB) hw :
  tidy hw.1 hw.2 ->
  tidy (HeartbeatOps.apply hw o).1.1 (HeartbeatOps.apply hw o).1.2.
Proof.
  destruct hw as [h w]; cbn [fst snd]. intros Hh.
  destruct o as [ping onT onP| |now|id now res|u]; cbn [HeartbeatOps.apply].
  - cbn [fst snd]. now apply tidy_start.
  - cbn [fst snd]. now apply tidy_stop.
  - now apply tidy_handlePong.
  - destruct (Window.fire id w) as [[tm w']|] eqn:Hfire; [|exact Hh].
    destruct (tidy_fired _ _ _ _ _ Hfire Hh) as [Hto Hother].
    destruct (fire_pending _ _ _ _ Hfire) as [Hp Hw'].
    destruct (Window.handler tm) eqn:Hk.
    + cbn [fst snd]. now apply Hother.
    + apply tidy_sendHeartbeat. now apply Hother.
    + specialize (Hto eq_refl).
      destruct (handleHeartbeatTimeout h) as [h' calls]. exact Hto.
    + cbn [fst snd]. now apply Hother.
  - cbn [fst snd]. now apply tidy_updateConfig.
Qed.

Lemma tidy_run (ops : list (HeartbeatOps.Op CB)) hw :
  tidy hw.1 hw.2 ->
  tidy (HeartbeatOps.run ops hw).1 (HeartbeatOps.run ops hw).2.
Proof.
  unfold HeartbeatOps.run. revert hw.
  induction ops as [|o ops IH]; intros hw Hh; simpl; [exact Hh|].
  apply IH. now apply tidy_apply.
Qed.

End HeartbeatTimers.

(** X9.  A heartbeat constructed over a window without heartbeat ticks
    keeps at most one interval timer, whatever is called on it and
    whichever timers fire: it is running exactly when the handle it holds
    is that of a pending tick, every pending tick is the one it holds, and
    when it is not running no tick is pending. *)
Theorem heartbeat_keeps_one_interval {CB : Type}
    (c : HeartbeatManager.Config) (w0 : Window.t)
    (ops : list (HeartbeatOps.Op CB)) :
  issued w0 -> noTick w0 ->
  let h := (HeartbeatOps.run ops (HeartbeatManager.new c, w0)).1 in
  let w := (HeartbeatOps.run ops (HeartbeatManager.new c, w0)).2 in
  (HeartbeatManager.running h = true
   <-> exists id, HeartbeatManager.intervalId h = Some id /\ ticking id w)
  /\ (forall id tm, Window.pending id w = Some tm ->
        Window.handler tm = Window.HeartbeatInterval ->
        HeartbeatManager.intervalId h = Some id)
  /\ (HeartbeatManager.running h = false -> noTick w).
Proof.
  intros Hw Hno. cbv zeta.
  pose proof (tidy_run ops (HeartbeatManager.new c, w0)
                (tidy_new c w0 Hw Hno)) as [_ Hs Hr _ H1].
  unfold HeartbeatManager.running. split; [split|split].
  - intros Hrun. now destruct (Hr Hrun) as (_ & _ & H).
  - intros (id & Hid & _).
    apply not_false_iff_true. intros Hrun.
    destruct (Hs Hrun) as (_ & _ & _ & Hnone & _). congruence.
  - exact H1.
  - intros Hrun id tm Hp Hh.
    destruct (Hs Hrun) as (_ & _ & _ & Hnone & _).
    specialize (H1 id tm Hp Hh). congruence.
Qed.

(** Started twice, ticked once, stopped and started again over the empty
    window. *)
Lemma heartbeat_keeps_one_interval_witness :
  let ops : list (HeartbeatOps.Op nat) :=
    [HeartbeatOps.Start 1%nat 2%nat None; HeartbeatOps.Start 1%nat 2%nat None;
     HeartbeatOps.Fire 2 1000 HeartbeatManager.PingSent; HeartbeatOps.Stop;
     HeartbeatOps.Start 1%nat 2%nat None] in
  let hw :=
    HeartbeatOps.run ops
      (HeartbeatManager.new (HeartbeatManager.mkConfig 1000 5000),
       Window.empty) in
  HeartbeatManager.intervalId hw.1 = Some 4%nat
  /\ forall id tm, Window.pending id hw.2 = Some tm ->
       Window.handler tm = Window.HeartbeatInterval ->
       HeartbeatManager.intervalId hw.1 = Some id.
Proof.
  intros ops hw. split; [reflexivity|].
  apply (heartbeat_keeps_one_interval
           (HeartbeatManager.mkConfig 1000 5000) Window.empty ops).
  - apply issued_empty.
  - intros id tm Hp. unfold Window.pending in Hp. simpl in Hp.
    rewrite lookup_empty in Hp. discriminate.
Defined.

Section HeartbeatIdle.

Context {CB : Type}.
Import HeartbeatManager.

Lemma idle_apply (o : HeartbeatOps.Op CB) hw :
  idle hw.1 -> idle (HeartbeatOps.apply hw o).1.1.
Proof.
  destruct hw as [h w]; cbn [fst]. intros Hh.
  destruct o as [ping onT onP| |now|id now res|u]; cbn [HeartbeatOps.apply].
  - unfold start, stop. cbn [fst snd config].
    destruct (interval (config h) <=? 0); cbn [fst]; unfold idle; simpl;
      [easy|discriminate].
  - unfold stop, idle; simpl. easy.
  - unfold handlePong, idle; simpl. intros Hrun.
    destruct (Hh Hrun) as (? & ? & ? & ? & ?). easy.
  - destruct (Window.fire id w) as [[tm w']|]; [|exact Hh].
    destruct (Window.handler tm); cbn [fst]; try exact Hh.
    + unfold sendHeartbeat.
      destruct (sendPing h) as [f|] eqn:Hf; [|exact Hh].
      destruct res; unfold Window.setTimeout; cbn [fst]; unfold idle; simpl;
        intros Hrun; destruct (Hh Hrun) as (? & _); congruence.
    + unfold handleHeartbeatTimeout, idle; simpl. intros Hrun.
      destruct (Hh Hrun) as (? & ? & ? & ? & ?). easy.
  - unfold updateConfig, idle; simpl. exact Hh.
Qed.

Lemma idle_run (ops : list (HeartbeatOps.Op CB)) hw :
  idle hw.1 -> idle (HeartbeatOps.run ops hw).1.
Proof.
  unfold HeartbeatOps.run. revert hw.
  induction ops as [|o ops IH]; intros hw Hh; simpl; [exact Hh|].
  apply IH. now apply idle_apply.
Qed.

End HeartbeatIdle.

(** X10.  A heartbeat that is not running is silent: whatever was called
    on it before, a PONG, a tick or a timeout that still arrives (a timeout
    armed before [stop] can still be pending) calls no callback, arms no
    timer and leaves it stopped, until [start] is called again. *)
Theorem stopped_heartbeat_is_silent {CB : Type}
    (c : HeartbeatManager.Config) (w0 : Window.t)
    (ops : list (HeartbeatOps.Op CB)) (o : HeartbeatOps.Op CB) :
  let hw := HeartbeatOps.run ops (HeartbeatManager.new c, w0) in
  HeartbeatManager.running hw.1 = false ->
  notStart o = true ->
  (HeartbeatOps.apply hw o).2 = []
  /\ HeartbeatManager.running (HeartbeatOps.apply hw o).1.1 = false
  /\ Window.nextId (HeartbeatOps.apply hw o).1.2 = Window.nextId hw.2.
Proof.
  cbv zeta. intros Hrun Ho.
  assert (Hidle : idle (HeartbeatOps.run ops (HeartbeatManager.new c, w0)).1).
  { apply idle_run. unfold idle; simpl. easy. }
  destruct (HeartbeatOps.run ops (HeartbeatManager.new c, w0)) as [h w].
  cbn [fst snd] in *. unfold HeartbeatManager.running in *.
  destruct (Hidle Hrun) as (Hping & HonT & HonP & Hiv & Hto).
  destruct o as [ping onT onP| |now|id now res|u]; [discriminate| | | |];
    cbn [HeartbeatOps.apply].
  - unfold HeartbeatManager.stop; cbn [fst snd]. rewrite Hiv, Hto. now simpl.
  - unfold HeartbeatManager.handlePong; cbn [fst snd]. rewrite HonP, Hto.
    simpl. now destruct (HeartbeatManager.lastPingTime h >? 0).
  - unfold Window.fire.
    destruct (Window.timers w !! id) as [tm|]; [|now cbn].
    assert (Hn : Window.nextId
                   (if Window.repeating tm then w
                    else Window.clearTimeout id w) = Window.nextId w)
      by now destruct (Window.repeating tm).
    destruct (Window.handler tm); cbn [fst snd]; try easy.
    + unfold HeartbeatManager.sendHeartbeat. rewrite Hping. now cbn.
    + unfold HeartbeatManager.handleHeartbeatTimeout. rewrite HonT. now cbn.
  - now cbn.
Qed.

(** Two probes are sent one second apart, the heartbeat is stopped, and
    the timeout of the first probe (handle 2), which [stop] did not clear,
    fires. *)
Lemma stopped_heartbeat_is_silent_witness :
  let ops : list (HeartbeatOps.Op nat) :=
    [HeartbeatOps.Start 1%nat 2%nat (Some 3%nat);
     HeartbeatOps.Fire 1 1000 HeartbeatManager.PingSent;
     HeartbeatOps.Fire 1 2000 HeartbeatManager.PingSent;
     HeartbeatOps.Stop] in
  let hw :=
    HeartbeatOps.run ops
      (HeartbeatManager.new (HeartbeatManager.mkConfig 1000 5000),
       Window.empty) in
  Window.pending 2 hw.2
  = Some (Window.mkTimer Window.HeartbeatTimeout 5000 false)
  /\ (HeartbeatOps.apply hw
        (HeartbeatOps.Fire 2 6000 HeartbeatManager.PingSent)).2 = [].
Proof.
  intros ops hw. split; [vm_compute; reflexivity|].
  apply (stopped_heartbeat_is_silent
           (HeartbeatManager.mkConfig 1000 5000) Window.empty ops
           (HeartbeatOps.Fire 2 6000 HeartbeatManager.PingSent));
    vm_compute; reflexivity.
Defined.

(** X11.  [updateConfig] does not touch the timers: a running heartbeat
    keeps ticking at the interval it was started with, although [enabled]
    already answers for the new interval.  Only the next [start] applies
    the new configuration: it clears the old tick and arms one with the
    new interval, or, when the new interval is not positive, leaves the
    heartbeat stopped. *)
Theorem updateConfig_applies_on_restart {CB : Type} (ping onT : CB)
    (onP : option CB) (u : HeartbeatManager.ConfigUpdate) (i' : Z)
    (h : HeartbeatManager.t CB) (w : Window.t) :
  0 < HeartbeatManager.interval (HeartbeatManager.config h) ->
  HeartbeatManager.setInterval u = Some i' ->
  let s1 := HeartbeatManager.start ping onT onP h w in
  let h2 := HeartbeatManager.updateConfig u s1.1 in
  let s3 := HeartbeatManager.start ping onT onP h2 s1.2 in
  exists id1,
    HeartbeatManager.intervalId h2 = Some id1
    /\ HeartbeatManager.running h2 = true
    /\ HeartbeatManager.enabled h2 = (i' >? 0)
    /\ Window.pending id1 s1.2
       = Some (Window.mkTimer Window.HeartbeatInterval
                 (HeartbeatManager.interval (HeartbeatManager.config h)) true)
    /\ Window.pending id1 s3.2 = None
    /\ (0 < i' ->
        exists id3,
          HeartbeatManager.intervalId s3.1 = Some id3
          /\ Window.pending id3 s3.2
             = Some (Window.mkTimer Window.HeartbeatInterval i' true))
    /\ (i' <= 0 ->
        HeartbeatManager.running s3.1 = false
        /\ HeartbeatManager.intervalId s3.1 = None).
Proof.
  intros Hpos Hu. cbv zeta.
  remember (HeartbeatManager.start ping onT onP h w) as s1 eqn:Hs1.
  unfold HeartbeatManager.start, HeartbeatManager.stop in Hs1.
  cbn [fst snd HeartbeatManager.config] in Hs1.
  destruct (Z.leb_spec (HeartbeatManager.interval (HeartbeatManager.config h))
              0) as [Hle|_]; [lia|].
  set (w1 := HeartbeatManager.clearHandle (HeartbeatManager.timeoutId h)
               (HeartbeatManager.clearHandle
                  (HeartbeatManager.intervalId h) w)) in Hs1.
  unfold Window.setInterval in Hs1. cbn [fst snd Window.arm] in Hs1.
  subst s1. cbn [fst snd].
  exists (Window.nextId w1).
  unfold HeartbeatManager.running, HeartbeatManager.enabled.
  cbn [HeartbeatManager.updateConfig HeartbeatManager.intervalId
       HeartbeatManager.isRunning HeartbeatManager.config
       HeartbeatManager.interval].
  rewrite Hu. cbn [default].
  split; [reflexivity|]. split; [reflexivity|]. split; [reflexivity|].
  split.
  { unfold Window.pending; simpl. apply lookup_insert_eq. }
  unfold HeartbeatManager.start, HeartbeatManager.stop.
  cbn [fst snd HeartbeatManager.config HeartbeatManager.interval
       HeartbeatManager.intervalId HeartbeatManager.timeoutId
       HeartbeatManager.clearHandle HeartbeatManager.updateConfig].
  rewrite Hu. unfold default, from_option, id.
  destruct (Z.leb_spec i' 0) as [Hle|Hlt]; cbn [fst snd].
  - split; [|split; [lia|intros _; now split]].
    unfold Window.pending; simpl. apply lookup_delete_eq.
  - split; [|split; [|lia]].
    + unfold Window.pending, Window.setInterval, Window.arm; simpl.
      rewrite lookup_insert_ne by lia. apply lookup_delete_eq.
    + intros _. eexists. split; [reflexivity|].
      unfold Window.pending, Window.setInterval, Window.arm; simpl.
      apply lookup_insert_eq.
Qed.

(** A heartbeat started at 30 s and updated to 5 s. *)
Lemma updateConfig_applies_on_restart_witness :
  let h : HeartbeatManager.t nat :=
    HeartbeatManager.new (HeartbeatManager.mkConfig 30000 10000) in
  let u := HeartbeatManager.mkUpdate (Some 5000) None in
  let s1 := HeartbeatManager.start 1%nat 2%nat None h Window.empty in
  let h2 := HeartbeatManager.updateConfig u s1.1 in
  let s3 := HeartbeatManager.start 1%nat 2%nat None h2 s1.2 in
  exists id1,
    HeartbeatManager.intervalId h2 = Some id1
    /\ HeartbeatManager.running h2 = true
    /\ HeartbeatManager.enabled h2 = (5000 >? 0)
    /\ Window.pending id1 s1.2
       = Some (Window.mkTimer Window.HeartbeatInterval 30000 true)
    /\ Window.pending id1 s3.2 = None
    /\ (0 < 5000 ->
        exists id3,
          HeartbeatManager.intervalId s3.1 = Some id3
          /\ Window.pending id3 s3.2
             = Some (Window.mkTimer Window.HeartbeatInterval 5000 true))
    /\ (5000 <= 0 ->
        HeartbeatManager.running s3.1 = false
        /\ HeartbeatManager.intervalId s3.1 = None).
Proof.
  intros h u.
  apply (updateConfig_applies_on_restart 1%nat 2%nat None u 5000 h
           Window.empty); [vm_compute; reflexivity|reflexivity].
Defined.

(** ** ConnectionMetrics *)

Section LatencyWindow.

Import ConnectionMetrics.

Lemma lastN_lastN_snoc {A : Type} (n : nat) (l : list A) (x : A) :
  lastN n (lastN n l ++ [x]) = lastN n (l ++ [x]).
Proof.
  destruct (Nat.le_gt_cases (length l) n) as [Hle|Hgt].
  - now rewrite (lastN_short n l Hle).
  - unfold lastN at 1. rewrite length_app, lastN_length. simpl.
    replace (Nat.min n (length l) + 1 - n)%nat with 1%nat by lia.
    unfold lastN. rewrite length_app; simpl.
    rewrite <- (drop_app_le l [x] (length l - n)) by lia.
    rewrite drop_drop. f_equal. lia.
Qed.

(** The list after [push] and the conditional [shift]. *)
Lemma push_trim (n : Z) (l : list Z) (x : Z) :
  (length l <= Z.to_nat n)%nat ->
  (if Z.of_nat (length (l ++ [x])) >? n then tail (l ++ [x]) else l ++ [x])
  = lastN (Z.to_nat n) (l ++ [x]).
Proof.
  intros Hl. rewrite length_app; simpl.
  destruct (Z.gtb_spec (Z.of_nat (length l + 1)) n) as [Hgt|Hle].
  - unfold lastN. rewrite length_app; simpl.
    replace (length l + 1 - Z.to_nat n)%nat with 1%nat by lia.
    now destruct (l ++ [x]).
  - symmetry. apply lastN_short. rewrite length_app; simpl. lia.
Qed.

Lemma recordLatency_max (x : Z) (m : t) :
  maxLatencyMeasurements (recordLatency x m) = maxLatencyMeasurements m.
Proof. reflexivity. Qed.

Lemma recordLatencies_max (ls : list Z) (m : t) :
  maxLatencyMeasurements (recordLatencies ls m) = maxLatencyMeasurements m.
Proof.
  unfold recordLatencies. revert m.
  induction ls as [|x ls IH]; intros m; simpl; [reflexivity|].
  now rewrite IH.
Qed.

Lemma sum_between (lo hi : Z) (l : list Z) (acc : Z) :
  (forall x, In x l -> lo <= x <= hi) ->
  acc + Z.of_nat (length l) * lo <= fold_left Z.add l acc
  <= acc + Z.of_nat (length l) * hi.
Proof.
  revert acc. induction l as [|x l IH]; intros acc Hl; simpl fold_left.
  - simpl. lia.
  - assert (Hx : lo <= x <= hi) by (apply Hl; now left).
    specialize (IH (acc + x) (fun y Hy => Hl y (or_intror Hy))).
    rewrite length_cons, Nat2Z.inj_succ. lia.
Qed.

Lemma round_inject_Z (z : Z) : round (inject_Z z) = z.
Proof.
  unfold round, Qfloor, Qplus, inject_Z; simpl.
  change (Z.pos (1 * 2)) with 2. change (1 * 1) with 1.
  rewrite Z.div_add_l by discriminate. change (1 `div` 2) with 0. lia.
Qed.

Lemma round_le (x y : Q) : (x <= y)%Q -> round x <= round y.
Proof.
  intros H. unfold round. apply Qfloor_resp_le.
  now apply Qplus_le_l.
Qed.

End LatencyWindow.

(** X12.  The latencies kept are a sliding window: after any samples are
    recorded one after the other, the list holds the last
    [maxLatencyMeasurements] of the old and the new samples, in their
    order, and [lastLatency] is the last sample.  With a bound that is not
    positive nothing is kept, while [lastLatency] is still written. *)
Theorem recordLatency_sliding_window (ls : list Z)
    (m : ConnectionMetrics.t) :
  (length (ConnectionMetrics.latencyMeasurements m)
   <= Z.to_nat (ConnectionMetrics.maxLatencyMeasurements m))%nat ->
  ConnectionMetrics.latencyMeasurements (recordLatencies ls m)
  = lastN (Z.to_nat (ConnectionMetrics.maxLatencyMeasurements m))
      (ConnectionMetrics.latencyMeasurements m ++ ls)
  /\ ConnectionMetrics.lastLatency (recordLatencies ls m)
     = List.last ls (ConnectionMetrics.lastLatency m).
Proof.
  intros Hm. induction ls as [|x ls IH] using rev_ind.
  - simpl. rewrite app_nil_r. split; [|reflexivity].
    symmetry. now apply lastN_short.
  - destruct IH as [IHw _].
    unfold recordLatencies in *. rewrite fold_left_app. simpl fold_left.
    fold (recordLatencies ls m) in *.
    split; [|now rewrite last_last].
    unfold ConnectionMetrics.recordLatency at 1.
    cbn [ConnectionMetrics.latencyMeasurements].
    rewrite recordLatencies_max.
    rewrite push_trim.
    + rewrite IHw, app_assoc. apply lastN_lastN_snoc.
    + rewrite IHw, lastN_length. lia.
Qed.

(** Twelve samples into fresh metrics, which keep ten. *)
Lemma recordLatency_sliding_window_witness :
  let ls := [10; 20; 30; 40; 50; 60; 70; 80; 90; 100; 110; 120] in
  ConnectionMetrics.latencyMeasurements
    (recordLatencies ls ConnectionMetrics.new)
  = [30; 40; 50; 60; 70; 80; 90; 100; 110; 120]
  /\ ConnectionMetrics.lastLatency (recordLatencies ls ConnectionMetrics.new)
     = 120.
Proof.
  intros ls.
  apply (recordLatency_sliding_window ls ConnectionMetrics.new).
  vm_compute. lia.
Defined.



(** X14.  [getConnectionDuration] answers [null] before the first
    connection, the time since the connection while it is the first one,
    and the length of the connection once it is closed.  [recordConnect]
    does not clear the time of the last disconnection: after a
    reconnection at a later time the answer is the time of the last
    disconnection minus the time of the reconnection, which is not
    positive and does not depend on the current time. *)
Theorem getConnectionDuration_cases (m : ConnectionMetrics.t)
    (c d c' now : Z) :
  0 < c -> c <= d -> d <= c' ->
  ConnectionMetrics.connectedAt m = None ->
  ConnectionMetrics.disconnectedAt m = None ->
  let m1 := ConnectionMetrics.recordConnect c m in
  let m2 := ConnectionMetrics.recordDisconnect d m1 in
  let m3 := ConnectionMetrics.recordConnect c' m2 in
  ConnectionMetrics.getConnectionDuration now m = None
  /\ ConnectionMetrics.getConnectionDuration now m1 = Some (now - c)
  /\ ConnectionMetrics.getConnectionDuration now m2 = Some (d - c)
  /\ ConnectionMetrics.getConnectionDuration now m3 = Some (d - c')
  /\ d - c' <= 0.
Proof.
  intros Hc Hd Hc' Hm Hm'. cbv zeta.
  unfold ConnectionMetrics.getConnectionDuration; simpl.
  rewrite Hm, Hm'. simpl.
  destruct (Z.eqb_spec c 0); [lia|].
  destruct (Z.eqb_spec c' 0); [lia|].
  repeat split. lia.
Qed.

Lemma getConnectionDuration_cases_witness :
  let m := ConnectionMetrics.new in
  let m3 :=
    ConnectionMetrics.recordConnect 5000
      (ConnectionMetrics.recordDisconnect 3000
         (ConnectionMetrics.recordConnect 1000 m)) in
  ConnectionMetrics.getConnectionDuration 9000 m3 = Some (3000 - 5000).
Proof.
  intros m.
  apply (getConnectionDuration_cases m 1000 3000 5000 9000);
    [lia|lia|lia|reflexivity|reflexivity].
Defined.

(** * Further properties of the service *)

(** ** Inbound frames *)

Section InboundFrames.

Import WebSocketService.

(** [handlePong] as an update: the heartbeat, the timers and the metrics,
    of which only the latencies. *)
Lemma handlePong_update now s :
  exists m,
    handlePong now s
    = set_metrics m
        (set_window
           (HeartbeatManager.handlePong now (heartbeat s) (window s)).1.2
           (set_heartbeat
              (HeartbeatManager.handlePong now (heartbeat s) (window s)).1.1
              s))
    /\ ConnectionMetrics.messagesReceived m
       = ConnectionMetrics.messagesReceived (metrics s)
    /\ ConnectionMetrics.messagesSent m
       = ConnectionMetrics.messagesSent (metrics s)
    /\ ConnectionMetrics.errors m = ConnectionMetrics.errors (metrics s)
    /\ ConnectionMetrics.reconnectAttempts m
       = ConnectionMetrics.reconnectAttempts (metrics s).
Proof.
  unfold handlePong, HeartbeatManager.handlePong.
  destruct s as [cfg so st au q m h r ct md de w ss evs ca fr cl]. fields.
  cbn [fst snd].
  destruct (HeartbeatManager.lastPingTime h >? 0);
    [destruct (HeartbeatManager.onPong h) as [[]|]|];
    cbn [fold_left runHeartbeatCall]; updates;
    eexists; (split; [reflexivity|]); now repeat split.
Qed.

End InboundFrames.

(** X15.  An inbound PONG frame is consumed by the heartbeat: no event is
    emitted for it.  Every other frame that parses is emitted as exactly
    one [message] event with the parsed data, the raw data and the time; a
    frame that does not parse is emitted as exactly one [error] event of
    type parse and counted as an error.  Every frame is counted as
    received, and none changes the state, the queue or what was sent. *)
Theorem handleMessage_events (now : Z) (event : MessageEvent)
    (s : WebSocketService.t) :
  let s' := WebSocketService.handleMessage now event s in
  ConnectionMetrics.messagesReceived (WebSocketService.metrics s')
  = ConnectionMetrics.messagesReceived (WebSocketService.metrics s) + 1
  /\ WebSocketService.state s' = WebSocketService.state s
  /\ WebSocketService.messageQueue s' = WebSocketService.messageQueue s
  /\ WebSocketService.frames s' = WebSocketService.frames s
  /\ match parsed event with
     | Some d =>
         if isPong d then
           WebSocketService.emitted s' = WebSocketService.emitted s
           /\ HeartbeatManager.timeoutId (WebSocketService.heartbeat s')
              = None
           /\ ConnectionMetrics.errors (WebSocketService.metrics s')
              = ConnectionMetrics.errors (WebSocketService.metrics s)
         else
           WebSocketService.emitted s'
           = WebSocketService.emitted s ++ [EvMessage d (data event) now]
           /\ ConnectionMetrics.errors (WebSocketService.metrics s')
              = ConnectionMetrics.errors (WebSocketService.metrics s)
     | None =>
         (exists msg,
            WebSocketService.emitted s'
            = WebSocketService.emitted s ++ [EvError "parse" msg now])
         /\ ConnectionMetrics.errors (WebSocketService.metrics s')
            = ConnectionMetrics.errors (WebSocketService.metrics s) + 1
     end.
Proof.
  cbv zeta. unfold WebSocketService.handleMessage, isPong.
  destruct (parsed event) as [[ty|]|].
  - destruct (String.eqb ty "PONG").
    + destruct (handlePong_update now
                  (WebSocketService.set_metrics
                     (ConnectionMetrics.recordMessageReceived
                        (WebSocketService.metrics s)) s))
        as (m & -> & Hr & _ & He & _).
      revert Hr He. fields. intros Hr He. now repeat split.
    + fields. now repeat split.
  - fields. now repeat split.
  - fields. repeat (split; [reflexivity|]). split; [|reflexivity].
    eexists. reflexivity.
Qed.

(** ** Sending while connected *)

Section SendConnected.

Import WebSocketService.

Lemma callOpt_update f c s :
  callOpt f c s
  = set_called (called s ++ match f with Some g => [c g] | None => [] end) s.
Proof.
  unfold callOpt, callUser. destruct f; [reflexivity|].
  destruct s; simpl. now rewrite app_nil_r.
Qed.

(** [transmit] writes the frames only. *)
Lemma transmit_update serialized s sid :
  socket s = Some sid ->
  transmit serialized s
  = match WebSocket.send sid (sockets s) with
    | WebSocket.SendThrows => Threw "InvalidStateError"
    | _ =>
        Returned
          (set_frames (frames s ++ transmitted sid serialized (sockets s)) s)
    end.
Proof.
  intros Hs. unfold transmit, transmitted. rewrite Hs.
  destruct (WebSocket.send sid (sockets s)); try reflexivity;
    destruct s; simpl; now rewrite app_nil_r.
Qed.

(** A [send] that succeeds, as an update. *)
Lemma send_succeeds now command options s sid serialized :
  state s = CONNECTED -> socket s = Some sid ->
  serializeClientCommand command = Returned serialized ->
  WebSocket.send sid (sockets s) <> WebSocket.SendThrows ->
  send now command options s
  = (set_called (called s ++ onSuccessCalls (onSuccess options))
       (set_emitted (emitted s ++ [EvMessageSent command serialized now])
          (set_metrics (ConnectionMetrics.recordMessageSent (metrics s))
             (set_frames
                (frames s ++ transmitted sid serialized (sockets s)) s))),
     mkResult true false None now).
Proof.
  intros Hst Hso Hser Hsend. unfold send.
  rewrite Hst, Hser, (transmit_update _ _ _ Hso).
  rewrite bool_decide_eq_true_2 by reflexivity. cbn [negb].
  destruct (WebSocket.send sid (sockets s)); [congruence| |];
    rewrite callOpt_update; reflexivity.
Qed.

(** A [send] that fails, as an update. *)
Lemma send_fails now command options s msg :
  state s = CONNECTED -> sendThrows command s = Some msg ->
  send now command options s
  = (set_called (called s ++ onErrorCalls (onError options) msg)
       (set_emitted
          (emitted s
           ++ [EvError "send" (String.append "Failed to send message: " msg)
                 now])
          (set_metrics (ConnectionMetrics.recordError (metrics s)) s)),
     mkResult false false (Some msg) now).
Proof.
  intros Hst Hthrows. unfold send, sendThrows in *.
  rewrite Hst. rewrite bool_decide_eq_true_2 by reflexivity. cbn [negb].
  destruct (serializeClientCommand command) as [serialized|msg'].
  - destruct (transmit serialized s) as [s'|msg']; [discriminate|].
    injection Hthrows as ->. unfold sendFailed.
    rewrite callOpt_update. reflexivity.
  - injection Hthrows as ->. unfold sendFailed.
    rewrite callOpt_update. reflexivity.
Qed.

Lemma sendThrows_cases command s sid :
  socket s = Some sid ->
  sendThrows command s = None
  <-> exists serialized,
        serializeClientCommand command = Returned serialized
        /\ WebSocket.send sid (sockets s) <> WebSocket.SendThrows.
Proof.
  intros Hso. unfold sendThrows.
  destruct (serializeClientCommand command) as [serialized|msg].
  - rewrite (transmit_update _ _ _ Hso).
    destruct (WebSocket.send sid (sockets s)); split;
      try discriminate; try (intros _; eexists; split; [reflexivity|];
                             discriminate);
      try reflexivity.
    intros (ser & _ & H). now destruct H.
  - split; [discriminate|]. intros (ser & H & _). discriminate.
Qed.

(** What [transmit] returns when it does not throw, whether the service
    refers to a socket or not. *)
Lemma transmit_returned serialized s s1 :
  transmit serialized s = Returned s1 ->
  s1 = set_frames
         (frames s
          ++ match socket s with
             | Some sid => transmitted sid serialized (sockets s)
             | None => []
             end) s.
Proof.
  destruct (socket s) as [sid|] eqn:Hso.
  - rewrite (transmit_update _ _ _ Hso). unfold transmitted.
    destruct (WebSocket.send sid (sockets s)); [discriminate| |];
      now intros [= <-].
  - unfold transmit. rewrite Hso. intros [= <-].
    destruct s; simpl in *. now rewrite app_nil_r.
Qed.

(** A [send] that throws nothing, as an update. *)
Lemma send_returns now command options s serialized :
  state s = CONNECTED ->
  serializeClientCommand command = Returned serialized ->
  sendThrows command s = None ->
  send now command options s
  = (set_called (called s ++ onSuccessCalls (onSuccess options))
       (set_emitted (emitted s ++ [EvMessageSent command serialized now])
          (set_metrics (ConnectionMetrics.recordMessageSent (metrics s))
             (set_frames
                (frames s
                 ++ match socket s with
                    | Some sid => transmitted sid serialized (sockets s)
                    | None => []
                    end) s))),
     mkResult true false None now).
Proof.
  intros Hst Hser Hthrows. unfold send, sendThrows in *.
  rewrite Hst, Hser in *.
  rewrite bool_decide_eq_true_2 by reflexivity. cbn [negb].
  destruct (transmit serialized s) as [s1|msg] eqn:Ht; [|discriminate].
  rewrite (transmit_returned _ _ _ Ht), callOpt_update. reflexivity.
Qed.

End SendConnected.

(** X16.  While the service is connected, [send] never queues.  When the
    command serialises and [socket.send] does not throw, it reports
    success, transmits the frame if the service refers to a socket and
    that socket is open (a socket that is closing or closed discards it
    silently, and a service that refers to no socket skips the
    transmission; the send counts as a success all the same), counts the
    message, emits one [message_sent] event and calls [onSuccess].  When
    serialising or [socket.send] throws, it reports the failure with the
    message of the exception, transmits nothing, counts an error, emits
    one [error] event of type send and calls [onError]; the message is not
    queued for a later attempt. *)
Theorem send_while_connected (now : Z) (command : ClientToServerCommand)
    (options : SendOptions) (s : WebSocketService.t) :
  WebSocketService.state s = CONNECTED ->
  let s' := (WebSocketService.send now command options s).1 in
  let r := (WebSocketService.send now command options s).2 in
  WebSocketService.messageQueue s' = WebSocketService.messageQueue s
  /\ WebSocketService.state s' = CONNECTED
  /\ queued r = false
  /\ match sendThrows command s with
     | None =>
         exists serialized,
           serializeClientCommand command = Returned serialized
           /\ r = mkResult true false None now
           /\ WebSocketService.frames s'
              = WebSocketService.frames s
                ++ match WebSocketService.socket s with
                   | Some sid =>
                       transmitted sid serialized (WebSocketService.sockets s)
                   | None => []
                   end
           /\ WebSocketService.emitted s'
              = WebSocketService.emitted s
                ++ [EvMessageSent command serialized now]
           /\ WebSocketService.called s'
              = WebSocketService.called s
                ++ onSuccessCalls (onSuccess options)
           /\ WebSocketService.metrics s'
              = ConnectionMetrics.recordMessageSent
                  (WebSocketService.metrics s)
     | Some msg =>
         r = mkResult false false (Some msg) now
         /\ WebSocketService.frames s' = WebSocketService.frames s
         /\ WebSocketService.emitted s'
            = WebSocketService.emitted s
              ++ [EvError "send"
                    (String.append "Failed to send message: " msg) now]
         /\ WebSocketService.called s'
            = WebSocketService.called s ++ onErrorCalls (onError options) msg
         /\ WebSocketService.metrics s'
            = ConnectionMetrics.recordError (WebSocketService.metrics s)
     end.
Proof.
  intros Hst. cbv zeta.
  destruct (sendThrows command s) as [msg|] eqn:Hthrows.
  - rewrite (send_fails now command options s msg Hst Hthrows).
    cbn [fst snd]. fields. now repeat split.
  - assert (Hser : exists serialized,
               serializeClientCommand command = Returned serialized).
    { unfold sendThrows in Hthrows.
      destruct (serializeClientCommand command) as [serialized|msg];
        [now exists serialized|discriminate]. }
    destruct Hser as (serialized & Hser).
    rewrite (send_returns now command options s serialized
               Hst Hser Hthrows).
    cbn [fst snd]. fields. repeat (split; [easy|]).
    exists serialized. now repeat split.
Qed.

(** A command sent through the open socket 0; one that cannot be
    serialised; and one sent while the service is connected and refers to
    no socket: success is reported and [onSuccess] is called, and no frame
    is transmitted. *)
Lemma send_while_connected_witness :
  (WebSocketService.send 20 Sample.move
     (mkOptions None (Some 1%nat) (Some 2%nat)) Sample.connected).2
  = mkResult true false None 20
  /\ queued
       (WebSocketService.send 20 Sample.cyclic
          (mkOptions (Some true) (Some 1%nat) (Some 2%nat))
          Sample.connected).2
     = false
  /\ (WebSocketService.state Sample.detached = CONNECTED
      /\ WebSocketService.socket Sample.detached = None
      /\ (WebSocketService.send 1040 Sample.move
            (mkOptions None (Some 1%nat) (Some 2%nat)) Sample.detached).2
         = mkResult true false None 1040
      /\ WebSocketService.frames
           (WebSocketService.send 1040 Sample.move
              (mkOptions None (Some 1%nat) (Some 2%nat)) Sample.detached).1
         = WebSocketService.frames Sample.detached
      /\ WebSocketService.called
           (WebSocketService.send 1040 Sample.move
              (mkOptions None (Some 1%nat) (Some 2%nat)) Sample.detached).1
         = WebSocketService.called Sample.detached ++ [CalledOnSuccess 1%nat]).
Proof.
  split; [vm_compute; reflexivity|].
  split.
  - apply (send_while_connected 20 Sample.cyclic
             (mkOptions (Some true) (Some 1%nat) (Some 2%nat))
             Sample.connected); vm_compute; reflexivity.
  - vm_compute. repeat split.
Defined.

(** ** The queue when the connection opens *)

Section FlushOnOpen.

Import WebSocketService.

Lemma startHeartbeat_update s :
  exists h w, startHeartbeat s = set_window w (set_heartbeat h s).
Proof.
  unfold startHeartbeat.
  destruct (negb (HeartbeatManager.enabled (heartbeat s))).
  - exists (heartbeat s), (window s). now destruct s.
  - destruct (HeartbeatManager.start _ _ _ _ _) as [h w]. now exists h, w.
Qed.

(** The messages of a flush sent one after the other through an open
    socket. *)
Lemma flush_sends now sid ms x :
  state x = CONNECTED -> socket x = Some sid ->
  sockets x !! sid = Some WebSocket.Open ->
  let x' :=
    fold_left
      (fun s m =>
         (send now (MessageQueue.command m)
            (mkOptions None (MessageQueue.onSuccess m)
               (MessageQueue.onError m)) s).1) ms x in
  state x' = CONNECTED /\ socket x' = Some sid /\ sockets x' = sockets x
  /\ messageQueue x' = messageQueue x
  /\ frames x' = frames x ++ flushedFrames sid ms
  /\ called x' = called x ++ flushedCalls ms
  /\ emitted x' = emitted x ++ flushedEvents now ms.
Proof.
  revert x. induction ms as [|m ms IH]; intros x Hst Hso Hopen; cbv zeta.
  - simpl. now rewrite !app_nil_r.
  - cbn [fold_left].
    set (o := mkOptions None (MessageQueue.onSuccess m)
                (MessageQueue.onError m)).
    assert (Hsend : WebSocket.send sid (sockets x) = WebSocket.Transmitted)
      by (unfold WebSocket.send; now rewrite Hopen).
    assert (Hstep :
      let y := (send now (MessageQueue.command m) o x).1 in
      state y = CONNECTED /\ socket y = Some sid /\ sockets y = sockets x
      /\ messageQueue y = messageQueue x
      /\ frames y = frames x ++ flushedFrames sid [m]
      /\ called y = called x ++ flushedCalls [m]
      /\ emitted y = emitted x ++ flushedEvents now [m]).
    { cbv zeta. unfold flushedFrames, flushedCalls, flushedEvents.
      cbn [flat_map map]. rewrite !app_nil_r.
      destruct (serializeClientCommand (MessageQueue.command m))
        as [serialized|msg] eqn:Hser.
      - rewrite (send_succeeds now _ o x sid serialized Hst Hso Hser)
          by (rewrite Hsend; discriminate).
        cbn [fst]. fields. unfold transmitted. rewrite Hsend.
        now repeat split.
      - rewrite (send_fails now _ o x msg Hst)
          by (unfold sendThrows; now rewrite Hser).
        cbn [fst]. fields. rewrite app_nil_r. now repeat split. }
    cbv zeta in Hstep.
    destruct Hstep as (Hst1 & Hso1 & Hss1 & Hq1 & Hf1 & Hc1 & He1).
    specialize (IH _ Hst1 Hso1). rewrite Hss1 in IH. specialize (IH Hopen).
    cbv zeta in IH. destruct IH as (Hst2 & Hso2 & Hss2 & Hq2 & Hf2 & Hc2 & He2).
    rewrite Hst2, Hso2, Hss2, Hq2, Hf2, Hc2, He2, Hq1, Hf1, Hc1, He1.
    rewrite <- !app_assoc.
    change (m :: ms) with ([m] ++ ms).
    unfold flushedFrames, flushedCalls, flushedEvents.
    rewrite !flat_map_app, map_app. now repeat split.
Qed.

Lemma flushQueue_connected now sid x :
  state x = CONNECTED -> socket x = Some sid ->
  sockets x !! sid = Some WebSocket.Open ->
  let ms := MessageQueue.queue (messageQueue x) in
  let x' := flushQueue now x in
  state x' = CONNECTED /\ socket x' = Some sid
  /\ MessageQueue.queue (messageQueue x') = []
  /\ frames x' = frames x ++ flushedFrames sid ms
  /\ called x' = called x ++ flushedCalls ms
  /\ emitted x' = emitted x ++ flushedEvents now ms.
Proof.
  intros Hst Hso Hopen. cbv zeta. unfold flushQueue, MessageQueue.isEmpty.
  destruct (Z.eqb_spec (MessageQueue.size (messageQueue x)) 0) as [H0|Hne].
  - assert (Hnil : MessageQueue.queue (messageQueue x) = []).
    { unfold MessageQueue.size in H0.
      destruct (MessageQueue.queue (messageQueue x)); [reflexivity|].
      simpl in H0. lia. }
    rewrite Hnil. simpl. now rewrite !app_nil_r.
  - unfold MessageQueue.flush.
    pose proof (flush_sends now sid (MessageQueue.queue (messageQueue x))
                  (set_messageQueue
                     (MessageQueue.mk [] (MessageQueue.config (messageQueue x)))
                     x) Hst Hso Hopen) as H.
    cbv zeta in H. revert H. fields.
    intros (H1 & H2 & _ & H4 & H5 & H6 & H7).
    rewrite H1, H2, H4, H5, H6, H7. now repeat split.
Qed.

End FlushOnOpen.

(** X17.  When the connection opens, the messages queued while the service
    was not connected are sent through the new socket in the order in
    which they were queued, after the [connected] event; the queue is left
    empty.  A queued message that cannot be serialised is reported to its
    [onError] and dropped; it does not stop the messages after it. *)
Theorem handleOpen_flushes_queue (now : Z) (s : WebSocketService.t)
    (sid : nat) :
  WebSocketService.socket s = Some sid ->
  WebSocketService.sockets s !! sid = Some WebSocket.Open ->
  let ms := MessageQueue.queue (WebSocketService.messageQueue s) in
  let s' := WebSocketService.handleOpen now s in
  WebSocketService.state s' = CONNECTED
  /\ MessageQueue.queue (WebSocketService.messageQueue s') = []
  /\ WebSocketService.frames s'
     = WebSocketService.frames s ++ flushedFrames sid ms
  /\ WebSocketService.called s' = WebSocketService.called s ++ flushedCalls ms
  /\ WebSocketService.emitted s'
     = WebSocketService.emitted s
       ++ stateChange now (WebSocketService.state s) CONNECTED
       ++ EvConnected now
            (ReconnectionManager.attemptCount
               (WebSocketService.reconnection s))
          :: flushedEvents now ms.
Proof.
  intros Hso Hopen. cbv zeta. unfold WebSocketService.handleOpen. cbv zeta.
  destruct (clearConnectionTimeout_update s) as (id & w0 & ->).
  rewrite setState_update. fields.
  match goal with
  | |- context [WebSocketService.set_reconnection _ ?x] => set (s4 := x)
  end.
  assert (H4 : WebSocketService.state s4 = CONNECTED
               /\ WebSocketService.socket s4 = Some sid
               /\ WebSocketService.sockets s4 = WebSocketService.sockets s
               /\ WebSocketService.messageQueue s4
                  = WebSocketService.messageQueue s
               /\ WebSocketService.frames s4 = WebSocketService.frames s
               /\ WebSocketService.called s4 = WebSocketService.called s
               /\ WebSocketService.emitted s4
                  = WebSocketService.emitted s
                    ++ stateChange now (WebSocketService.state s) CONNECTED
               /\ WebSocketService.reconnection s4
                  = WebSocketService.reconnection s).
  { unfold s4. destruct (_ >? 0); fields; now repeat split. }
  clearbody s4.
  destruct H4 as (Hst4 & Hso4 & Hss4 & Hq4 & Hf4 & Hc4 & He4 & Hr4).
  rewrite Hr4.
  destruct (ReconnectionManager.reset _ _) as [r w].
  match goal with
  | |- context [WebSocketService.startHeartbeat ?x] =>
      destruct (startHeartbeat_update x) as (h & w1 & ->)
  end.
  match goal with
  | |- context [WebSocketService.flushQueue now ?x] =>
      pose proof (flushQueue_connected now sid x) as H
  end.
  revert H. fields. rewrite Hst4, Hso4, Hss4, Hq4, Hf4, Hc4, He4.
  intros H. specialize (H eq_refl eq_refl Hopen).
  destruct H as (H1 & _ & H3 & H5 & H6 & H7).
  rewrite H1, H3, H5, H6, H7. rewrite <- !app_assoc.
  now repeat split.
Qed.

(** Three queued commands, the second of which cannot be serialised. *)
Lemma handleOpen_flushes_queue_witness :
  WebSocketService.frames (WebSocketService.handleOpen 10 Sample.opening)
  = WebSocketService.frames Sample.opening
    ++ flushedFrames 0
         (MessageQueue.queue (WebSocketService.messageQueue Sample.opening))
  /\ flushedFrames 0
       (MessageQueue.queue (WebSocketService.messageQueue Sample.opening))
     = [(0%nat, "MOVE-1"%string); (0%nat, "LOOK-2"%string)].
Proof.
  split; [|vm_compute; reflexivity].
  apply (handleOpen_flushes_queue 10 Sample.opening 0);
    vm_compute; reflexivity.
Defined.

(** ** Closing by hand *)

Section ManualClose.

Import WebSocketService.

(** [closeConnection] as an update. *)
Lemma closeConnection_update now reason s :
  exists id w ss,
    closeConnection now reason s
    = set_emitted (emitted s ++ stateChange now (state s) CLOSED)
        (set_state CLOSED
           (set_socket None
              (set_closeCalls (closeCalls s ++ closeCall reason (socket s))
                 (set_sockets ss
                    (set_window w
                       (set_heartbeat
                          (HeartbeatManager.stop (heartbeat s) (window s)).1
                          (set_connectionTimeoutId id s)))))))
    /\ Window.nextId w = Window.nextId (window s)
    /\ length ss = length (sockets s).
Proof.
  unfold closeConnection. cbv zeta.
  assert (Hst : forall x,
             (if decide (state x = CLOSED) then x else setState now CLOSED x)
             = setState now CLOSED x).
  { intros x. unfold setState. now destruct (decide (state x = CLOSED)). }
  rewrite Hst, setState_update. clear Hst.
  unfold clearConnectionTimeout, stopHeartbeat, HeartbeatManager.stop,
    closeCall.
  destruct s as [cfg so st au q m h r ct md de w ss evs ca fr cl]. fields.
  assert (Hn : forall o w0,
             Window.nextId (HeartbeatManager.clearHandle o w0)
             = Window.nextId w0) by (now intros [|] w0).
  assert (Hl : forall sid, length (WebSocket.close sid ss) = length ss).
  { intros sid. unfold WebSocket.close.
    destruct (ss !! sid) as [[]|]; try reflexivity;
      apply length_insert. }
  destruct ct as [id|]; [destruct (id =? 0)%nat|]; destruct so as [sid|];
    fields; updates; eexists _, _, _;
    (split; [rewrite ?app_nil_r; reflexivity|]);
    cbn [Window.nextId Window.clearTimeout]; rewrite ?Hn, ?Hl; now split.
Qed.

(** [disconnect] as an update. *)
Lemma disconnect_update now s :
  exists id w ss,
    disconnect now s
    = set_emitted (emitted s ++ stateChange now (state s) CLOSED)
        (set_state CLOSED
           (set_socket None
              (set_closeCalls (closeCalls s ++ closeCall MANUAL (socket s))
                 (set_sockets ss
                    (set_window w
                       (set_heartbeat
                          (HeartbeatManager.stop (heartbeat s) (window s)).1
                          (set_connectionTimeoutId id
                             (set_reconnection
                                (ReconnectionManager.cancel (reconnection s)
                                   (window s)).1
                                (set_isManualDisconnect true s)))))))))
    /\ Window.nextId w = Window.nextId (window s)
    /\ length ss = length (sockets s).
Proof.
  unfold disconnect. cbv zeta.
  unfold ReconnectionManager.cancel at 1.
  match goal with
  | |- context [closeConnection now MANUAL ?x] =>
      destruct (closeConnection_update now MANUAL x)
        as (id & w & ss & -> & Hw & Hss)
  end.
  revert Hw Hss. unfold stopHeartbeat, HeartbeatManager.stop.
  destruct s as [cfg so st au q m h r ct md de w0 ss0 evs ca fr cl].
  fields. cbn [fst snd HeartbeatManager.intervalId HeartbeatManager.timeoutId
               HeartbeatManager.clearHandle HeartbeatManager.lastPingTime
               HeartbeatManager.config].
  intros Hw Hss. exists id, w, ss. updates.
  split; [reflexivity|]. split; [|exact Hss].
  rewrite Hw.
  assert (Hn : forall o w1,
             Window.nextId (HeartbeatManager.clearHandle o w1)
             = Window.nextId w1) by (now intros [|] w1).
  rewrite !Hn. unfold ReconnectionManager.cancel.
  now destruct (ReconnectionManager.timeoutId r).
Qed.

(** The timers after [closeConnection] and after [disconnect]: those of
    before, less the timers whose handles the service, the heartbeat and
    the reconnection manager hold. *)
Lemma closeConnection_window now reason s :
  window (closeConnection now reason s)
  = (HeartbeatManager.stop (heartbeat s)
       (window (clearConnectionTimeout s))).2.
Proof.
  unfold closeConnection. cbv zeta.
  assert (Hst : forall x,
             (if decide (state x = CLOSED) then x else setState now CLOSED x)
             = setState now CLOSED x).
  { intros x. unfold setState. now destruct (decide (state x = CLOSED)). }
  rewrite Hst, setState_update. clear Hst. fields.
  unfold stopHeartbeat.
  destruct (clearConnectionTimeout_update s) as (id & w & ->). fields.
  destruct (HeartbeatManager.stop (heartbeat s) w) as [h w1]. fields.
  cbn [snd]. now destruct (socket s).
Qed.

Lemma disconnect_window now s :
  window (disconnect now s)
  = let w0 := (ReconnectionManager.cancel (reconnection s) (window s)).2 in
    let w1 := (HeartbeatManager.stop (heartbeat s) w0).2 in
    match connectionTimeoutId s with
    | Some id => if (id =? 0)%nat then w1 else Window.clearTimeout id w1
    | None => w1
    end.
Proof.
  unfold disconnect. cbv zeta.
  unfold ReconnectionManager.cancel at 1. cbv iota.
  rewrite closeConnection_window. unfold stopHeartbeat. fields.
  unfold HeartbeatManager.stop. cbv iota. fields. cbn [snd].
  unfold clearConnectionTimeout. fields.
  cbn [HeartbeatManager.timeoutId HeartbeatManager.intervalId
       HeartbeatManager.clearHandle snd].
  destruct (connectionTimeoutId s) as [id|]; [destruct (id =? 0)%nat|];
    fields; reflexivity.
Qed.

(** Clearing timers arms none and keeps a cleared timer cleared. *)
Lemma pending_clearTimeout_was id i w tm :
  Window.pending i (Window.clearTimeout id w) = Some tm ->
  Window.pending i w = Some tm.
Proof.
  unfold Window.pending, Window.clearTimeout; simpl.
  intros H. apply lookup_delete_Some in H. tauto.
Qed.

Lemma pending_clearTimeout_none id i w :
  Window.pending i w = None ->
  Window.pending i (Window.clearTimeout id w) = None.
Proof.
  unfold Window.pending, Window.clearTimeout; simpl.
  intros H. apply lookup_delete_None. now right.
Qed.

Lemma pending_clearHandle_was o i w tm :
  Window.pending i (HeartbeatManager.clearHandle o w) = Some tm ->
  Window.pending i w = Some tm.
Proof. destruct o; [apply pending_clearTimeout_was|easy]. Qed.

Lemma pending_clearHandle_none o i w :
  Window.pending i w = None ->
  Window.pending i (HeartbeatManager.clearHandle o w) = None.
Proof. destruct o; [apply pending_clearTimeout_none|easy]. Qed.

Lemma disconnect_pending now s :
  (forall id,
      ReconnectionManager.timeoutId (reconnection s) = Some id ->
      Window.pending id (window (disconnect now s)) = None)
  /\ (forall id tm,
        Window.pending id (window (disconnect now s)) = Some tm ->
        Window.pending id (window s) = Some tm).
Proof.
  rewrite disconnect_window. cbv zeta.
  unfold ReconnectionManager.cancel, HeartbeatManager.stop. cbn [snd].
  split.
  - intros id Hid. rewrite Hid.
    assert (H : Window.pending id
                  (HeartbeatManager.clearHandle
                     (HeartbeatManager.timeoutId (heartbeat s))
                     (HeartbeatManager.clearHandle
                        (HeartbeatManager.intervalId (heartbeat s))
                        (Window.clearTimeout id (window s)))) = None).
    { do 2 apply pending_clearHandle_none. apply pending_clearTimeout. }
    destruct (connectionTimeoutId s) as [ct|]; [destruct (ct =? 0)%nat|];
      try exact H.
    now apply pending_clearTimeout_none.
  - intros id tm H.
    assert (H1 : Window.pending id
                   (HeartbeatManager.clearHandle
                      (HeartbeatManager.timeoutId (heartbeat s))
                      (HeartbeatManager.clearHandle
                         (HeartbeatManager.intervalId (heartbeat s))
                         match ReconnectionManager.timeoutId (reconnection s)
                         with
                         | Some id0 => Window.clearTimeout id0 (window s)
                         | None => window s
                         end)) = Some tm).
    { destruct (connectionTimeoutId s) as [ct|]; [destruct (ct =? 0)%nat|];
        try exact H.
      now apply pending_clearTimeout_was in H. }
    do 2 apply pending_clearHandle_was in H1.
    destruct (ReconnectionManager.timeoutId (reconnection s));
      [now apply pending_clearTimeout_was in H1|exact H1].
Qed.

End ManualClose.

(** X18.  [disconnect] leaves the service closed whatever its state was:
    the state is CLOSED, no socket is referred to, the heartbeat is
    stopped, the reconnection manager reports that nothing is scheduled
    and the timer whose handle it held is no longer pending, and the
    socket the service referred to was asked to close with the code 1000
    and the reason MANUAL.  It arms no timer: a timer that is pending
    afterwards was pending before (a reconnection timer whose handle a
    later [schedule] replaced in the manager is such a timer: it is not
    cancelled).  It emits the change of state only, and does not clear the
    authentication flag.  When the close event then arrives, the
    [disconnected] event carries the reason MANUAL, whatever the close
    code and the configuration, and the handler schedules no
    reconnection: it arms no timer and leaves the manager untouched. *)
Theorem disconnect_then_close (now now' : Z) (event : CloseEvent)
    (s : WebSocketService.t) :
  let s1 := WebSocketService.disconnect now s in
  let s2 := WebSocketService.handleClose now' event s1 in
  (WebSocketService.state s1 = CLOSED
   /\ WebSocketService.socket s1 = None
   /\ HeartbeatManager.running (WebSocketService.heartbeat s1) = false
   /\ ReconnectionManager.scheduled (WebSocketService.reconnection s1) = false
   /\ (forall id,
         ReconnectionManager.timeoutId (WebSocketService.reconnection s)
         = Some id ->
         Window.pending id (WebSocketService.window s1) = None)
   /\ (forall id tm,
         Window.pending id (WebSocketService.window s1) = Some tm ->
         Window.pending id (WebSocketService.window s) = Some tm)
   /\ Window.nextId (WebSocketService.window s1)
      = Window.nextId (WebSocketService.window s)
   /\ WebSocketService.closeCalls s1
      = WebSocketService.closeCalls s
        ++ closeCall MANUAL (WebSocketService.socket s)
   /\ WebSocketService.emitted s1
      = WebSocketService.emitted s
        ++ stateChange now (WebSocketService.state s) CLOSED
   /\ WebSocketService.isAuth s1 = WebSocketService.isAuth s)
  /\ (WebSocketService.emitted s2
      = WebSocketService.emitted s1
        ++ [EvDisconnected MANUAL (code event) (reason event)
              (WebSocketService.isAuth s) now']
      /\ WebSocketService.state s2 = CLOSED
      /\ WebSocketService.isAuth s2 = false
      /\ WebSocketService.reconnection s2 = WebSocketService.reconnection s1
      /\ Window.nextId (WebSocketService.window s2)
         = Window.nextId (WebSocketService.window s1)).
Proof.
  cbv zeta. destruct (disconnect_pending now s) as [Hheld Hwas].
  revert Hheld Hwas.
  destruct (disconnect_update now s) as (id & w & ss & -> & Hw & _).
  unfold WebSocketService.isAuth. fields. intros Hheld Hwas.
  split; [now repeat split|].
  unfold WebSocketService.handleClose. cbv zeta.
  match goal with
  | |- context [WebSocketService.clearConnectionTimeout ?x] =>
      assert (Hct : exists w1,
                WebSocketService.clearConnectionTimeout x
                = WebSocketService.set_connectionTimeoutId
                    (WebSocketService.connectionTimeoutId
                       (WebSocketService.clearConnectionTimeout x))
                    (WebSocketService.set_window w1 x)
                /\ Window.nextId w1 = Window.nextId w)
  end.
  { unfold WebSocketService.clearConnectionTimeout. fields.
    destruct id as [id|]; [destruct (id =? 0)%nat|]; fields.
    - exists w. split; [|reflexivity]. destruct s; reflexivity.
    - eexists. split; [reflexivity|]. reflexivity.
    - exists w. split; [|reflexivity]. destruct s; reflexivity. }
  destruct Hct as (w1 & -> & Hw1).
  rewrite stopHeartbeat_update, setState_update. fields.
  unfold WebSocketService.closeReason, stateChange.
  destruct (decide (CLOSED = CLOSED)); [|congruence].
  rewrite app_nil_r. repeat (split; [reflexivity|]).
  unfold HeartbeatManager.stop. cbn [snd fst HeartbeatManager.intervalId
    HeartbeatManager.timeoutId HeartbeatManager.clearHandle]. exact Hw1.
Qed.

(** Two reconnections were scheduled one after the other, and the manager
    holds the handle of timer 4.  [disconnect] cancels timer 4; timer 3,
    armed for 1000 ms by the first of them, stays pending, and when it
    fires the service connects again. *)
Lemma disconnect_then_close_witness :
  let s := Sample.scheduledTwice in
  let s1 := WebSocketService.disconnect 100 s in
  ReconnectionManager.timeoutId (WebSocketService.reconnection s) = Some 4%nat
  /\ WebSocketService.state s1 = CLOSED
  /\ ReconnectionManager.scheduled (WebSocketService.reconnection s1) = false
  /\ Window.pending 4 (WebSocketService.window s1) = None
  /\ Window.pending 3 (WebSocketService.window s1)
     = Some (Window.mkTimer Window.ReconnectDelay 1000 false)
  /\ WebSocketService.state
       <$> Execution.step 1025 (Execution.TimerFires 3) s1
     = Some CONNECTING.
Proof.
  cbv zeta.
  destruct (disconnect_then_close 100 100 Sample.lost Sample.scheduledTwice)
    as [(Hst & _ & _ & Hflag & Hheld & _) _].
  split; [vm_compute; reflexivity|].
  split; [exact Hst|]. split; [exact Hflag|].
  split; [apply Hheld; vm_compute; reflexivity|].
  split; vm_compute; reflexivity.
Defined.

(** ** Connecting *)

(** X26.  [connect] throws on a destroyed service and does nothing while
    the service is connecting or connected.  Otherwise it clears the
    manual flag and enters CONNECTING; it then constructs exactly one
    socket, which becomes the socket of the service, and arms the
    connection timeout with the configured delay.  When the constructor of
    the socket throws, the error is counted and the service ends CLOSED
    with no socket: the trace shows the two changes of state only, no
    [error] and no [disconnected] event, and no reconnection is
    scheduled. *)
Theorem connect_cases (now : Z) (s : WebSocketService.t) :
  (WebSocketService.isDestroyed s = true ->
   WebSocketService.connect now s
   = Threw "WebSocketService has been destroyed")
  /\ (WebSocketService.isDestroyed s = false ->
      WebSocketService.state s = CONNECTING
      \/ WebSocketService.state s = CONNECTED ->
      WebSocketService.connect now s = Returned s)
  /\ (WebSocketService.isDestroyed s = false ->
      WebSocketService.state s <> CONNECTING ->
      WebSocketService.state s <> CONNECTED ->
      exists s',
        WebSocketService.connect now s = Returned s'
        /\ WebSocketService.isManualDisconnect s' = false
        /\ WebSocketService.reconnection s' = WebSocketService.reconnection s
        /\ if WebSocketService.urlValid (WebSocketService.config s) then
             WebSocketService.state s' = CONNECTING
             /\ WebSocketService.sockets s'
                = WebSocketService.sockets s ++ [WebSocket.Connecting]
             /\ WebSocketService.socket s'
                = Some (length (WebSocketService.sockets s))
             /\ WebSocketService.connectionTimeoutId s'
                = Some (Window.nextId (WebSocketService.window s))
             /\ Window.pending (Window.nextId (WebSocketService.window s))
                  (WebSocketService.window s')
                = Some (Window.mkTimer Window.ConnectionTimeout
                          (WebSocketService.connectionTimeout
                             (WebSocketService.config s)) false)
             /\ WebSocketService.emitted s'
                = WebSocketService.emitted s
                  ++ [EvStateChange (WebSocketService.state s) CONNECTING now]
           else
             WebSocketService.state s' = CLOSED
             /\ WebSocketService.socket s' = None
             /\ length (WebSocketService.sockets s')
                = length (WebSocketService.sockets s)
             /\ ConnectionMetrics.errors (WebSocketService.metrics s')
                = ConnectionMetrics.errors (WebSocketService.metrics s) + 1
             /\ WebSocketService.emitted s'
                = WebSocketService.emitted s
                  ++ [EvStateChange (WebSocketService.state s) CONNECTING now;
                      EvStateChange CONNECTING CLOSED now]).
Proof.
  unfold WebSocketService.connect. split; [|split].
  - now intros ->.
  - intros -> [-> | ->]; reflexivity.
  - intros -> Hc1 Hc2.
    rewrite !bool_decide_eq_false_2 by assumption. cbn [orb].
    eexists. split; [reflexivity|].
    rewrite setState_update. unfold WebSocketService.createConnection.
    fields. unfold stateChange.
    destruct (decide (WebSocketService.state s = CONNECTING)) as [|_];
      [congruence|].
    destruct (WebSocketService.urlValid (WebSocketService.config s)).
    + unfold WebSocket.create, Window.setTimeout, Window.arm. fields.
      repeat (split; [reflexivity|]). split; [|reflexivity].
      unfold Window.pending. cbn [Window.timers]. apply lookup_insert_eq.
    + unfold WebSocketService.handleConnectionError.
      match goal with
      | |- context [WebSocketService.closeConnection now NETWORK_ERROR ?x] =>
          destruct (closeConnection_update now NETWORK_ERROR x)
            as (id & w & ss & -> & _ & Hss)
      end.
      revert Hss. fields. intros Hss. unfold stateChange.
      destruct (decide (CONNECTING = CLOSED)); [discriminate|].
      rewrite <- app_assoc. now repeat split.
Qed.

(** ** The cycle of a reconnection *)

Section ReconnectionCycle.

Import WebSocketService.

(** [connect] on a service that is neither destroyed nor connecting nor
    connected, with a url that the socket accepts, as an update. *)
Lemma connect_update now s :
  isDestroyed s = false -> state s <> CONNECTING -> state s <> CONNECTED ->
  urlValid (config s) = true ->
  connect now s
  = Returned
      (set_connectionTimeoutId (Some (Window.nextId (window s)))
         (set_window
            (Window.setTimeout Window.ConnectionTimeout
               (connectionTimeout (config s)) (window s)).2
            (set_socket (Some (length (sockets s)))
               (set_sockets (sockets s ++ [WebSocket.Connecting])
                  (set_emitted
                     (emitted s ++ [EvStateChange (state s) CONNECTING now])
                     (set_state CONNECTING
                        (set_isManualDisconnect false s))))))).
Proof.
  intros Hd Hc1 Hc2 Hurl. unfold connect. rewrite Hd.
  rewrite !bool_decide_eq_false_2 by assumption. cbn [orb].
  rewrite setState_update. unfold createConnection. fields. rewrite Hurl.
  unfold stateChange.
  destruct (decide (state s = CONNECTING)); [congruence|].
  reflexivity.
Qed.

(** [clearConnectionTimeout] issues no handle. *)
Lemma clearConnectionTimeout_window s :
  exists ct w,
    clearConnectionTimeout s = set_connectionTimeoutId ct (set_window w s)
    /\ Window.nextId w = Window.nextId (window s).
Proof.
  unfold clearConnectionTimeout.
  destruct (connectionTimeoutId s) as [ct|] eqn:E;
    [destruct (ct =? 0)%nat|].
  - exists (Some ct), (window s).
    split; [destruct s; simpl in *; now subst|reflexivity].
  - eexists _, _. split; reflexivity.
  - exists None, (window s).
    split; [destruct s; simpl in *; now subst|reflexivity].
Qed.

(** [scheduleReconnect] below the limit of attempts, as an update. *)
Lemma scheduleReconnect_below now s :
  ReconnectionManager.attempts (reconnection s)
  < ReconnectionManager.maxAttempts
      (ReconnectionManager.config (reconnection s)) ->
  let sched :=
    ReconnectionManager.schedule ReconnectFn (Some OnAttemptFn)
      (Some OnMaxAttemptsReachedFn) (reconnection s) (window s) in
  scheduleReconnect now s
  = emit
      (EvReconnectAttempt
         (ReconnectionManager.attempts (reconnection s) + 1)
         (ReconnectionManager.maxAttempts
            (ReconnectionManager.config (reconnection s)))
         (Z.min (ReconnectionManager.currentDelay (reconnection s))
            (ReconnectionManager.maxDelay
               (ReconnectionManager.config (reconnection s))))
         now)
      (set_metrics (ConnectionMetrics.recordReconnectAttempt (metrics s))
         (set_window sched.1.2
            (set_reconnection sched.1.1 (setState now RECONNECTING s)))).
Proof.
  intros Hlt. cbv zeta. unfold scheduleReconnect. cbv zeta.
  rewrite setState_update. fields.
  unfold ReconnectionManager.schedule.
  destruct (Z.geb_spec (ReconnectionManager.attempts (reconnection s))
              (ReconnectionManager.maxAttempts
                 (ReconnectionManager.config (reconnection s))))
    as [Hge|_]; [lia|].
  destruct s as [cfg so st au q m h r ct md de w ss evs ca fr cl].
  cbn [fst snd Window.setTimeout Window.arm ReconnectionManager.orElse
       fold_left runReconnectionCall].
  updates. reflexivity.
Qed.

End ReconnectionCycle.

(** X27.  A connection that closes without [disconnect], with automatic
    reconnection and attempts left, starts one reconnection cycle:
    [handleClose] emits the [disconnected] event, enters RECONNECTING,
    counts the attempt, emits one [reconnect_attempt] event with the
    number of the attempt and the delay, and arms one timer with that
    delay, min(currentDelay, maxDelay).  When the timer fires, [connect]
    runs: the service enters CONNECTING and constructs the next socket. *)
Theorem close_starts_reconnection (now now' : Z) (event : CloseEvent)
    (s : WebSocketService.t) :
  WebSocketService.isManualDisconnect s = false ->
  WebSocketService.autoReconnect (WebSocketService.config s) = true ->
  WebSocketService.isDestroyed s = false ->
  WebSocketService.urlValid (WebSocketService.config s) = true ->
  ReconnectionManager.attempts (WebSocketService.reconnection s)
  < ReconnectionManager.maxAttempts
      (ReconnectionManager.config (WebSocketService.reconnection s)) ->
  let r := WebSocketService.reconnection s in
  let delay :=
    Z.min (ReconnectionManager.currentDelay r)
      (ReconnectionManager.maxDelay (ReconnectionManager.config r)) in
  let id := Window.nextId (WebSocketService.window s) in
  let s1 := WebSocketService.handleClose now event s in
  WebSocketService.state s1 = RECONNECTING
  /\ ReconnectionManager.attempts (WebSocketService.reconnection s1)
     = ReconnectionManager.attempts r + 1
  /\ Window.pending id (WebSocketService.window s1)
     = Some (Window.mkTimer Window.ReconnectDelay delay false)
  /\ WebSocketService.emitted s1
     = WebSocketService.emitted s
       ++ stateChange now (WebSocketService.state s) CLOSED
       ++ [EvDisconnected
             (WebSocketService.closeReason false (code event))
             (code event) (reason event)
             (WebSocketService.isAuthenticated s) now;
           EvStateChange CLOSED RECONNECTING now;
           EvReconnectAttempt (ReconnectionManager.attempts r + 1)
             (ReconnectionManager.maxAttempts (ReconnectionManager.config r))
             delay now]
  /\ exists s2,
       Execution.step now' (Execution.TimerFires id) s1 = Some s2
       /\ WebSocketService.state s2 = CONNECTING
       /\ WebSocketService.sockets s2
          = WebSocketService.sockets s ++ [WebSocket.Connecting]
       /\ WebSocketService.socket s2
          = Some (length (WebSocketService.sockets s))
       /\ WebSocketService.emitted s2
          = WebSocketService.emitted s1
            ++ [EvStateChange RECONNECTING CONNECTING now'].
Proof.
  intros Hmanual Hauto Hd Hurl Hlt. cbv zeta.
  unfold WebSocketService.handleClose. cbv zeta.
  destruct (clearConnectionTimeout_window s) as (ct & w0 & -> & Hw0).
  rewrite stopHeartbeat_update, setState_update. fields.
  rewrite Hmanual, Hauto. cbn [negb andb].
  rewrite scheduleReconnect_below by (fields; exact Hlt).
  cbv zeta. rewrite setState_update. fields.
  unfold ReconnectionManager.schedule.
  destruct (Z.geb_spec
              (ReconnectionManager.attempts (WebSocketService.reconnection s))
              (ReconnectionManager.maxAttempts
                 (ReconnectionManager.config
                    (WebSocketService.reconnection s))))
    as [Hge|_]; [lia|].
  cbn [fst snd Window.setTimeout Window.arm ReconnectionManager.orElse
       ReconnectionManager.attempts].
  assert (Hn : Window.nextId
                 (HeartbeatManager.stop (WebSocketService.heartbeat s) w0).2
               = Window.nextId (WebSocketService.window s)).
  { unfold HeartbeatManager.stop. cbn [snd].
    assert (Hc : forall o w1,
               Window.nextId (HeartbeatManager.clearHandle o w1)
               = Window.nextId w1) by (now intros [|] w1).
    now rewrite !Hc. }
  rewrite Hn.
  assert (Hsc : stateChange now CLOSED RECONNECTING
                = [EvStateChange CLOSED RECONNECTING now])
    by (unfold stateChange; now destruct (decide (CLOSED = RECONNECTING))).
  rewrite !Hsc. rewrite <- !app_assoc. cbn [app].
  split; [reflexivity|]. split; [reflexivity|].
  split; [unfold Window.pending; cbn [Window.timers];
          apply lookup_insert_eq|].
  split; [reflexivity|].
  unfold Execution.step. fields. unfold Window.fire. cbn [Window.timers].
  rewrite lookup_insert_eq. cbn [Window.repeating Window.handler].
  eexists. split; [reflexivity|].
  unfold Execution.timerBody, WebSocketService.reconnectTimerFires. fields.
  unfold ReconnectionManager.executeReconnect.
  cbn [ReconnectionManager.reconnectFn fold_left
       WebSocketService.runReconnectionCall].
  rewrite connect_update;
    [|fields; assumption|fields; discriminate|fields; discriminate
     |fields; assumption].
  fields. rewrite <- !app_assoc. cbn [app]. now repeat split.
Qed.

(** The connection of the default configuration is lost. *)
Lemma close_starts_reconnection_witness :
  WebSocketService.state
    (WebSocketService.handleClose 20 Scenario.abnormal Sample.connected)
  = RECONNECTING
  /\ Window.pending 2 
       (WebSocketService.window
          (WebSocketService.handleClose 20 Scenario.abnormal
             Sample.connected))
     = Some (Window.mkTimer Window.ReconnectDelay 1000 false).
Proof.
  destruct (close_starts_reconnection 20 1020 Scenario.abnormal
              Sample.connected) as (Hst & _ & Hp & _);
    try (vm_compute; reflexivity).
  split; [exact Hst|exact Hp].
Defined.

(** ** One probe of the heartbeat *)

Section Probe.

Import WebSocketService.

(** A tick of the heartbeat that transmits its probe, as an update. *)
Lemma heartbeatTick_probe t0 s sid :
  state s = CONNECTED -> socket s = Some sid ->
  WebSocket.send sid (sockets s) = WebSocket.Transmitted ->
  HeartbeatManager.sendPing (heartbeat s) = Some SendPingFn ->
  heartbeatTick t0 s
  = set_frames (frames s ++ [(sid, pingFrame)])
      (set_window
         (Window.setTimeout Window.HeartbeatTimeout
            (HeartbeatManager.timeout
               (HeartbeatManager.config (heartbeat s))) (window s)).2
         (set_heartbeat
            (HeartbeatManager.withPing t0 (Some (Window.nextId (window s)))
               (heartbeat s)) s)).
Proof.
  intros Hst Hso Hsend Hping.
  unfold heartbeatTick, sendPingResult, isConnected.
  rewrite Hst, Hso, Hsend. rewrite bool_decide_eq_true_2 by reflexivity.
  cbn [negb]. unfold HeartbeatManager.sendHeartbeat. rewrite Hping.
  unfold Window.setTimeout, Window.arm.
  cbn [fold_left runHeartbeatCall fst snd].
  unfold sendPingResult, isConnected, transmit. fields.
  rewrite Hst, Hso, Hsend. rewrite bool_decide_eq_true_2 by reflexivity.
  reflexivity.
Qed.

End Probe.

(** X28.  A probe of the heartbeat and its acknowledgment, while the
    service is connected through an open socket: the tick transmits the
    PING frame and arms one timeout with the configured delay; the PONG
    frame that arrives clears that timeout, so it cannot fire, and records
    the time since the probe as the last latency.  Neither emits an
    event. *)
Theorem heartbeat_round_trip (t0 t1 : Z) (raw : string) (sid : nat)
    (s : WebSocketService.t) :
  WebSocketService.state s = CONNECTED ->
  WebSocketService.socket s = Some sid ->
  WebSocketService.sockets s !! sid = Some WebSocket.Open ->
  HeartbeatManager.sendPing (WebSocketService.heartbeat s) = Some SendPingFn ->
  HeartbeatManager.onPong (WebSocketService.heartbeat s) = Some OnPongFn ->
  0 < t0 ->
  let s1 := WebSocketService.heartbeatTick t0 s in
  let s2 :=
    WebSocketService.handleMessage t1
      (mkMessageEvent raw (Some (ObjectWithType "PONG"))) s1 in
  let id := Window.nextId (WebSocketService.window s) in
  WebSocketService.frames s1
  = WebSocketService.frames s ++ [(sid, WebSocketService.pingFrame)]
  /\ HeartbeatManager.timeoutId (WebSocketService.heartbeat s1) = Some id
  /\ Window.pending id (WebSocketService.window s1)
     = Some (Window.mkTimer Window.HeartbeatTimeout
               (HeartbeatManager.timeout
                  (HeartbeatManager.config (WebSocketService.heartbeat s)))
               false)
  /\ Window.pending id (WebSocketService.window s2) = None
  /\ Window.fire id (WebSocketService.window s2) = None
  /\ ConnectionMetrics.lastLatency (WebSocketService.metrics s2) = t1 - t0
  /\ WebSocketService.emitted s2 = WebSocketService.emitted s
  /\ WebSocketService.state s2 = CONNECTED.
Proof.
  intros Hst Hso Hopen Hping Hpong Ht0. cbv zeta.
  assert (Hsend : WebSocket.send sid (WebSocketService.sockets s)
                  = WebSocket.Transmitted)
    by (unfold WebSocket.send; now rewrite Hopen).
  assert (Hgt : (t0 >? 0) = true) by (apply Z.gtb_lt; lia).
  rewrite (heartbeatTick_probe t0 s sid Hst Hso Hsend Hping).
  unfold WebSocketService.handleMessage. cbn [parsed].
  change (String.eqb "PONG" "PONG") with true. cbv iota.
  unfold WebSocketService.handlePong, HeartbeatManager.handlePong. fields.
  cbn [HeartbeatManager.withPing HeartbeatManager.lastPingTime
       HeartbeatManager.onPong HeartbeatManager.timeoutId
       HeartbeatManager.clearHandle].
  rewrite Hpong, Hgt.
  cbn [fold_left WebSocketService.runHeartbeatCall]. fields.
  unfold Window.setTimeout, Window.arm. cbn [fst snd].
  assert (Hp : Window.timers
                 (Window.clearTimeout
                    (Window.nextId (WebSocketService.window s))
                    {| Window.timers :=
                         <[Window.nextId (WebSocketService.window s) :=
                             Window.mkTimer Window.HeartbeatTimeout
                               (HeartbeatManager.timeout
                                  (HeartbeatManager.config
                                     (WebSocketService.heartbeat s))) false]>
                           (Window.timers (WebSocketService.window s));
                       Window.nextId :=
                         S (Window.nextId (WebSocketService.window s)) |})
               !! Window.nextId (WebSocketService.window s) = None)
    by apply lookup_delete_eq.
  repeat split.
  - unfold Window.pending. cbn [Window.timers]. apply lookup_insert_eq.
  - exact Hp.
  - unfold Window.fire. now rewrite Hp.
  - exact Hst.
Qed.

(** The first probe of a service with a heartbeat every 30 s, five
    seconds after the connection opened, acknowledged 40 ms later. *)
Lemma heartbeat_round_trip_witness :
  let s :=
    after Scenario.heartbeatConfig
      [(0, Execution.Connect); (50, Execution.SocketOpens 0)] in
  ConnectionMetrics.lastLatency
    (WebSocketService.metrics
       (WebSocketService.handleMessage 5040
          (mkMessageEvent "PONG" (Some (ObjectWithType "PONG")))
          (WebSocketService.heartbeatTick 5000 s)))
  = 5040 - 5000.
Proof.
  intros s.
  apply (heartbeat_round_trip 5000 5040 "PONG" 0 s);
    vm_compute; reflexivity.
Defined.

(** * What every execution of the service keeps *)

Section KeepsRelation.

Import WebSocketService.

Implicit Types (s x y : t).

Lemma count_app {A : Type} (p : A -> bool) (l1 l2 : list A) :
  count p (l1 ++ l2) = count p l1 + count p l2.
Proof. unfold count. rewrite List.filter_app, length_app. lia. Qed.

Lemma keeps_refl s : keeps s s.
Proof.
  split; try reflexivity; try lia.
  - now intros ->.
  - exists []. now rewrite app_nil_r.
  - exists []. rewrite app_nil_r. unfold count; simpl.
    repeat split; try lia; auto.
Qed.

Lemma keeps_trans s x y : keeps s x -> keeps x y -> keeps s y.
Proof.
  intros [Hc1 Hq1 Hz1 Hd1 (cs1 & Hca1 & Hok1) (e1 & He1 & Hm1 & Hr1 & Hs1)]
         [Hc2 Hq2 Hz2 Hd2 (cs2 & Hca2 & Hok2) (e2 & He2 & Hm2 & Hr2 & Hs2)].
  split.
  - congruence.
  - congruence.
  - rewrite Hq1 in Hz2. lia.
  - intros Hd. destruct (Hd1 Hd) as [Hd' Hl']. destruct (Hd2 Hd') as [? ?].
    split; congruence.
  - exists (cs1 ++ cs2). split; [rewrite Hca2, Hca1; now rewrite app_assoc|].
    apply Forall_app. now split.
  - exists (e1 ++ e2). split; [rewrite He2, He1; now rewrite app_assoc|].
    rewrite !count_app. split; [lia|]. split; [lia|].
    intros Hst. destruct (Hs1 Hst) as [Hst1 Hf1].
    destruct (Hs2 Hst1) as [Hst2 Hf2]. split; [exact Hst2|].
    apply Forall_app. now split.
Qed.

(** An update that writes none of the fields the relation reads. *)
Lemma keeps_same x y :
  config y = config x -> messageQueue y = messageQueue x ->
  isDestroyed y = isDestroyed x -> sockets y = sockets x ->
  called y = called x -> emitted y = emitted x -> metrics y = metrics x ->
  state y = state x ->
  keeps x y.
Proof.
  intros Hc Hq Hd Hs Hca He Hm Hst.
  rewrite <- (app_nil_r (called x)) in Hca.
  rewrite <- (app_nil_r (emitted x)) in He.
  split.
  - exact Hc.
  - now rewrite Hq.
  - rewrite Hq. lia.
  - intros H. rewrite Hd, Hs. now split.
  - exists []. now split.
  - exists []. rewrite Hm, Hst. unfold count; simpl.
    repeat split; try lia; auto.
Qed.

Lemma keeps_setState x now st :
  st <> CLOSING -> keeps x (setState now st x).
Proof.
  intros Hst. rewrite setState_update.
  split; fields; try reflexivity; try lia.
  - now intros ->.
  - exists []. now rewrite app_nil_r.
  - exists (stateChange now (state x) st). split; [reflexivity|].
    unfold stateChange.
    destruct (decide (state x = st)); unfold count; simpl;
      (split; [lia|]); (split; [lia|]); intros Hx; (split; [exact Hst|]);
      repeat constructor.
    cbn [namesUnused].
    rewrite !bool_decide_eq_false_2 by assumption. reflexivity.
Qed.

Lemma keeps_emit x e :
  isMessageSent e = false -> isReconnectAttempt e = false ->
  namesUnused e = false ->
  keeps x (emit e x).
Proof.
  intros H1 H2 H3. split; fields; try reflexivity; try lia.
  - now intros ->.
  - exists []. now rewrite app_nil_r.
  - exists [e]. split; [reflexivity|]. unfold count; simpl.
    rewrite H1, H2. simpl. repeat split; try lia; auto.
Qed.

Lemma keeps_set_metrics x v :
  ConnectionMetrics.messagesSent v
  = ConnectionMetrics.messagesSent (metrics x) ->
  ConnectionMetrics.reconnectAttempts v
  = ConnectionMetrics.reconnectAttempts (metrics x) ->
  keeps x (set_metrics v x).
Proof.
  intros H1 H2. split; fields; try reflexivity; try lia.
  - now intros ->.
  - exists []. now rewrite app_nil_r.
  - exists []. rewrite app_nil_r, H1, H2. unfold count; simpl.
    repeat split; try lia; auto.
Qed.

(** The count of a message that was sent and the event that announces it. *)
Lemma keeps_sent x c serialized now :
  keeps x
    (emit (EvMessageSent c serialized now)
       (set_metrics (ConnectionMetrics.recordMessageSent (metrics x)) x)).
Proof.
  split; fields; try reflexivity; try lia.
  - now intros ->.
  - exists []. now rewrite app_nil_r.
  - eexists. split; [reflexivity|]. unfold count; simpl.
    repeat split; try lia; auto.
Qed.

(** The count of a reconnection attempt and the event that announces it. *)
Lemma keeps_attempt x a m d now :
  keeps x
    (emit (EvReconnectAttempt a m d now)
       (set_metrics (ConnectionMetrics.recordReconnectAttempt (metrics x)) x)).
Proof.
  split; fields; try reflexivity; try lia.
  - now intros ->.
  - exists []. now rewrite app_nil_r.
  - eexists. split; [reflexivity|]. unfold count; simpl.
    repeat split; try lia; auto.
Qed.

Lemma keeps_callUser x c : isDropNotice c = false -> keeps x (callUser c x).
Proof.
  intros Hc. split; fields; try reflexivity; try lia.
  - now intros ->.
  - exists [c]. split; [reflexivity|]. now repeat constructor.
  - exists []. rewrite app_nil_r. unfold count; simpl.
    repeat split; try lia; auto.
Qed.

Lemma keeps_set_sockets x v :
  length v = length (sockets x) -> keeps x (set_sockets v x).
Proof.
  intros Hv. split; fields; try reflexivity; try lia.
  - now intros ->.
  - exists []. now rewrite app_nil_r.
  - exists []. rewrite app_nil_r. unfold count; simpl.
    repeat split; try lia; auto.
Qed.

(** A socket is constructed by a service that is not destroyed. *)
Lemma keeps_new_socket x v :
  isDestroyed x = false -> keeps x (set_sockets v x).
Proof.
  intros Hd. split; fields; try reflexivity; try lia.
  - congruence.
  - exists []. now rewrite app_nil_r.
  - exists []. rewrite app_nil_r. unfold count; simpl.
    repeat split; try lia; auto.
Qed.

Lemma keeps_set_isDestroyed x : keeps x (set_isDestroyed true x).
Proof.
  split; fields; try reflexivity; try lia.
  - exists []. now rewrite app_nil_r.
  - exists []. rewrite app_nil_r. unfold count; simpl.
    repeat split; try lia; auto.
Qed.

Lemma keeps_set_messageQueue x q :
  MessageQueue.config q = MessageQueue.config (messageQueue x) ->
  MessageQueue.size q
  <= Z.max (MessageQueue.size (messageQueue x))
       (MessageQueue.maxSize (MessageQueue.config (messageQueue x))) ->
  keeps x (set_messageQueue q x).
Proof.
  intros Hc Hz. split; fields; try reflexivity; try assumption.
  - now intros ->.
  - exists []. now rewrite app_nil_r.
  - exists []. rewrite app_nil_r. unfold count; simpl.
    repeat split; try lia; auto.
Qed.

End KeepsRelation.

(** Every handler keeps the state it is run in.  As for the trace, the
    lemmas are stated for a handler applied to any state [x] that keeps
    [s], and proof search peels a composition of handlers from the
    outside. *)

Create HintDb inv discriminated.
#[global] Hint Constants Opaque : inv.
#[global] Hint Variables Opaque : inv.

Section HandlersKeep.

Import WebSocketService.

Implicit Types (s x y : t).

Ltac tests :=
  repeat match goal with
         | |- context [match ?c with _ => _ end] => destruct c eqn:?
         end.

Ltac unchanged H :=
  match goal with
  | |- keeps ?s ?y =>
      match type of H with
      | keeps _ ?x =>
          exact (keeps_trans s x y H
                   (keeps_same x y eq_refl eq_refl eq_refl eq_refl eq_refl
                      eq_refl eq_refl eq_refl))
      end
  end.

Ltac counters :=
  cbn [ConnectionMetrics.messagesSent ConnectionMetrics.reconnectAttempts
       ConnectionMetrics.recordConnect ConnectionMetrics.recordDisconnect
       ConnectionMetrics.recordError ConnectionMetrics.recordMessageReceived
       ConnectionMetrics.recordReconnectSuccess
       ConnectionMetrics.recordLatency];
  reflexivity.

Ltac kept H :=
  apply (keeps_trans _ _ _ H); clear H;
  cbv zeta; tests; typeclasses eauto 30 with inv.

Lemma inv_set_socket s x v : keeps s x -> keeps s (set_socket v x).
Proof. intros H. unchanged H. Qed.
Lemma inv_set_isAuthenticated s x v :
  keeps s x -> keeps s (set_isAuthenticated v x).
Proof. intros H. unchanged H. Qed.
Lemma inv_set_heartbeat s x v : keeps s x -> keeps s (set_heartbeat v x).
Proof. intros H. unchanged H. Qed.
Lemma inv_set_reconnection s x v :
  keeps s x -> keeps s (set_reconnection v x).
Proof. intros H. unchanged H. Qed.
Lemma inv_set_connectionTimeoutId s x v :
  keeps s x -> keeps s (set_connectionTimeoutId v x).
Proof. intros H. unchanged H. Qed.
Lemma inv_set_isManualDisconnect s x v :
  keeps s x -> keeps s (set_isManualDisconnect v x).
Proof. intros H. unchanged H. Qed.
Lemma inv_set_window s x v : keeps s x -> keeps s (set_window v x).
Proof. intros H. unchanged H. Qed.
Lemma inv_set_frames s x v : keeps s x -> keeps s (set_frames v x).
Proof. intros H. unchanged H. Qed.
Lemma inv_set_closeCalls s x v : keeps s x -> keeps s (set_closeCalls v x).
Proof. intros H. unchanged H. Qed.

Lemma inv_set_isDestroyed s x : keeps s x -> keeps s (set_isDestroyed true x).
Proof. intros H. exact (keeps_trans _ _ _ H (keeps_set_isDestroyed x)). Qed.

Lemma inv_set_metrics s x v :
  ConnectionMetrics.messagesSent v
  = ConnectionMetrics.messagesSent (metrics x) ->
  ConnectionMetrics.reconnectAttempts v
  = ConnectionMetrics.reconnectAttempts (metrics x) ->
  keeps s x -> keeps s (set_metrics v x).
Proof.
  intros H1 H2 H. exact (keeps_trans _ _ _ H (keeps_set_metrics x v H1 H2)).
Qed.

Lemma inv_setState s x now st :
  st <> CLOSING -> keeps s x -> keeps s (setState now st x).
Proof. intros Hst H. exact (keeps_trans _ _ _ H (keeps_setState x now st Hst)). Qed.

Lemma inv_emit s x e :
  isMessageSent e = false -> isReconnectAttempt e = false ->
  namesUnused e = false ->
  keeps s x -> keeps s (emit e x).
Proof.
  intros H1 H2 H3 H. exact (keeps_trans _ _ _ H (keeps_emit x e H1 H2 H3)).
Qed.

Lemma closeReason_used manual c :
  closeReason manual c <> TIMEOUT
  /\ closeReason manual c <> MAX_RETRIES_EXCEEDED.
Proof.
  unfold closeReason.
  destruct manual, (c =? 1006), ((c >=? 1000) && (c <? 1004));
    split; discriminate.
Qed.

Lemma inv_emit_disconnected s x manual c txt was now :
  keeps s x ->
  keeps s (emit (EvDisconnected (closeReason manual c) c txt was now) x).
Proof.
  apply inv_emit; try reflexivity. cbn [namesUnused].
  destruct (closeReason_used manual c) as [H1 H2].
  now rewrite !bool_decide_eq_false_2 by assumption.
Qed.

Lemma inv_callUser s x c :
  isDropNotice c = false -> keeps s x -> keeps s (callUser c x).
Proof. intros Hc H. exact (keeps_trans _ _ _ H (keeps_callUser x c Hc)). Qed.

Lemma inv_set_sockets s x v :
  length v = length (sockets x) -> keeps s x -> keeps s (set_sockets v x).
Proof. intros Hv H. exact (keeps_trans _ _ _ H (keeps_set_sockets x v Hv)). Qed.

Lemma inv_set_messageQueue s x q :
  MessageQueue.config q = MessageQueue.config (messageQueue x) ->
  MessageQueue.size q
  <= Z.max (MessageQueue.size (messageQueue x))
       (MessageQueue.maxSize (MessageQueue.config (messageQueue x))) ->
  keeps s x -> keeps s (set_messageQueue q x).
Proof.
  intros Hc Hz H.
  exact (keeps_trans _ _ _ H (keeps_set_messageQueue x q Hc Hz)).
Qed.

#[local] Hint Resolve keeps_refl inv_set_socket inv_set_isAuthenticated
  inv_set_heartbeat inv_set_reconnection inv_set_connectionTimeoutId
  inv_set_isManualDisconnect inv_set_window inv_set_frames
  inv_set_closeCalls inv_set_isDestroyed inv_set_metrics inv_setState
  inv_emit inv_emit_disconnected inv_callUser : inv.
#[local] Hint Extern 1 (isMessageSent _ = false) => reflexivity : inv.
#[local] Hint Extern 1 (isReconnectAttempt _ = false) => reflexivity : inv.
#[local] Hint Extern 1 (namesUnused _ = false) => reflexivity : inv.
#[local] Hint Extern 1 (isDropNotice _ = false) => reflexivity : inv.
#[local] Hint Extern 1 (_ <> CLOSING) => discriminate : inv.
#[local] Hint Extern 1 (ConnectionMetrics.messagesSent _ = _) =>
  counters : inv.
#[local] Hint Extern 1 (ConnectionMetrics.reconnectAttempts _ = _) =>
  counters : inv.

Lemma inv_recordError s x : keeps s x -> keeps s (recordError x).
Proof. intros H. unfold recordError. kept H. Qed.

Lemma inv_fold_left {B : Type} (f : t -> B -> t) s (l : list B) :
  (forall x b, keeps s x -> keeps s (f x b)) ->
  forall x, keeps s x -> keeps s (fold_left f l x).
Proof.
  intros Hf. induction l as [|b l IH]; intros x Hx; simpl; [exact Hx|].
  apply IH. now apply Hf.
Qed.

#[local] Hint Resolve inv_recordError : inv.

Lemma inv_clearConnectionTimeout s x :
  keeps s x -> keeps s (clearConnectionTimeout x).
Proof. intros H. unfold clearConnectionTimeout. kept H. Qed.

Lemma inv_stopHeartbeat s x : keeps s x -> keeps s (stopHeartbeat x).
Proof. intros H. unchanged H. Qed.

#[local] Hint Resolve inv_clearConnectionTimeout inv_stopHeartbeat : inv.

Lemma length_close sid ss : length (WebSocket.close sid ss) = length ss.
Proof.
  unfold WebSocket.close.
  destruct (ss !! sid) as [[]|]; try reflexivity; apply length_insert.
Qed.

Lemma inv_closeConnection s x now r :
  keeps s x -> keeps s (closeConnection now r x).
Proof.
  intros H. unfold closeConnection. cbv zeta.
  set (x1 := stopHeartbeat (clearConnectionTimeout x)).
  assert (H1 : keeps s x1) by (unfold x1; typeclasses eauto 30 with inv).
  clearbody x1. clear H.
  assert (H2 : keeps s
                 match socket x1 with
                 | Some sid =>
                     set_socket None
                       (set_closeCalls (closeCalls x1 ++ [(sid, 1000, r)])
                          (set_sockets (WebSocket.close sid (sockets x1)) x1))
                 | None => x1
                 end).
  { destruct (socket x1) as [sid|]; [|exact H1].
    apply inv_set_socket, inv_set_closeCalls, inv_set_sockets;
      [apply length_close|exact H1]. }
  revert H2. generalize (match socket x1 with
                         | Some sid =>
                             set_socket None
                               (set_closeCalls
                                  (closeCalls x1 ++ [(sid, 1000, r)])
                                  (set_sockets
                                     (WebSocket.close sid (sockets x1)) x1))
                         | None => x1
                         end).
  intros x2 H2. destruct (decide (state x2 = CLOSED)); [exact H2|].
  now apply inv_setState.
Qed.

Lemma inv_handleConnectionError s x now r :
  keeps s x -> keeps s (handleConnectionError now r x).
Proof. apply inv_closeConnection. Qed.

#[local] Hint Resolve inv_closeConnection inv_handleConnectionError : inv.

Lemma inv_createConnection s x now :
  isDestroyed x = false -> keeps s x -> keeps s (createConnection now x).
Proof.
  intros Hd H. unfold createConnection.
  destruct (urlValid (config x)).
  - unfold WebSocket.create, Window.setTimeout, Window.arm.
    apply inv_set_connectionTimeoutId, inv_set_window, inv_set_socket.
    exact (keeps_trans _ _ _ H (keeps_new_socket x _ Hd)).
  - typeclasses eauto 30 with inv.
Qed.

Lemma inv_connect s x y now :
  keeps s x -> connect now x = Returned y -> keeps s y.
Proof.
  intros H. unfold connect.
  destruct (isDestroyed x) eqn:Hd; [discriminate|].
  destruct (bool_decide (state x = CONNECTING)
            || bool_decide (state x = CONNECTED));
    intros E; inversion E; subst; [exact H|].
  apply inv_createConnection.
  - rewrite setState_update. exact Hd.
  - apply inv_setState; [discriminate|]. now apply inv_set_isManualDisconnect.
Qed.

Lemma inv_disconnect s x now : keeps s x -> keeps s (disconnect now x).
Proof. intros H. unfold disconnect. kept H. Qed.

Lemma inv_setAuthenticated s x now b :
  keeps s x -> keeps s (setAuthenticated now b x).
Proof. intros H. unfold setAuthenticated. kept H. Qed.

Lemma inv_clearQueue s x : keeps s x -> keeps s (clearQueue x).
Proof.
  intros H. unfold clearQueue, MessageQueue.clear.
  apply inv_set_messageQueue; [reflexivity| |exact H].
  unfold MessageQueue.size at 1. simpl.
  pose proof (Nat2Z.is_nonneg (length (MessageQueue.queue (messageQueue x)))).
  unfold MessageQueue.size. lia.
Qed.

#[local] Hint Resolve inv_disconnect inv_setAuthenticated inv_clearQueue : inv.

Lemma inv_destroy s x now : keeps s x -> keeps s (destroy now x).
Proof. intros H. unfold destroy. kept H. Qed.

Lemma inv_callOpt s x f c :
  (forall g, isDropNotice (c g) = false) ->
  keeps s x -> keeps s (callOpt f c x).
Proof.
  intros Hc H. unfold callOpt. destruct f as [g|]; [|exact H].
  now apply inv_callUser.
Qed.

Lemma inv_transmit s x y serialized :
  keeps s x -> transmit serialized x = Returned y -> keeps s y.
Proof.
  intros H. unfold transmit.
  destruct (socket x) as [sid|]; [|intros [= <-]; exact H].
  destruct (WebSocket.send sid (sockets x)); intros E; inversion E; subst;
    [now apply inv_set_frames|exact H].
Qed.

Lemma inv_sendFailed s x now msg options :
  (forall g, isDropNotice (CalledOnError g msg) = false) ->
  keeps s x -> keeps s (sendFailed now msg options x).1.
Proof.
  intros Hmsg H. unfold sendFailed. cbn [fst].
  apply inv_callOpt; [exact Hmsg|].
  apply inv_emit; try reflexivity. now apply inv_recordError.
Qed.

Lemma inv_send s x now command options :
  keeps s x -> keeps s (send now command options x).1.
Proof.
  intros H. unfold send.
  destruct (negb (bool_decide (state x = CONNECTED))).
  - destruct (negb (bool_decide (queue options = Some false))
              && negb (MessageQueue.isFull (messageQueue x))) eqn:Hq.
    + apply andb_true_iff in Hq. destruct Hq as [_ Hfull].
      apply negb_true_iff in Hfull. unfold MessageQueue.isFull in Hfull.
      assert (Hlt : MessageQueue.size (messageQueue x)
                    < MessageQueue.maxSize
                        (MessageQueue.config (messageQueue x)))
        by (destruct (Z.geb_spec (MessageQueue.size (messageQueue x))
                        (MessageQueue.maxSize
                           (MessageQueue.config (messageQueue x))));
            [discriminate|lia]).
      rewrite (enqueue_below now command (onSuccess options)
                 (onError options) (messageQueue x) Hlt).
      cbn [fst runQueueCalls fold_left].
      apply inv_set_messageQueue; [reflexivity| |exact H].
      unfold MessageQueue.size in *. cbn [MessageQueue.queue].
      rewrite length_app. simpl. lia.
    + cbn [fst]. apply inv_callOpt; [reflexivity|exact H].
  - destruct (serializeClientCommand command) as [serialized|msg] eqn:Hser.
    + destruct (transmit serialized x) as [y|msg] eqn:Et.
      * cbn [fst]. apply inv_callOpt; [reflexivity|].
        exact (keeps_trans _ _ _ (inv_transmit s x y serialized H Et)
                 (keeps_sent y command serialized now)).
      * apply inv_sendFailed; [|exact H].
        unfold transmit in Et. destruct (socket x); [|discriminate].
        destruct (WebSocket.send _ _); inversion Et. reflexivity.
    + apply inv_sendFailed; [|exact H].
      unfold serializeClientCommand in Hser.
      destruct (stringified command); inversion Hser. reflexivity.
Qed.

Lemma inv_flushQueue s x now : keeps s x -> keeps s (flushQueue now x).
Proof.
  intros H. unfold flushQueue.
  destruct (MessageQueue.isEmpty (messageQueue x)); [exact H|].
  unfold MessageQueue.flush.
  apply inv_fold_left.
  - intros y m Hy. now apply inv_send.
  - apply inv_set_messageQueue; [reflexivity| |exact H].
    unfold MessageQueue.size at 1. simpl.
    pose proof (Nat2Z.is_nonneg
                  (length (MessageQueue.queue (messageQueue x)))).
    unfold MessageQueue.size. lia.
Qed.

Lemma inv_startHeartbeat s x : keeps s x -> keeps s (startHeartbeat x).
Proof. intros H. unfold startHeartbeat. kept H. Qed.

#[local] Hint Resolve inv_flushQueue inv_startHeartbeat : inv.

Lemma inv_runHeartbeatCall s now x c :
  keeps s x -> keeps s (runHeartbeatCall now x c).
Proof.
  intros H. unfold runHeartbeatCall.
  destruct c as [[] | [] | [] latency]; try exact H.
  - destruct (sendPingResult x); try exact H.
    destruct (transmit pingFrame x) as [y|msg] eqn:Et; [|exact H].
    exact (inv_transmit s x y pingFrame H Et).
  - now apply inv_handleConnectionError.
  - apply inv_set_metrics; [counters|counters|exact H].
Qed.

Lemma inv_heartbeatTick s x now : keeps s x -> keeps s (heartbeatTick now x).
Proof.
  intros H. unfold heartbeatTick.
  destruct (HeartbeatManager.sendHeartbeat now (sendPingResult x)
              (heartbeat x) (window x)) as [[h w] calls].
  apply inv_fold_left; [apply inv_runHeartbeatCall|].
  now apply inv_set_window, inv_set_heartbeat.
Qed.

Lemma inv_heartbeatTimeoutFires s x now :
  keeps s x -> keeps s (heartbeatTimeoutFires now x).
Proof.
  intros H. unfold heartbeatTimeoutFires.
  destruct (HeartbeatManager.handleHeartbeatTimeout (heartbeat x))
    as [h calls].
  apply inv_fold_left; [apply inv_runHeartbeatCall|].
  now apply inv_set_heartbeat.
Qed.

Lemma inv_handlePong s x now : keeps s x -> keeps s (handlePong now x).
Proof.
  intros H. unfold handlePong.
  destruct (HeartbeatManager.handlePong now (heartbeat x) (window x))
    as [[h w] calls].
  apply inv_fold_left; [apply inv_runHeartbeatCall|].
  now apply inv_set_window, inv_set_heartbeat.
Qed.

Lemma inv_runReconnectionCall s now x c :
  keeps s x -> keeps s (runReconnectionCall now x c).
Proof.
  intros H. unfold runReconnectionCall.
  destruct c as [[] | [] attempt maxAttempts delay | []]; try exact H.
  - destruct (connect now x) as [y|msg] eqn:Ec; [|exact H].
    exact (inv_connect s x y now H Ec).
  - exact (keeps_trans _ _ _ H (keeps_attempt x _ _ _ now)).
  - apply inv_emit; try reflexivity. exact H.
Qed.

Lemma inv_scheduleReconnect s x now :
  keeps s x -> keeps s (scheduleReconnect now x).
Proof.
  intros H. unfold scheduleReconnect. cbv zeta.
  destruct (ReconnectionManager.schedule ReconnectFn (Some OnAttemptFn)
              (Some OnMaxAttemptsReachedFn)
              (reconnection (setState now RECONNECTING x))
              (window (setState now RECONNECTING x))) as [[r w] calls].
  apply inv_fold_left; [apply inv_runReconnectionCall|].
  apply inv_set_window, inv_set_reconnection, inv_setState;
    [discriminate|exact H].
Qed.

Lemma inv_reconnectTimerFires s x now :
  keeps s x -> keeps s (reconnectTimerFires now x).
Proof.
  intros H. unfold reconnectTimerFires.
  destruct (ReconnectionManager.executeReconnect (reconnection x))
    as [r calls].
  apply inv_fold_left; [apply inv_runReconnectionCall|].
  now apply inv_set_reconnection.
Qed.

#[local] Hint Resolve inv_handlePong inv_scheduleReconnect : inv.

Lemma inv_handleOpen s x now : keeps s x -> keeps s (handleOpen now x).
Proof. intros H. unfold handleOpen. kept H. Qed.

Lemma inv_handleMessage s x now event :
  keeps s x -> keeps s (handleMessage now event x).
Proof. intros H. unfold handleMessage. kept H. Qed.

Lemma inv_handleClose s x now event :
  keeps s x -> keeps s (handleClose now event x).
Proof. intros H. unfold handleClose. kept H. Qed.

Lemma inv_connectionTimeoutFires s x now :
  keeps s x -> keeps s (connectionTimeoutFires now x).
Proof. intros H. unfold connectionTimeoutFires. kept H. Qed.

Lemma inv_timerBody s x now tk :
  keeps s x -> keeps s (Execution.timerBody now tk x).
Proof.
  intros H. destruct tk; simpl.
  - now apply inv_connectionTimeoutFires.
  - now apply inv_heartbeatTick.
  - now apply inv_heartbeatTimeoutFires.
  - now apply inv_reconnectTimerFires.
Qed.

(** One input of an execution. *)
Lemma step_keeps now i s s' : Execution.step now i s = Some s' -> keeps s s'.
Proof.
  pose proof (keeps_refl s) as H.
  destruct i; simpl.
  - destruct (connect now s) as [y|msg] eqn:Ec; intros E; inversion E; subst;
      [exact (inv_connect s s _ now H Ec)|exact H].
  - intros E; inversion E. now apply inv_disconnect.
  - intros E; inversion E. now apply inv_send.
  - intros E; inversion E. now apply inv_setAuthenticated.
  - intros E; inversion E. now apply inv_clearQueue.
  - intros E; inversion E. now apply inv_destroy.
  - destruct (Window.fire id (window s)) as [[tm w]|]; intros E; inversion E.
    now apply inv_timerBody, inv_set_window.
  - destruct (sockets s !! sid) as [[]|]; intros E; inversion E.
    apply inv_handleOpen, inv_set_sockets; [apply length_insert|exact H].
  - destruct (sockets s !! sid) as [[]|]; intros E; inversion E.
    now apply inv_handleMessage.
  - destruct (sockets s !! sid) as [[]|]; intros E; inversion E; subst;
      exact H.
  - destruct (sockets s !! sid) as [[]|]; intros E; inversion E;
      (apply inv_handleClose, inv_set_sockets; [apply length_insert|exact H]).
Qed.

Lemma run_keeps inputs s s' : Execution.run inputs s = Some s' -> keeps s s'.
Proof.
  revert s. induction inputs as [|[now i] rest IH]; intros s; simpl.
  - intros E; inversion E. apply keeps_refl.
  - destruct (Execution.step now i s) as [s1|] eqn:Es; [|discriminate].
    intros Hr. exact (keeps_trans _ _ _ (step_keeps _ _ _ _ Es) (IH _ Hr)).
Qed.

End HandlersKeep.

(** X19.  A destroyed service never constructs a socket again and stays
    destroyed: after [destroy], whatever is called on the service,
    whichever timers fire and whatever events its sockets still raise, the
    sockets are those that existed at [destroy], and [connect] throws. *)
Theorem destroy_is_final (now now' : Z) (s s' : WebSocketService.t)
    (inputs : list (Z * Execution.Input)) :
  Execution.run inputs (WebSocketService.destroy now s) = Some s' ->
  WebSocketService.isDestroyed s' = true
  /\ length (WebSocketService.sockets s')
     = length (WebSocketService.sockets (WebSocketService.destroy now s))
  /\ WebSocketService.connect now' s'
     = Threw "WebSocketService has been destroyed".
Proof.
  intros Hrun.
  assert (Hd : WebSocketService.isDestroyed (WebSocketService.destroy now s)
               = true).
  { assert (H : keeps (WebSocketService.set_isDestroyed true s)
                  (WebSocketService.destroy now s)).
    { unfold WebSocketService.destroy.
      apply inv_clearQueue, inv_disconnect, keeps_refl. }
    exact (proj1 (keeps_destroyed _ _ H eq_refl)). }
  destruct (keeps_destroyed _ _ (run_keeps _ _ _ Hrun) Hd) as [Hd' Hl].
  split; [exact Hd'|]. split; [exact Hl|].
  unfold WebSocketService.connect. now rewrite Hd'.
Qed.

Lemma destroy_is_final_witness :
  let s := after Busy.smallQueue Busy.destroyed in
  exists s',
    Execution.run Busy.afterwards s = Some s'
    /\ length (WebSocketService.sockets s') = 1%nat
    /\ WebSocketService.connect 50 s'
       = Threw "WebSocketService has been destroyed".
Proof.
  intros s.
  assert (Hs : s = WebSocketService.destroy 20
                     (after Busy.smallQueue (removelast Busy.destroyed)))
    by (vm_compute; reflexivity).
  destruct (Execution.run Busy.afterwards s) as [s'|] eqn:Hrun;
    [|vm_compute in Hrun; discriminate].
  exists s'. split; [reflexivity|].
  rewrite Hs in Hrun.
  destruct (destroy_is_final 20 50 _ s' Busy.afterwards Hrun)
    as (_ & Hl & Hc).
  split; [|exact Hc]. rewrite Hl. vm_compute. reflexivity.
Defined.

(** X20.  Through the service the queue never overflows: in every
    execution it holds at most [maxQueueSize] messages (none when the
    bound is not positive), because [send] enqueues only when the queue is
    not full.  No callback of the caller is ever told that its message was
    dropped: the overflow branch of [enqueue] is never taken, and
    [clearQueue] and [destroy] clear the queue without notifying. *)
Theorem service_queue_never_overflows (c : WebSocketService.Config)
    (s : WebSocketService.t) :
  Execution.reachable c s ->
  MessageQueue.size (WebSocketService.messageQueue s)
  <= Z.max 0 (WebSocketService.maxQueueSize c)
  /\ MessageQueue.maxSize
       (MessageQueue.config (WebSocketService.messageQueue s))
     = WebSocketService.maxQueueSize c
  /\ Forall (fun call => isDropNotice call = false)
       (WebSocketService.called s).
Proof.
  intros (inputs & Hrun).
  destruct (run_keeps _ _ _ Hrun) as [_ Hq Hz _ (cs & Hca & Hok) _].
  split; [exact Hz|]. split; [now rewrite Hq|].
  rewrite Hca. exact Hok.
Qed.

Lemma service_queue_never_overflows_witness :
  MessageQueue.size
    (WebSocketService.messageQueue
       (after Busy.smallQueue (firstn 3 Busy.inputs)))
  <= Z.max 0 2.
Proof.
  apply (service_queue_never_overflows Busy.smallQueue
           (after Busy.smallQueue (firstn 3 Busy.inputs))).
  exists (firstn 3 Busy.inputs). vm_compute. reflexivity.
Defined.

(** X21.  The state CLOSING and the disconnection reasons TIMEOUT and
    MAX_RETRIES_EXCEEDED are never used: in every execution the state of
    the service is not CLOSING, no [state_change] event names CLOSING, and
    no [disconnected] event carries one of the two reasons. *)
Theorem unused_state_and_reasons (c : WebSocketService.Config)
    (s : WebSocketService.t) :
  Execution.reachable c s ->
  WebSocketService.getState s <> CLOSING
  /\ Forall (fun e => namesUnused e = false) (WebSocketService.emitted s).
Proof.
  intros (inputs & Hrun).
  destruct (run_keeps _ _ _ Hrun) as [_ _ _ _ _ (evs & He & _ & _ & Hs)].
  destruct Hs as [Hst Hok]; [discriminate|].
  split; [exact Hst|]. rewrite He. exact Hok.
Qed.

Lemma unused_state_and_reasons_witness :
  Forall (fun e => namesUnused e = false)
    (WebSocketService.emitted
       (after Scenario.heartbeatConfig Scenario.heartbeatTimeout)).
Proof.
  apply (unused_state_and_reasons Scenario.heartbeatConfig
           (after Scenario.heartbeatConfig Scenario.heartbeatTimeout)).
  exists Scenario.heartbeatTimeout. vm_compute. reflexivity.
Defined.

(** X22.  The counters of the metrics agree with the events: in every
    execution [messagesSent] is the number of [message_sent] events
    emitted so far, and [reconnectAttempts] the number of
    [reconnect_attempt] events. *)
Theorem counters_agree_with_events (c : WebSocketService.Config)
    (s : WebSocketService.t) :
  Execution.reachable c s ->
  ConnectionMetrics.messagesSent (WebSocketService.metrics s)
  = count isMessageSent (WebSocketService.emitted s)
  /\ ConnectionMetrics.reconnectAttempts (WebSocketService.metrics s)
     = count isReconnectAttempt (WebSocketService.emitted s).
Proof.
  intros (inputs & Hrun).
  destruct (run_keeps _ _ _ Hrun) as [_ _ _ _ _ (evs & He & Hm & Hr & _)].
  rewrite He, Hm, Hr. now split.
Qed.

Lemma counters_agree_with_events_witness :
  ConnectionMetrics.messagesSent
    (WebSocketService.metrics (after Busy.smallQueue Busy.inputs))
  = count isMessageSent
      (WebSocketService.emitted (after Busy.smallQueue Busy.inputs))
  /\ count isMessageSent
       (WebSocketService.emitted (after Busy.smallQueue Busy.inputs))
     = 3.
Proof.
  split; [|vm_compute; reflexivity].
  apply (counters_agree_with_events Busy.smallQueue
           (after Busy.smallQueue Busy.inputs)).
  exists Busy.inputs. vm_compute. reflexivity.
Defined.

(** * The listeners of the service *)

Section ListenerSets.

Import Listeners.

Variable throws : nat -> Event -> bool.

Implicit Types (r : Listeners.t) (l : Listener) (ls : list Listener).

Lemma registered_insert event event' ls m w :
  registered event' (mk (<[event := ls]> m) w)
  = if decide (event' = event) then ls else registered event' (mk m w).
Proof.
  unfold registered; simpl.
  destruct (decide (event' = event)) as [->|Hne].
  - now rewrite lookup_insert_eq.
  - now rewrite lookup_insert_ne.
Qed.

Lemma registered_register event event' l r :
  registered event' (register event l r)
  = if decide (event' = event) then add l (registered event r)
    else registered event' r.
Proof.
  unfold register. destruct r as [m w]; simpl.
  destruct (m !! event) as [ls|] eqn:E.
  - rewrite E. rewrite registered_insert.
    destruct (decide (event' = event)); [|reflexivity].
    unfold registered; simpl. now rewrite E.
  - rewrite lookup_insert_eq. rewrite registered_insert.
    destruct (decide (event' = event)) as [->|Hne].
    + unfold registered; simpl. now rewrite E.
    + unfold registered; simpl. now rewrite lookup_insert_ne.
Qed.

Lemma wrappers_register event l r :
  wrappers (register event l r) = wrappers r.
Proof.
  unfold register. destruct (listeners r !! event) as [ls|] eqn:E; simpl.
  - now rewrite E.
  - now rewrite lookup_insert_eq.
Qed.

Lemma registered_unregister event event' l r :
  registered event' (unregister event l r)
  = if decide (event' = event) then delete l (registered event r)
    else registered event' r.
Proof.
  unfold unregister. destruct r as [m w]; simpl.
  destruct (m !! event) as [ls|] eqn:E.
  - rewrite registered_insert.
    destruct (decide (event' = event)); [|reflexivity].
    unfold registered; simpl. now rewrite E.
  - destruct (decide (event' = event)) as [->|]; [|reflexivity].
    unfold registered; simpl. now rewrite E.
Qed.

Lemma wrappers_unregister event l r :
  wrappers (unregister event l r) = wrappers r.
Proof. unfold unregister. now destruct (listeners r !! event). Qed.

Lemma present_registered event l r :
  present event l r = bool_decide (l ∈ registered event r).
Proof.
  unfold present, registered.
  destruct (listeners r !! event); [reflexivity|].
  symmetry. apply bool_decide_eq_false_2. apply not_elem_of_nil.
Qed.

Lemma delete_absent l ls : l ∉ ls -> delete l ls = ls.
Proof.
  intros Hl. unfold delete. induction ls as [|x ls IH]; [reflexivity|].
  apply not_elem_of_cons in Hl. destruct Hl as [Hne Hl].
  rewrite filter_cons_True by congruence. now rewrite IH.
Qed.

Lemma delete_middle l ls1 ls2 :
  l ∉ ls1 -> l ∉ ls2 -> delete l (ls1 ++ l :: ls2) = ls1 ++ ls2.
Proof.
  intros H1 H2. unfold delete. rewrite filter_app, filter_cons_False by tauto.
  fold (delete l ls1). fold (delete l ls2).
  now rewrite !delete_absent.
Qed.

(** The loop of [emit] over the listeners that are left. *)
Lemma emit_loop event data todo :
  forall done r0 calls,
    NoDup (done ++ todo) ->
    registered event r0
    = filter (fun l => spent throws data l = false) done ++ todo ->
    let res :=
      fold_left
        (fun acc l =>
           if present event l acc.1 then
             let '(r', cs) := invoke throws event data l acc.1 in
             (r', acc.2 ++ cs)
           else acc)
        todo (r0, calls) in
    registered event res.1
    = filter (fun l => spent throws data l = false) (done ++ todo)
    /\ (forall event', event' <> event ->
          registered event' res.1 = registered event' r0)
    /\ wrappers res.1 = wrappers r0
    /\ res.2 = calls ++ map (delivered data) todo.
Proof.
  induction todo as [|l todo IH]; intros done r0 calls Hnd Hreg; cbv zeta.
  - simpl. rewrite !app_nil_r in *. now repeat split.
  - cbn [fold_left fst snd].
    assert (Hin : present event l r0 = true).
    { rewrite present_registered, Hreg. apply bool_decide_eq_true_2.
      apply elem_of_app. right. now left. }
    rewrite Hin.
    apply NoDup_app in Hnd. destruct Hnd as (Hnd1 & Hdis & Hnd2).
    apply NoDup_cons in Hnd2. destruct Hnd2 as [Hl2 Hnd2].
    assert (Hl1 : l ∉ done).
    { intros H. apply (Hdis l H). now left. }
    assert (Hnd' : NoDup ((done ++ [l]) ++ todo)).
    { rewrite <- app_assoc. simpl. apply NoDup_app. repeat split; auto.
      now apply NoDup_cons. }
    assert (Hgoal : forall r1,
              registered event r1
              = filter (fun l0 => spent throws data l0 = false) (done ++ [l])
                ++ todo ->
              (forall event', event' <> event ->
                 registered event' r1 = registered event' r0) ->
              wrappers r1 = wrappers r0 ->
              let res :=
                fold_left
                  (fun acc l0 =>
                     if present event l0 acc.1 then
                       let '(r', cs) := invoke throws event data l0 acc.1 in
                       (r', acc.2 ++ cs)
                     else acc)
                  todo (r1, calls ++ [Called (target l) data]) in
              registered event res.1
              = filter (fun l0 => spent throws data l0 = false)
                  (done ++ l :: todo)
              /\ (forall event', event' <> event ->
                    registered event' res.1 = registered event' r0)
              /\ wrappers res.1 = wrappers r0
              /\ res.2
                 = calls ++ map (delivered data) (l :: todo)).
    { intros r1 Hr1 Ho1 Hw1. cbv zeta.
      destruct (IH (done ++ [l]) r1 (calls ++ [Called (target l) data])
                  Hnd' Hr1) as (H1 & H2 & H3 & H4).
      rewrite <- app_assoc in H1. simpl in H1.
      split; [exact H1|]. split.
      - intros event' Hne. rewrite (H2 event' Hne). now apply Ho1.
      - split; [congruence|]. rewrite H4, <- app_assoc. reflexivity. }
    destruct l as [f|k f]; cbn [invoke].
    + apply Hgoal; try reflexivity.
      rewrite Hreg, filter_app, filter_cons_True by reflexivity.
      rewrite filter_nil, <- app_assoc. reflexivity.
    + destruct (throws f data) eqn:Hthrows.
      * apply Hgoal; try reflexivity.
        rewrite Hreg, filter_app.
        rewrite filter_cons_True by (simpl; now rewrite Hthrows).
        rewrite filter_nil, <- app_assoc. reflexivity.
      * apply Hgoal.
        -- rewrite registered_unregister.
           destruct (decide (event = event)); [|congruence].
           rewrite Hreg, filter_app.
           rewrite filter_cons_False
             by (simpl; rewrite Hthrows; discriminate).
           rewrite filter_nil, app_nil_r.
           apply delete_middle; [|exact Hl2].
           intros H. apply Hl1. now apply list_elem_of_filter in H.
        -- intros event' Hne. rewrite registered_unregister.
           now destruct (decide (event' = event)).
        -- apply wrappers_unregister.
Qed.

(** [emit] in one formula, for sets without repetition. *)
Lemma emit_registered event data r :
  NoDup (registered event r) ->
  let res := emit throws event data r in
  registered event res.1
  = filter (fun l => spent throws data l = false) (registered event r)
  /\ (forall event', event' <> event ->
        registered event' res.1 = registered event' r)
  /\ wrappers res.1 = wrappers r
  /\ res.2 = map (delivered data) (registered event r).
Proof.
  intros Hnd. cbv zeta. unfold emit.
  destruct (listeners r !! event) as [ls|] eqn:E.
  - assert (Hls : registered event r = ls)
      by (unfold registered; now rewrite E).
    rewrite Hls in *.
    exact (emit_loop event data ls [] r [] Hnd Hls).
  - assert (Hls : registered event r = [])
      by (unfold registered; now rewrite E).
    rewrite Hls. now repeat split.
Qed.

Lemma wellKept_new : wellKept new.
Proof.
  intros event. unfold registered; simpl. rewrite lookup_empty. simpl.
  split; [apply NoDup_nil_2|]. intros k f H. now apply not_elem_of_nil in H.
Qed.

Lemma NoDup_add l ls : NoDup ls -> NoDup (add l ls).
Proof.
  intros H. unfold add. destruct (decide (l ∈ ls)); [exact H|].
  apply NoDup_app. repeat split; auto.
  - intros x Hx Hx'. apply list_elem_of_singleton in Hx'. now subst.
  - apply NoDup_singleton.
Qed.

Lemma elem_of_add x l ls : x ∈ add l ls <-> x ∈ ls \/ x = l.
Proof.
  unfold add. destruct (decide (l ∈ ls)).
  - split; [now left|]. intros [H| ->]; assumption.
  - rewrite elem_of_app, list_elem_of_singleton. reflexivity.
Qed.

Lemma wellKept_register event l r :
  (forall k f, l = OnceWrapper k f -> (k < wrappers r)%nat) ->
  wellKept r -> wellKept (register event l r).
Proof.
  intros Hl Hr event'. rewrite registered_register, wrappers_register.
  destruct (decide (event' = event)) as [->|]; [|apply Hr].
  destruct (Hr event) as [Hnd Hk]. split; [now apply NoDup_add|].
  intros k f H. apply elem_of_add in H. destruct H as [H|H].
  - now apply (Hk k f).
  - now apply (Hl k f).
Qed.

Lemma wellKept_unregister event l r :
  wellKept r -> wellKept (unregister event l r).
Proof.
  intros Hr event'. rewrite registered_unregister, wrappers_unregister.
  destruct (decide (event' = event)) as [->|]; [|apply Hr].
  destruct (Hr event) as [Hnd Hk]. unfold delete.
  split; [now apply NoDup_filter|].
  intros k f H. apply list_elem_of_filter in H. now apply (Hk k f).
Qed.

Lemma wellKept_once event f r : wellKept r -> wellKept (once event f r).
Proof.
  intros Hr. unfold once. apply wellKept_register.
  - intros k g [= <- _]. simpl. lia.
  - intros event'. destruct (Hr event') as [Hnd Hk].
    split; [exact Hnd|]. intros k g H. specialize (Hk k g H). simpl. lia.
Qed.

Lemma wellKept_emit event data r :
  wellKept r -> wellKept (emit throws event data r).1.
Proof.
  intros Hr event'. destruct (Hr event) as [Hnd Hk].
  destruct (emit_registered event data r Hnd) as (H1 & H2 & H3 & _).
  rewrite H3. destruct (decide (event' = event)) as [->|Hne].
  - rewrite H1. split; [now apply NoDup_filter|].
    intros k f H. apply list_elem_of_filter in H. now apply (Hk k f).
  - rewrite (H2 event' Hne). apply Hr.
Qed.

Lemma wellKept_clear r : wellKept (clear r).
Proof.
  intros event. unfold registered, clear; simpl. rewrite lookup_empty. simpl.
  split; [apply NoDup_nil_2|]. intros k f H. now apply not_elem_of_nil in H.
Qed.

Lemma wellKept_run ops r :
  wellKept r -> wellKept (ListenerOps.run throws ops r).
Proof.
  unfold ListenerOps.run. revert r.
  induction ops as [|o ops IH]; intros r Hr; simpl; [exact Hr|].
  apply IH. destruct o; simpl.
  - apply wellKept_register; [discriminate|exact Hr].
  - now apply wellKept_unregister.
  - now apply wellKept_once.
  - now apply wellKept_emit.
  - apply wellKept_clear.
Qed.

End ListenerSets.

(** X23.  Whatever was called on the listeners before, [emit] calls every
    function registered for the event exactly once, in the order of
    registration, also when some of them throw: no function is twice in a
    set, and registering a function again with [on] changes nothing.
    After [emit] the set holds the same functions without the wrappers of
    [once] whose function returned. *)
Theorem emit_calls_each_listener_once (throws : nat -> Event -> bool)
    (ops : list ListenerOps.Op) (event : WebSocketEvent.t) (data : Event)
    (f : nat) :
  let r := ListenerOps.run throws ops Listeners.new in
  NoDup (registered event r)
  /\ (Listeners.emit throws event data r).2
     = map (delivered data) (registered event r)
  /\ registered event (Listeners.emit throws event data r).1
     = filter (fun l => spent throws data l = false) (registered event r)
  /\ registered event (Listeners.on event f (Listeners.on event f r))
     = registered event (Listeners.on event f r).
Proof.
  cbv zeta.
  pose proof (wellKept_run throws ops Listeners.new wellKept_new) as Hr.
  destruct (Hr event) as [Hnd _].
  destruct (emit_registered throws event data _ Hnd) as (H1 & _ & _ & H4).
  split; [exact Hnd|]. split; [exact H4|]. split; [exact H1|].
  unfold Listeners.on. rewrite !registered_register.
  destruct (decide (event = event)); [|congruence].
  unfold Listeners.add at 1.
  destruct (decide (Listeners.Given f
                    ∈ Listeners.add (Listeners.Given f)
                        (registered event
                           (ListenerOps.run throws ops Listeners.new))))
    as [_|Hn]; [reflexivity|].
  destruct Hn. apply elem_of_add. now right.
Qed.

(** X24.  A function registered with [once] is called by the next [emit]
    of the event, after the functions registered before it.  When it
    returns, its wrapper leaves the set and later calls of [emit] are as
    if [once] had not been called; when it throws, the wrapper stays
    registered and the function is called again by the next [emit]. *)
Theorem once_is_delivered_once (throws : nat -> Event -> bool)
    (ops : list ListenerOps.Op) (event : WebSocketEvent.t)
    (data data' : Event) (f : nat) :
  let r := ListenerOps.run throws ops Listeners.new in
  let r1 := Listeners.once event f r in
  let wrapper := Listeners.OnceWrapper (Listeners.wrappers r) f in
  (Listeners.emit throws event data r1).2
  = (Listeners.emit throws event data r).2 ++ [Listeners.Called f data]
  /\ registered event (Listeners.emit throws event data r1).1
     = registered event (Listeners.emit throws event data r).1
       ++ (if throws f data then [wrapper] else [])
  /\ (Listeners.emit throws event data'
        (Listeners.emit throws event data r1).1).2
     = (Listeners.emit throws event data'
          (Listeners.emit throws event data r).1).2
       ++ (if throws f data then [Listeners.Called f data'] else []).
Proof.
  cbv zeta.
  pose proof (wellKept_run throws ops Listeners.new wellKept_new) as Hr.
  set (r := ListenerOps.run throws ops Listeners.new) in *.
  pose proof (wellKept_once event f r Hr) as Hr1.
  pose proof (wellKept_emit throws event data r Hr) as Hr2.
  pose proof (wellKept_emit throws event data _ Hr1) as Hr3.
  destruct (Hr event) as [Hnd Hk].
  destruct (emit_registered throws event data r Hnd) as (H1 & _ & _ & H4).
  destruct (emit_registered throws event data _ (proj1 (Hr1 event)))
    as (G1 & _ & _ & G4).
  destruct (emit_registered throws event data' _ (proj1 (Hr2 event)))
    as (_ & _ & _ & K4).
  destruct (emit_registered throws event data' _ (proj1 (Hr3 event)))
    as (_ & _ & _ & L4).
  assert (Hreg : registered event (Listeners.once event f r)
                 = registered event r
                   ++ [Listeners.OnceWrapper (Listeners.wrappers r) f]).
  { unfold Listeners.once. rewrite registered_register.
    destruct (decide (event = event)); [|congruence].
    change (registered event
              {| Listeners.listeners := Listeners.listeners r;
                 Listeners.wrappers := S (Listeners.wrappers r) |})
      with (registered event r).
    unfold Listeners.add.
    destruct (decide (Listeners.OnceWrapper (Listeners.wrappers r) f
                      ∈ registered event r)) as [Hin|]; [|reflexivity].
    specialize (Hk _ _ Hin). lia. }
  assert (Hafter : registered event
                     (Listeners.emit throws event data
                        (Listeners.once event f r)).1
                   = registered event (Listeners.emit throws event data r).1
                     ++ (if throws f data
                         then [Listeners.OnceWrapper (Listeners.wrappers r) f]
                         else [])).
  { rewrite G1, H1, Hreg, filter_app. f_equal.
    destruct (throws f data) eqn:Ht.
    - rewrite filter_cons_True by (simpl; now rewrite Ht). reflexivity.
    - rewrite filter_cons_False by (simpl; rewrite Ht; discriminate).
      reflexivity. }
  split; [|split].
  - rewrite G4, H4, Hreg, map_app. reflexivity.
  - exact Hafter.
  - rewrite L4, K4, Hafter, map_app. f_equal.
    now destruct (throws f data).
Qed.

(** X25.  [off] removes a function that was registered with [on], and
    does not cancel a registration made with [once]: the set holds a
    wrapper that the caller cannot name, so after [once] and [off] with
    the same function the next [emit] still calls it. *)
Theorem off_does_not_cancel_once (throws : nat -> Event -> bool)
    (ops : list ListenerOps.Op) (event : WebSocketEvent.t) (data : Event)
    (f : nat) :
  let r := ListenerOps.run throws ops Listeners.new in
  (Listeners.Given f ∉ registered event (Listeners.off event f r))
  /\ registered event (Listeners.off event f (Listeners.once event f r))
     = registered event (Listeners.off event f r)
       ++ [Listeners.OnceWrapper (Listeners.wrappers r) f]
  /\ (Listeners.Called f data
      ∈ (Listeners.emit throws event data
           (Listeners.off event f (Listeners.once event f r))).2).
Proof.
  cbv zeta.
  pose proof (wellKept_run throws ops Listeners.new wellKept_new) as Hr.
  set (r := ListenerOps.run throws ops Listeners.new) in *.
  destruct (Hr event) as [Hnd Hk].
  assert (Hoff : registered event (Listeners.off event f r)
                 = Listeners.delete (Listeners.Given f) (registered event r)).
  { unfold Listeners.off. rewrite registered_unregister.
    now destruct (decide (event = event)). }
  assert (Hreg : registered event
                   (Listeners.off event f (Listeners.once event f r))
                 = registered event (Listeners.off event f r)
                   ++ [Listeners.OnceWrapper (Listeners.wrappers r) f]).
  { rewrite Hoff. unfold Listeners.off at 1. rewrite registered_unregister.
    destruct (decide (event = event)); [|congruence].
    unfold Listeners.once. rewrite registered_register.
    destruct (decide (event = event)); [|congruence].
    change (registered event
              {| Listeners.listeners := Listeners.listeners r;
                 Listeners.wrappers := S (Listeners.wrappers r) |})
      with (registered event r).
    unfold Listeners.add.
    destruct (decide (Listeners.OnceWrapper (Listeners.wrappers r) f
                      ∈ registered event r)) as [Hin|].
    { specialize (Hk _ _ Hin). lia. }
    unfold Listeners.delete. rewrite filter_app.
    rewrite filter_cons_True by discriminate. reflexivity. }
  split; [|split].
  - rewrite Hoff. unfold Listeners.delete. intros H.
    apply list_elem_of_filter in H. now destruct H as [H _].
  - exact Hreg.
  - pose proof (wellKept_unregister event (Listeners.Given f) _
                  (wellKept_once event f r Hr)) as Hr2.
    fold (Listeners.off event f (Listeners.once event f r)) in Hr2.
    destruct (emit_registered throws event data _ (proj1 (Hr2 event)))
      as (_ & _ & _ & G4).
    rewrite G4, Hreg, map_app. apply elem_of_app. right.
    apply list_elem_of_singleton. reflexivity.
Qed.
